(** * SP-API transactions pipeline: a shallow embedding

    The ingestion pipeline of the repository (fetch client, normalizer,
    validator, PostgreSQL store) embedded as Rocq functions, followed by
    the properties stated about it.

    Conventions.
    - A Python [str] is a [string]; a character is a code point below 256.
    - A JSON field that is absent or [null] is [None], except the
      ["transactions"] list, which the source reads with a default and
      for which the two differ. The payload is typed by its declared
      shape (every scalar field is a string): a payload that holds a
      number or a container where a string is declared is not
      represented.
    - A Python call that can raise returns a [result]; an exception that
      the source does not catch aborts the enclosing function.
    - Library calls whose behaviour is not part of the repository
      (ISO-8601 parsing, JSON printing, [float], the HTTP endpoints) are
      taken through interfaces ([DateLib], [JsonLib], [Env]). *)

From Stdlib Require Import ZArith NArith QArith Ascii String List Bool Lia.
From Stdlib Require Import DecimalString.
From stdpp Require Import gmap strings list fin_maps sorting.

Local Open Scope string_scope.
Local Open Scope Z_scope.

(* ===================================================================== *)
(** * Part I: definitions                                                 *)
(* ===================================================================== *)

(** ** Python values, exceptions and string helpers *)

Module Py.

(** The exception classes that occur in the embedded code. *)
Inductive exn : Type :=
| ImportError
| EnvironmentError
| ValueError
| KeyError
| TypeError
| OverflowError
| RuntimeError
| InvalidOperation            (* decimal.InvalidOperation *)
| HTTPError (status : Z)      (* requests.HTTPError, from raise_for_status *)
| RequestException            (* transport failure inside requests *)
| JSONDecodeError
| DatabaseError.              (* psycopg2.Error *)

Inductive result (A : Type) : Type :=
| Ok (a : A)
| Raise (e : exn).
Arguments Ok {A} a.
Arguments Raise {A} e.

Definition bind {A B} (r : result A) (k : A -> result B) : result B :=
  match r with
  | Ok a => k a
  | Raise e => Raise e
  end.

(** [bool(v)] for an optional string: [None] and [""] are falsy. *)
Definition truthy (v : option string) : bool :=
  match v with
  | Some s => negb (String.eqb s "")
  | None => false
  end.

Definition code (c : ascii) : N := N_of_ascii c.

(** [str.isspace] on code points below 256. *)
Definition is_space (c : ascii) : bool :=
  let n := code c in
  ((9 <=? n) && (n <=? 13) || (28 <=? n) && (n <=? 32)
   || (n =? 133) || (n =? 160))%N.

Definition is_digit (c : ascii) : bool :=
  ((48 <=? code c) && (code c <=? 57))%N.

Definition is_upper_AZ (c : ascii) : bool :=
  ((65 <=? code c) && (code c <=? 90))%N.

(** [str.lower] on one code point below 256. *)
Definition lower_char (c : ascii) : ascii :=
  let n := code c in
  if ((65 <=? n) && (n <=? 90)
      || (192 <=? n) && (n <=? 222) && negb (n =? 215))%N
  then ascii_of_N (n + 32) else c.

Definition lower (s : string) : string :=
  string_of_list_ascii (map lower_char (list_ascii_of_string s)).

(** [s.lstrip()] and [s.strip()], on the list of characters. *)
Fixpoint lstrip (l : list ascii) : list ascii :=
  match l with
  | c :: r => if is_space c then lstrip r else l
  | [] => []
  end.

Definition strip (l : list ascii) : list ascii :=
  rev (lstrip (rev (lstrip l))).

(** [s.replace("Z", "+00:00")]. *)
Fixpoint replace_Z (s : string) : string :=
  match s with
  | EmptyString => EmptyString
  | String c r =>
      if Ascii.eqb c "Z"%char then "+00:00" +:+ replace_Z r
      else String c (replace_Z r)
  end.

End Py.
Export Py.

(** ** The [decimal] library, as far as the pipeline uses it

    [decimal.Decimal] values, the string constructor, [quantize] and the
    ordering [>] under the default context (28 digits, ROUND_HALF_EVEN,
    InvalidOperation trapped). *)

Module Dec.

(** A value is [(-1)^sign * coeff * 10^exp], an infinity, or a NaN
    (quiet or signaling) with its diagnostic payload. *)
Inductive decimal : Type :=
| Finite (sign : bool) (coeff : N) (exp : Z)
| Infinity (sign : bool)
| NaN (sign : bool) (signaling : bool) (payload : N).

(** Default context. *)
Definition prec : Z := 28.
Definition Emax : Z := 999999.
Definition Emin : Z := -999999.
Definition Etiny : Z := Emin - prec + 1.

(** Bounds of the exact constructor (64-bit build). *)
Definition MAX_EMAX : Z := 999999999999999999.
Definition MIN_ETINY : Z := -1999999999999999997.

(** Number of decimal digits of a coefficient ([len(self._int)]); zero
    has one digit. *)
Definition ndigits (n : N) : Z := Z.of_nat (Decimal.nb_digits (N.to_uint n)).

(** [self.adjusted()]: exponent of the most significant digit. *)
Definition adjusted (c : N) (e : Z) : Z := e + ndigits c - 1.

Definition digit_val (c : ascii) : N := (code c - 48)%N.

Definition digits_val (ds : list ascii) : N :=
  fold_left (fun acc c => (10 * acc + digit_val c)%N) ds 0%N.

(** Longest prefix of digits, and the rest. *)
Fixpoint span_digits (l : list ascii) : list ascii * list ascii :=
  match l with
  | c :: r =>
      if is_digit c
      then let (ds, rest) := span_digits r in (c :: ds, rest)
      else ([], l)
  | [] => ([], [])
  end.

Definition parse_sign (l : list ascii) : bool * list ascii :=
  match l with
  | "-"%char :: r => (true, r)
  | "+"%char :: r => (false, r)
  | _ => (false, l)
  end.

(** Optional exponent part up to the end of the string:
    [(E[-+]?\d+)?\Z]. *)
Definition parse_exponent (l : list ascii) : option Z :=
  match l with
  | [] => Some 0
  | c :: r =>
      if Ascii.eqb (lower_char c) "e"%char then
        let (neg, r1) := parse_sign r in
        let (ds, r2) := span_digits r1 in
        match ds, r2 with
        | _ :: _, [] =>
            Some (if neg then - Z.of_N (digits_val ds)
                  else Z.of_N (digits_val ds))
        | _, _ => None
        end
      else None
  end.

(** A number with at least one digit: integer part, optional fraction,
    optional exponent. *)
Definition parse_finite (sign : bool) (l : list ascii) : option decimal :=
  let (ip, r1) := span_digits l in
  let (fp, r2) :=
    match r1 with
    | "."%char :: r => span_digits r
    | _ => ([], r1)
    end in
  match (ip ++ fp)%list with
  | [] => None
  | ds =>
      match parse_exponent r2 with
      | Some e => Some (Finite sign (digits_val ds) (e - Z.of_nat (length fp)))
      | None => None
      end
  end.

(** [Inf], [Infinity], or an optionally signaling [NaN] with diagnostic
    digits; letters in any case. *)
Definition parse_special (sign : bool) (l : list ascii) : option decimal :=
  let s := map lower_char l in
  if String.eqb (string_of_list_ascii s) "inf"
     || String.eqb (string_of_list_ascii s) "infinity"
  then Some (Infinity sign)
  else
    let (sig, r) :=
      match s with
      | "s"%char :: r => (true, r)
      | _ => (false, s)
      end in
    match r with
    | "n"%char :: "a"%char :: "n"%char :: d =>
        let (ds, rest) := span_digits d in
        match rest with
        | [] => Some (NaN sign sig (digits_val ds))
        | _ => None
        end
    | _ => None
    end.

Definition remove_underscores (l : list ascii) : list ascii :=
  List.filter (fun c => negb (Ascii.eqb c "_"%char)) l.

(** The exact constructor refuses a finite value that does not fit the
    widest context. *)
Definition in_exact_range (d : decimal) : bool :=
  match d with
  | Finite _ c e => (MIN_ETINY <=? e) && (adjusted c e <=? MAX_EMAX)
  | _ => true
  end.

(** [decimal.Decimal(s)] for a string [s]: surrounding whitespace and
    underscores are dropped, then sign and number or special value. *)
Definition Decimal (s : string) : result decimal :=
  let l := remove_underscores (strip (list_ascii_of_string s)) in
  let (sign, r) := parse_sign l in
  let parsed :=
    match parse_finite sign r with
    | Some d => Some d
    | None => parse_special sign r
    end in
  match parsed with
  | Some d => if in_exact_range d then Ok d else Raise InvalidOperation
  | None => Raise InvalidOperation
  end.
#[global] Arguments Decimal : simpl never.

(** Coefficient of [c * 10^e] at exponent [target], ROUND_HALF_EVEN
    ([_rescale]). *)
Definition rescale (c : N) (e target : Z) : N :=
  if target <=? e then (c * 10 ^ Z.to_N (e - target))%N
  else
    let d := (10 ^ Z.to_N (target - e))%N in
    let q := (c / d)%N in
    let r := (c mod d)%N in
    if (2 * r <? d)%N then q
    else if (d <? 2 * r)%N then (q + 1)%N
    else if N.even q then q else (q + 1)%N.

(** A quiet NaN keeps at most [prec] payload digits ([_fix_nan]). *)
Definition fix_nan (s : bool) (p : N) : decimal :=
  NaN s false (p mod 10 ^ Z.to_N prec)%N.

(** [self.quantize(exp)]: [self] at the exponent of [exp]. *)
Definition quantize (self exp : decimal) : result decimal :=
  match self, exp with
  | NaN _ true _, _ => Raise InvalidOperation
  | _, NaN _ true _ => Raise InvalidOperation
  | NaN s false p, _ => Ok (fix_nan s p)
  | _, NaN s false p => Ok (fix_nan s p)
  | Infinity s, Infinity _ => Ok (Infinity s)
  | Infinity _, Finite _ _ _ => Raise InvalidOperation
  | Finite _ _ _, Infinity _ => Raise InvalidOperation
  | Finite s c e, Finite _ _ target =>
      if negb ((Etiny <=? target) && (target <=? Emax))
      then Raise InvalidOperation
      else if (c =? 0)%N then Ok (Finite s 0 target)
      else if Emax <? adjusted c e then Raise InvalidOperation
      else if prec <? adjusted c e - target + 1 then Raise InvalidOperation
      else
        let c' := rescale c e target in
        if Emax <? adjusted c' target then Raise InvalidOperation
        else if prec <? ndigits c' then Raise InvalidOperation
        else Ok (Finite s c' target)
  end.

Definition signed (s : bool) (c : N) : Z :=
  if s then - Z.of_N c else Z.of_N c.

Definition cmp_finite (s1 : bool) (c1 : N) (e1 : Z)
                      (s2 : bool) (c2 : N) (e2 : Z) : comparison :=
  let m := Z.min e1 e2 in
  (signed s1 c1 * 10 ^ (e1 - m) ?= signed s2 c2 * 10 ^ (e2 - m)).

(** [a > b]: an ordering comparison with a NaN operand signals
    InvalidOperation. *)
Definition gt (a b : decimal) : result bool :=
  match a, b with
  | NaN _ _ _, _ => Raise InvalidOperation
  | _, NaN _ _ _ => Raise InvalidOperation
  | Infinity s1, Infinity s2 => Ok (negb s1 && s2)
  | Infinity s1, Finite _ _ _ => Ok (negb s1)
  | Finite _ _ _, Infinity s2 => Ok s2
  | Finite s1 c1 e1, Finite s2 c2 e2 =>
      Ok (match cmp_finite s1 c1 e1 s2 c2 e2 with Gt => true | _ => false end)
  end.

(** Rounded to exactly two fractional digits: a finite value whose
    exponent is -2. *)
Definition two_fractional_digits (d : decimal) : bool :=
  match d with
  | Finite _ _ e => e =? -2
  | _ => false
  end.


(** [str(d)] ([Decimal.__str__], scientific notation with a capital E). *)
Definition digits_str (n : N) : string := NilEmpty.string_of_uint (N.to_uint n).

Definition zeros (n : Z) : string :=
  string_of_list_ascii (repeat "0"%char (Z.to_nat n)).

Definition substring_from (n : Z) (s : string) : string :=
  substring (Z.to_nat n) (String.length s - Z.to_nat n) s.

Definition to_str (d : decimal) : string :=
  match d with
  | Infinity s => (if s then "-" else "") +:+ "Infinity"
  | NaN s sig p =>
      (if s then "-" else "") +:+ (if sig then "sNaN" else "NaN")
      +:+ (if (p =? 0)%N then "" else digits_str p)
  | Finite s c e =>
      let int := digits_str c in
      let len := Z.of_nat (String.length int) in
      let leftdigits := e + len in
      let dotplace :=
        if (e <=? 0) && (-6 <? leftdigits) then leftdigits else 1 in
      let intpart :=
        if dotplace <=? 0 then "0"
        else if len <=? dotplace then int +:+ zeros (dotplace - len)
        else substring 0 (Z.to_nat dotplace) int in
      let fracpart :=
        if dotplace <=? 0 then "." +:+ zeros (- dotplace) +:+ int
        else if len <=? dotplace then ""
        else "." +:+ substring_from dotplace int in
      let exp :=
        if leftdigits =? dotplace then ""
        else "E" +:+ (if 0 <=? leftdigits - dotplace then "+" else "-")
             +:+ digits_str (Z.abs_N (leftdigits - dotplace)) in
      (if s then "-" else "") +:+ intpart +:+ fracpart +:+ exp
  end.

End Dec.
Export Dec.

(** ** src/validator.py: normalizer and validator *)

Module Validator.

(** *** The API payload (response of /finances/transactions)

    The JSON object under ["amount"], the one under ["details"], one
    element of ["transactions"], and the whole response. A field of
    these objects that is absent or null is [None]. *)
Record Amount : Type := {
  currencyCode : option string;
  amount_value : option string          (* key "amount" *)
}.

Record Details : Type := {
  orderId : option string;
  details_reason : option string        (* key "reason" *)
}.

Record RawTransaction : Type := {
  transactionId : option string;
  postedDate : option string;
  tx_type : option string;              (* key "type" *)
  tx_amount : option Amount;            (* key "amount"; a dict when present *)
  marketplaceId : option string;
  details : option Details
}.

(** What a response holds under ["transactions"]: nothing (the key is
    absent), [null], or a list. *)
Inductive Transactions : Type :=
| NoKey
| Null
| Listed (txs : list RawTransaction).

(** [status] and [note] are the extra keys of the client's own "no data"
    result. *)
Record ApiPayload : Type := {
  transactions : Transactions;
  nextToken : option string;
  status : option string;
  note : option string
}.

(** [payload.get("transactions", [])]: the default stands in for an
    absent key only; a [null] comes back as Python's [None]. *)
Definition get_transactions (payload : ApiPayload)
  : option (list RawTransaction) :=
  match transactions payload with
  | NoKey => Some []
  | Null => None
  | Listed txs => Some txs
  end.

(** [json.dumps] of a transaction and [json.loads] of such a text. *)
Class JsonLib : Type := {
  json_value : Type;
  json_dumps : RawTransaction -> string;
  json_loads : string -> option json_value   (* None: raises *)
}.

(** [datetime.fromisoformat] and [datetime.astimezone(timezone.utc)]. An
    instant is its number of microseconds since the epoch; [None] stands
    for a raised exception. *)
Class DateLib : Type := {
  datetime : Type;
  fromisoformat : string -> option datetime;
  astimezone_utc : datetime -> option Z
}.

(** *** Normalized and validated records *)

Record Row : Type := {
  transaction_id : option string;
  posted_date_raw : option string;
  type : option string;
  currency_code : option string;
  amount : option decimal;
  marketplace_id : option string;
  order_id : option string;
  reason : option string;
  raw : string
}.

(** [processed_row]: the row without [posted_date_raw], with
    [posted_date] (an instant) and [posted_day] (its UTC calendar day, as
    a day number). *)
Record ValidRow : Type := {
  v_transaction_id : option string;
  v_type : option string;
  v_currency_code : option string;
  v_amount : option decimal;
  v_marketplace_id : option string;
  v_order_id : option string;
  v_reason : option string;
  v_raw : string;
  v_posted_date : Z;
  v_posted_day : Z
}.

(** [ISO_4217_RE = re.compile(r"^[A-Z]{3}$")], used with [.match]:
    three capital letters, optionally followed by one final newline
    (which [$] lets through). *)
Definition ISO_4217_RE_match (s : string) : bool :=
  match list_ascii_of_string s with
  | [a; b; c] => is_upper_AZ a && is_upper_AZ b && is_upper_AZ c
  | [a; b; c; nl] =>
      is_upper_AZ a && is_upper_AZ b && is_upper_AZ c
      && Ascii.eqb nl "010"%char
  | _ => false
  end.

(** [_parse_iso_z]: [None] when either library call raises. *)
Definition _parse_iso_z `{DateLib} (dt_iso : string) : option Z :=
  match fromisoformat (replace_Z dt_iso) with
  | Some d => astimezone_utc d
  | None => None
  end.

(** *** normalize_transactions *)

(** The amount conversion of one transaction: [None] for a missing or
    empty amount string; InvalidOperation and ValueError are caught. *)
Definition normalize_amount (amount_str : option string)
  : result (option decimal) :=
  match amount_str with
  | None => Ok None
  | Some s =>
      if String.eqb s "" then Ok None
      else
        match bind (Decimal s)
                   (fun amount_dec =>
                      bind (Decimal "0.01") (quantize amount_dec)) with
        | Ok amount_dec => Ok (Some amount_dec)
        | Raise InvalidOperation => Ok None
        | Raise ValueError => Ok None
        | Raise e => Raise e
        end
  end.

Definition normalize_row `{JsonLib} (transaction : RawTransaction)
  : result Row :=
  let currency :=
    match tx_amount transaction with
    | Some amount_obj => currencyCode amount_obj
    | None => None
    end in
  let amount_str :=
    match tx_amount transaction with
    | Some amount_obj => amount_value amount_obj
    | None => None
    end in
  bind (normalize_amount amount_str) (fun amount_dec =>
  let details :=
    match details transaction with
    | Some d => d
    | None => {| orderId := None; details_reason := None |}
    end in
  Ok {| transaction_id := transactionId transaction;
        posted_date_raw := postedDate transaction;
        type := tx_type transaction;
        currency_code := currency;
        amount := amount_dec;
        marketplace_id := marketplaceId transaction;
        order_id := orderId details;
        reason := details_reason details;
        raw := json_dumps transaction |}).

Fixpoint normalize_rows `{JsonLib} (txs : list RawTransaction)
  : result (list Row) :=
  match txs with
  | [] => Ok []
  | transaction :: rest =>
      bind (normalize_row transaction) (fun row =>
      bind (normalize_rows rest) (fun rows => Ok (row :: rows)))
  end.

(** The loop [for transaction in api_payload.get("transactions", [])]:
    iterating over [None] raises TypeError. *)
Definition normalize_transactions `{JsonLib} (api_payload : ApiPayload)
  : result (list Row) :=
  match get_transactions api_payload with
  | None => Raise TypeError
  | Some txs => normalize_rows txs
  end.

(** *** validate_transactions *)

(** The messages, one constructor per f-string of the source, with the
    interpolated values as arguments ([i] is the 1-based item index). *)
Inductive error : Type :=
| MissingTransactionId (i : nat)
| DuplicateTransactionId (i : nat) (tid : string)
| MissingPostedDate (i : nat) (tid : string)
| PostedDateNotIso (i : nat) (tid posted_date_raw : string)
| PostedDateInFuture (i : nat) (tid posted_date_raw : string)
| InvalidCurrencyCode (i : nat) (tid currency : string).

Inductive warning : Type :=
| PostedDateVeryOld (i : nat) (tid posted_date_raw : string)
| RefundPositiveAmount (i : nat) (tid : string) (amount : decimal).

Definition tag (i : nat) : string :=
  "item[" +:+ NilEmpty.string_of_uint (Nat.to_uint i) +:+ "]".

Definition a_acute : string := String "225"%char "".

(** The text of each message. *)
Definition render_error (e : error) : string :=
  match e with
  | MissingTransactionId i => tag i +:+ ": falta 'transactionId'"
  | DuplicateTransactionId i tid =>
      tag i +:+ ":" +:+ tid +:+ ": transactionId duplicado en el batch"
  | MissingPostedDate i tid =>
      tag i +:+ ":" +:+ tid +:+ ": falta 'postedDate'"
  | PostedDateNotIso i tid r =>
      tag i +:+ ":" +:+ tid +:+ ": 'postedDate' no es ISO-8601: " +:+ r
  | PostedDateInFuture i tid r =>
      tag i +:+ ":" +:+ tid +:+ ": 'postedDate' en el futuro: " +:+ r
  | InvalidCurrencyCode i tid c =>
      tag i +:+ ":" +:+ tid +:+ ": currency_code inv" +:+ a_acute
      +:+ "lido: " +:+ c
  end.

Definition render_warning (w : warning) : string :=
  match w with
  | PostedDateVeryOld i tid r =>
      tag i +:+ ":" +:+ tid +:+ ": 'postedDate' muy antigua (" +:+ r
      +:+ "); revisar rango (<=180d recomendado)"
  | RefundPositiveAmount i tid a =>
      tag i +:+ ":" +:+ tid +:+ ": Refund con monto positivo ("
      +:+ to_str a +:+ "). Revisar signo."
  end.

(** The accumulators of the loop. *)
Record state : Type := {
  seen_ids : gset string;
  errors : list error;
  warnings : list warning;
  valid_rows : list ValidRow
}.

Definition init : state :=
  {| seen_ids := ∅; errors := []; warnings := []; valid_rows := [] |}.

Definition add_error (st : state) (e : error) : state :=
  {| seen_ids := seen_ids st; errors := errors st ++ [e];
     warnings := warnings st; valid_rows := valid_rows st |}.

Definition add_warning (st : state) (w : warning) : state :=
  {| seen_ids := seen_ids st; errors := errors st;
     warnings := warnings st ++ [w]; valid_rows := valid_rows st |}.

Definition add_seen (st : state) (tid : string) : state :=
  {| seen_ids := {[tid]} ∪ seen_ids st; errors := errors st;
     warnings := warnings st; valid_rows := valid_rows st |}.

Definition add_valid (st : state) (v : ValidRow) : state :=
  {| seen_ids := seen_ids st; errors := errors st;
     warnings := warnings st; valid_rows := valid_rows st ++ [v] |}.

(** A truthy optional string, or [None] where [not v] holds. *)
Definition present (v : option string) : option string :=
  if truthy v then v else None.

Definition microseconds_per_day : Z := 86400000000.

(** [(now - posted_date).days] *)
Definition days_between (now posted_date : Z) : Z :=
  (now - posted_date) / microseconds_per_day.

(** [posted_date.date()] as a day number. *)
Definition date_of (posted_date : Z) : Z :=
  posted_date / microseconds_per_day.

Definition processed_row (row : Row) (posted_date : Z) : ValidRow :=
  {| v_transaction_id := transaction_id row;
     v_type := type row;
     v_currency_code := currency_code row;
     v_amount := amount row;
     v_marketplace_id := marketplace_id row;
     v_order_id := order_id row;
     v_reason := reason row;
     v_raw := raw row;
     v_posted_date := posted_date;
     v_posted_day := date_of posted_date |}.

(** The warning for a refund with a positive amount, when its condition
    [amount is not None and tx_type == "refund" and amount > 0] holds. *)
Definition refund_warning (i : nat) (tid : string) (row : Row)
  : result (option warning) :=
  let tx_type := lower (default "" (present (type row))) in
  match amount row with
  | None => Ok None
  | Some amount =>
      if String.eqb tx_type "refund"
      then
        bind (Decimal "0.00") (fun zero =>
        bind (gt amount zero) (fun positive =>
        Ok (if positive then Some (RefundPositiveAmount i tid amount)
            else None)))
      else Ok None
  end.

(** The tail of the loop body, from the refund warning on. *)
Definition accept_row (st : state) (i : nat) (tid : string) (row : Row)
                      (posted_date : Z) : result state :=
  bind (refund_warning i tid row) (fun w =>
  let st :=
    match w with
    | Some w => add_warning st w
    | None => st
    end in
  Ok (add_valid st (processed_row row posted_date))).

(** One iteration of the loop over [enumerate(rows, start=1)]. Each
    [continue] of the source is a returned state. *)
Definition validate_row `{DateLib} (now : Z) (st : state) (i : nat)
                        (row : Row) : result state :=
  match present (transaction_id row) with
  | None => Ok (add_error st (MissingTransactionId i))
  | Some tid =>
      if bool_decide (tid ∈ seen_ids st)
      then Ok (add_error st (DuplicateTransactionId i tid))
      else
        let st := add_seen st tid in
        match present (posted_date_raw row) with
        | None => Ok (add_error st (MissingPostedDate i tid))
        | Some posted_date_raw =>
            match _parse_iso_z posted_date_raw with
            | None => Ok (add_error st (PostedDateNotIso i tid posted_date_raw))
            | Some posted_date =>
                if now <? posted_date
                then Ok (add_error st
                           (PostedDateInFuture i tid posted_date_raw))
                else
                  let st :=
                    if 370 <? days_between now posted_date
                    then add_warning st
                           (PostedDateVeryOld i tid posted_date_raw)
                    else st in
                  match present (currency_code row) with
                  | Some currency =>
                      if negb (ISO_4217_RE_match currency)
                      then Ok (add_error st
                                 (InvalidCurrencyCode i tid currency))
                      else accept_row st i tid row posted_date
                  | None => accept_row st i tid row posted_date
                  end
            end
        end
  end.

(** The state in which a record with identifier [tid], read at [raw]
    and parsed to [t], reaches the currency rule. *)
Definition at_currency_rule (now : Z) (st : state) (i : nat)
    (tid raw : string) (t : Z) : state :=
  if 370 <? days_between now t
  then add_warning (add_seen st tid) (PostedDateVeryOld i tid raw)
  else add_seen st tid.

Fixpoint validate_loop `{DateLib} (now : Z) (st : state) (i : nat)
                       (rows : list Row) : result state :=
  match rows with
  | [] => Ok st
  | row :: rest =>
      bind (validate_row now st i row)
           (fun st' => validate_loop now st' (S i) rest)
  end.

(** [now] is the value of [datetime.now(timezone.utc)] read on entry. *)
Definition validate_transactions `{DateLib} (now : Z) (rows : list Row)
  : result (list ValidRow * list error * list warning) :=
  bind (validate_loop now init 1 rows)
       (fun st => Ok (valid_rows st, errors st, warnings st)).

(** *** Vocabulary for statements about a whole batch *)

(** A capital letter from A to Z. *)
Definition capital (c : ascii) : Prop :=
  (N_of_ascii "A" <= N_of_ascii c <= N_of_ascii "Z")%N.

(** Exactly three capital letters. *)
Definition three_capitals (s : string) : Prop :=
  exists a b c,
    s = String a (String b (String c ""))
    /\ capital a /\ capital b /\ capital c.

Definition newline : string := String "010"%char "".

(** Three capital letters, alone or followed by one newline. *)
Definition currency_shape (s : string) : Prop :=
  three_capitals s \/ exists s0, three_capitals s0 /\ s = s0 +:+ newline.

(** A refund (type "refund" in any case) whose amount is a NaN. *)
Definition nan_refund (row : Row) : Prop :=
  lower (default "" (present (type row))) = "refund"
  /\ exists s sig p, amount row = Some (NaN s sig p).

(** The identifier of a record, when it has one ([tid] is truthy). *)
Definition id_of (row : Row) : option string := present (transaction_id row).

(** The item index in a message. *)
Definition error_index (e : error) : nat :=
  match e with
  | MissingTransactionId i => i
  | DuplicateTransactionId i _ => i
  | MissingPostedDate i _ => i
  | PostedDateNotIso i _ _ => i
  | PostedDateInFuture i _ _ => i
  | InvalidCurrencyCode i _ _ => i
  end.

Definition is_duplicate_error (e : error) : bool :=
  match e with
  | DuplicateTransactionId _ _ => true
  | _ => false
  end.

(** Position [j] (from 0) holds the first record with identifier [tid]. *)
Definition first_occurrence (rows : list Row) (j : nat) (tid : string)
  : Prop :=
  (exists rj, rows !! j = Some rj /\ id_of rj = Some tid)
  /\ forall k rk, (k < j)%nat -> rows !! k = Some rk -> id_of rk <> Some tid.

(** Position [j] holds a record whose identifier [tid] was already the
    identifier of an earlier record. *)
Definition later_occurrence (rows : list Row) (j : nat) (tid : string)
  : Prop :=
  (exists rj, rows !! j = Some rj /\ id_of rj = Some tid)
  /\ exists k rk, (k < j)%nat /\ rows !! k = Some rk /\ id_of rk = Some tid.

(** What holds of the accumulators once the records [rows] have been
    processed. *)
Record batch_inv (rows : list Row) (st : state) : Prop := {
  inv_seen :
    forall tid, tid ∈ seen_ids st <->
                exists k rk, rows !! k = Some rk /\ id_of rk = Some tid;
  inv_error_bound :
    Forall (fun e => (error_index e <= length rows)%nat) (errors st);
  inv_error_order :
    StronglySorted lt (map error_index (errors st));
  inv_valid_order :
    sublist (map v_transaction_id (valid_rows st))
            (map transaction_id rows);
  inv_duplicate :
    forall j tid, later_occurrence rows j tid ->
      DuplicateTransactionId (S j) tid ∈ errors st
      /\ forall e, e ∈ errors st -> error_index e = S j ->
                   e = DuplicateTransactionId (S j) tid;
  inv_duplicate_only_later :
    forall e, e ∈ errors st -> is_duplicate_error e = true ->
      exists j tid, e = DuplicateTransactionId (S j) tid
                    /\ later_occurrence rows j tid;
  inv_valid_first :
    forall v, v ∈ valid_rows st ->
      exists j rj tid t,
        rows !! j = Some rj /\ first_occurrence rows j tid
        /\ v = processed_row rj t;
  inv_valid_nodup :
    NoDup (map v_transaction_id (valid_rows st));
  inv_missing :
    forall j rj, rows !! j = Some rj -> id_of rj = None ->
      MissingTransactionId (S j) ∈ errors st
}.

End Validator.

(** ** src/database.py: the PostgreSQL store *)

Module Database.
Import Validator.

(** What psycopg2 and the column types do to a Python value on its way
    into the table; [Raise] when the value is refused. *)
Class PgLib `{JsonLib} : Type := {
  numeric : Type;                            (* numeric(14,2) *)
  jsonb : Type;
  to_numeric : decimal -> result numeric;
  to_jsonb : json_value -> result jsonb
}.

(** A text value is stored as it is; a string holding a NUL character is
    refused before it is sent. *)
Definition to_text (s : string) : result string :=
  if existsb (fun c => Ascii.eqb c "000"%char) (list_ascii_of_string s)
  then Raise ValueError
  else Ok s.

Section Store.
Context `{PgLib}.

(** One tuple of [values]. *)
Record Values : Type := {
  val_transaction_id : string;
  val_posted_date : Z;
  val_posted_day : Z;
  val_type : option string;
  val_currency_code : option string;
  val_amount : option decimal;
  val_marketplace_id : option string;
  val_order_id : option string;
  val_reason : option string;
  val_raw : json_value
}.

(** The row proposed for insertion (EXCLUDED), in column values. *)
Record Excluded : Type := {
  ex_transaction_id : string;
  ex_posted_date : Z;
  ex_posted_day : Z;
  ex_type : option string;
  ex_currency_code : option string;
  ex_amount : option numeric;
  ex_marketplace_id : option string;
  ex_order_id : option string;
  ex_reason : option string;
  ex_raw : jsonb
}.

(** A row of the table spapi_transactions that
    [ensure_table_and_indexes] creates, without its key. *)
Record StoredRow : Type := {
  posted_date : Z;
  posted_day : Z;
  s_type : option string;
  s_currency_code : option string;
  s_amount : option numeric;
  s_marketplace_id : option string;
  s_order_id : option string;
  s_reason : option string;
  s_raw : jsonb;
  created_at : Z;
  updated_at : Z
}.

(** The table: [transaction_id text PRIMARY KEY] maps to the row. *)
Definition table : Type := gmap string StoredRow.

Definition opt_result {A B} (f : A -> result B) (v : option A)
  : result (option B) :=
  match v with
  | Some a => bind (f a) (fun b => Ok (Some b))
  | None => Ok None
  end.

Definition adapt (v : Values) : result Excluded :=
  bind (to_text (val_transaction_id v)) (fun tid =>
  bind (opt_result to_text (val_type v)) (fun ty =>
  bind (opt_result to_text (val_currency_code v)) (fun cur =>
  bind (opt_result to_numeric (val_amount v)) (fun amt =>
  bind (opt_result to_text (val_marketplace_id v)) (fun mkt =>
  bind (opt_result to_text (val_order_id v)) (fun ord =>
  bind (opt_result to_text (val_reason v)) (fun rsn =>
  bind (to_jsonb (val_raw v)) (fun rw =>
  Ok {| ex_transaction_id := tid;
        ex_posted_date := val_posted_date v;
        ex_posted_day := val_posted_day v;
        ex_type := ty;
        ex_currency_code := cur;
        ex_amount := amt;
        ex_marketplace_id := mkt;
        ex_order_id := ord;
        ex_reason := rsn;
        ex_raw := rw |})))))))).

(** INSERT of one proposed row: a new key gets both timestamps from
    [DEFAULT now()]; on conflict the SET list is applied to the existing
    row ([created_at] is not in the list). *)
Definition upsert_row (now : Z) (tbl : table) (ex : Excluded) : table :=
  match tbl !! ex_transaction_id ex with
  | None =>
      <[ex_transaction_id ex :=
          {| posted_date := ex_posted_date ex;
             posted_day := ex_posted_day ex;
             s_type := ex_type ex;
             s_currency_code := ex_currency_code ex;
             s_amount := ex_amount ex;
             s_marketplace_id := ex_marketplace_id ex;
             s_order_id := ex_order_id ex;
             s_reason := ex_reason ex;
             s_raw := ex_raw ex;
             created_at := now;
             updated_at := now |}]> tbl
  | Some old =>
      <[ex_transaction_id ex :=
          {| posted_date := ex_posted_date ex;
             posted_day := ex_posted_day ex;
             s_type := ex_type ex;
             s_currency_code := ex_currency_code ex;
             s_amount := ex_amount ex;
             s_marketplace_id := ex_marketplace_id ex;
             s_order_id := ex_order_id ex;
             s_reason := ex_reason ex;
             s_raw := ex_raw ex;
             created_at := created_at old;
             updated_at := now |}]> tbl
  end.

(** One INSERT ... ON CONFLICT DO UPDATE statement over the rows of a
    page. A key proposed twice in one statement is refused (the command
    cannot affect a row a second time). *)
Fixpoint upsert_rows (now : Z) (touched : gset string) (tbl : table)
                     (rows : list Excluded) : result table :=
  match rows with
  | [] => Ok tbl
  | ex :: rest =>
      if bool_decide (ex_transaction_id ex ∈ touched)
      then Raise DatabaseError
      else upsert_rows now ({[ex_transaction_id ex]} ∪ touched)
                       (upsert_row now tbl ex) rest
  end.

Fixpoint adapt_all (page : list Values) : result (list Excluded) :=
  match page with
  | [] => Ok []
  | v :: rest =>
      bind (adapt v) (fun ex =>
      bind (adapt_all rest) (fun exs => Ok (ex :: exs)))
  end.

Definition execute_statement (now : Z) (tbl : table) (page : list Values)
  : result table :=
  bind (adapt_all page) (upsert_rows now ∅ tbl).

(** [execute_values(cur, sql, values, page_size)]: one statement per
    page of at most [page_size] tuples. *)
Fixpoint pages {A} (fuel page_size : nat) (l : list A) : list (list A) :=
  match fuel, l with
  | S fuel', _ :: _ =>
      take page_size l :: pages fuel' page_size (drop page_size l)
  | _, _ => []
  end.

Fixpoint execute_pages (now : Z) (tbl : table) (ps : list (list Values))
  : result table :=
  match ps with
  | [] => Ok tbl
  | page :: rest =>
      bind (execute_statement now tbl page)
           (fun tbl' => execute_pages now tbl' rest)
  end.

Definition execute_values (now : Z) (tbl : table) (values : list Values)
                          (page_size : nat) : result table :=
  execute_pages now tbl (pages (length values) page_size values).

(** The tuple appended for [tx], whose identifier is [tid] and whose raw
    text was loaded as [rw]. *)
Definition values_of (tid : string) (tx : ValidRow) (rw : json_value)
  : Values :=
  {| val_transaction_id := tid;
     val_posted_date := v_posted_date tx;
     val_posted_day := v_posted_day tx;
     val_type := v_type tx;
     val_currency_code := v_currency_code tx;
     val_amount := v_amount tx;
     val_marketplace_id := v_marketplace_id tx;
     val_order_id := v_order_id tx;
     val_reason := v_reason tx;
     val_raw := rw |}.

(** The loop that builds [values]: rows without an identifier are
    skipped; [json.loads] of the raw text can raise. *)
Fixpoint build_values (transactions : list ValidRow) : result (list Values) :=
  match transactions with
  | [] => Ok []
  | tx :: rest =>
      match present (v_transaction_id tx) with
      | None => build_values rest
      | Some tid =>
          match json_loads (v_raw tx) with
          | None => Raise JSONDecodeError
          | Some rw =>
              bind (build_values rest) (fun values =>
              Ok (values_of tid tx rw :: values))
          end
      end
  end.

(** [get_connection()]: every call connects afresh, and [opens] says
    whether this one succeeds; psycopg2 raises a subclass of its Error
    otherwise. *)
Definition get_connection (opens : bool) : result unit :=
  if opens then Ok tt else Raise DatabaseError.

(** [ensure_table_and_indexes], on a connection of its own. Its
    statements (CREATE ... IF NOT EXISTS, ADD COLUMN IF NOT EXISTS) leave
    the rows of the table as they are. *)
Definition ensure_table_and_indexes (opens : bool) : result unit :=
  get_connection opens.

(** [save_transactions]: the returned count and the table afterwards.
    [now] is the time of the writing transaction ([now()]);
    [ensure_opens] and [write_opens] say whether the connection of
    [ensure_table_and_indexes] and the one of the INSERT open. The
    writes are committed together; an exception leaves the table as it
    was. *)
Definition save_transactions (now : Z) (ensure_opens write_opens : bool)
    (transactions : list ValidRow) (tbl : table) : result nat * table :=
  match transactions with
  | [] => (Ok 0%nat, tbl)
  | _ =>
      match ensure_table_and_indexes ensure_opens with
      | Raise e => (Raise e, tbl)
      | Ok _ =>
          match build_values transactions with
          | Raise e => (Raise e, tbl)
          | Ok values =>
              match get_connection write_opens with
              | Raise e => (Raise e, tbl)
              | Ok _ =>
                  match execute_values now tbl values 1000 with
                  | Ok tbl' => (Ok (length values), tbl')
                  | Raise e => (Raise e, tbl)
                  end
              end
          end
      end
  end.

End Store.
End Database.

(** ** src/spapi_client.py: the fetch client *)

Module Client.
Import Validator.

(** A Python float: a finite value, an infinity, or NaN. *)
Inductive pyfloat : Type :=
| Fin (q : Q)
| FInf (negative : bool)
| FNaN.

(** What [requests.get] returns, as far as it is read. *)
Record Response : Type := {
  status_code : Z;
  retry_after : option string;         (* headers.get("Retry-After") *)
  content_length : nat;                (* len(response.content) *)
  json : result ApiPayload             (* response.json() *)
}.

(** The outside world of one call. The [k]-th token exchange and the
    [k]-th GET (counted from 0) answer by position, as a sequence of
    simulated responses does. *)
Record Env : Type := {
  requests_available : bool;           (* the requests module was imported *)
  lwa_credentials : bool;              (* the three LWA settings are set *)
  lwa_post : nat -> result string;     (* access token, or the POST raises *)
  http_get : nat -> result Response;   (* response, or the GET raises *)
  py_float : string -> result pyfloat; (* float(s) *)
  time_sleep : pyfloat -> result unit  (* time.sleep(w) *)
}.

Inductive retry_reason : Type :=
| TokenExpired                         (* "Token expirado" *)
| Throttling                           (* "Throttling" *)
| ServerError (status : Z).            (* f"Server error {status}" *)

(** The observable actions of the client, in order. *)
Inductive event : Type :=
| TokenExchange
| LogApiRequest (url posted_after : string) (marketplace_id : option string)
| HttpGet (url token posted_after : string) (marketplace_id : option string)
          (timeout : Z)
| LogApiResponse (status : Z) (size : nat)
| LogRetryAttempt (attempt : nat) (max_attempts : Z) (reason : retry_reason)
                  (wait_time : option pyfloat)
| Sleep (wait_time : pyfloat).

Definition is_token_exchange (ev : event) : bool :=
  match ev with TokenExchange => true | _ => false end.

Definition is_http_get (ev : event) : bool :=
  match ev with HttpGet _ _ _ _ _ => true | _ => false end.

Definition count (p : event -> bool) (tr : list event) : nat :=
  length (List.filter p tr).

(** A computation that appends to the trace of events and either
    returns or raises. *)
Definition M (A : Type) : Type := list event -> result A * list event.

Definition ret {A} (a : A) : M A := fun tr => (Ok a, tr).

Definition raise {A} (e : exn) : M A := fun tr => (Raise e, tr).

Definition mbind {A B} (m : M A) (k : A -> M B) : M B :=
  fun tr =>
    match m tr with
    | (Ok a, tr') => k a tr'
    | (Raise e, tr') => (Raise e, tr')
    end.

Definition emit (ev : event) : M unit := fun tr => (Ok tt, (tr ++ [ev])%list).

Definition lift {A} (r : result A) : M A := fun tr => (r, tr).

Declare Scope client_scope.
Delimit Scope client_scope with client.
Notation "'let!' x ':=' m 'in' k" := (mbind m (fun x => k))
  (at level 10, x name, m at level 100, k at level 200) : client_scope.
Notation "'do!' m 'in' k" := (mbind m (fun _ => k))
  (at level 10, m at level 100, k at level 200) : client_scope.
Local Open Scope client_scope.

(** [_validate_iso8601_utc] *)
Definition _validate_iso8601_utc `{DateLib} (dt_iso : string) : M unit :=
  match fromisoformat (replace_Z dt_iso) with
  | Some _ => ret tt
  | None => raise ValueError
  end.

(** [_get_lwa_token]: the POST to the token endpoint is the next token
    exchange of the call. *)
Definition _get_lwa_token (E : Env) : M string :=
  if negb (requests_available E) then raise ImportError
  else if negb (lwa_credentials E) then raise EnvironmentError
  else fun tr =>
         (lwa_post E (count is_token_exchange tr),
          (tr ++ [TokenExchange])%list).

Definition requests_get (E : Env) (url token posted_after : string)
                        (marketplace_id : option string) (timeout : Z)
  : M Response :=
  fun tr =>
    (http_get E (count is_http_get tr),
     (tr ++ [HttpGet url token posted_after marketplace_id timeout])%list).

(** [time.sleep(w)]: the wait is recorded when the call returns. *)
Definition sleep (E : Env) (w : pyfloat) : M unit :=
  fun tr =>
    match time_sleep E w with
    | Ok u => (Ok u, (tr ++ [Sleep w])%list)
    | Raise e => (Raise e, tr)
    end.

(** [response.raise_for_status()] *)
Definition raise_for_status (response : Response) : M unit :=
  if (400 <=? status_code response) && (status_code response <? 600)
  then raise (HTTPError (status_code response))
  else ret tt.

(** The local variables carried from one attempt to the next. *)
Record loop_state : Type := {
  token : string;
  backoff : Z;
  token_refreshed : bool
}.

(** How one iteration ends: [continue], or [return]. *)
Inductive step : Type :=
| Continue (st : loop_state)
| Return (payload : ApiPayload).

Definition as_float (backoff : Z) : pyfloat := Fin (inject_Z backoff).

(** The result returned for a response without transactions. *)
Definition no_data : ApiPayload :=
  {| transactions := Listed [];
     nextToken := None;
     status := Some "ok";
     note := Some "Sin datos (pueden demorar ~48h en aparecer)" |}.

Definition is_empty {A} (l : list A) : bool :=
  match l with [] => true | _ => false end.

(** The body of [for attempt in range(1, max_retries + 1)]. *)
Definition attempt_once (E : Env) (url posted_after : string)
    (marketplace_id : option string) (timeout max_retries : Z)
    (st : loop_state) (attempt : nat) : M step :=
  do! emit (LogApiRequest url posted_after marketplace_id) in
  let! response :=
    requests_get E url (token st) posted_after marketplace_id timeout in
  do! emit (LogApiResponse (status_code response)
              (content_length response)) in
  if (status_code response =? 401) && negb (token_refreshed st) then
    do! emit (LogRetryAttempt attempt max_retries TokenExpired None) in
    let! token' := _get_lwa_token E in
    ret (Continue {| token := token'; backoff := backoff st;
                     token_refreshed := true |})
  else if status_code response =? 429 then
    let! wait_time :=
      match present (retry_after response) with
      | Some retry_after => lift (py_float E retry_after)
      | None => ret (as_float (backoff st))
      end in
    do! emit (LogRetryAttempt attempt max_retries Throttling
                (Some wait_time)) in
    do! sleep E wait_time in
    ret (Continue {| token := token st;
                     backoff := Z.min (backoff st * 2) 60;
                     token_refreshed := token_refreshed st |})
  else if (500 <=? status_code response) && (status_code response <? 600) then
    do! emit (LogRetryAttempt attempt max_retries
                (ServerError (status_code response))
                (Some (as_float (backoff st)))) in
    do! sleep E (as_float (backoff st)) in
    ret (Continue {| token := token st;
                     backoff := Z.min (backoff st * 2) 60;
                     token_refreshed := token_refreshed st |})
  else
    do! raise_for_status response in
    let! data := lift (json response) in
    if is_empty (default [] (get_transactions data))
    then ret (Return no_data)
    else ret (Return data).

(** The loop, for the attempts [attempt, attempt + 1, ...] that remain;
    falling out of it raises the RuntimeError of the last line. *)
Fixpoint request_loop (E : Env) (url posted_after : string)
    (marketplace_id : option string) (timeout max_retries : Z)
    (st : loop_state) (attempt remaining : nat) : M ApiPayload :=
  match remaining with
  | O => raise RuntimeError
  | S remaining' =>
      let! r := attempt_once E url posted_after marketplace_id timeout
                  max_retries st attempt in
      match r with
      | Continue st' =>
          request_loop E url posted_after marketplace_id timeout
            max_retries st' (S attempt) remaining'
      | Return payload => ret payload
      end
  end.

Definition DEFAULT_TIMEOUT : Z := 60.
Definition DEFAULT_MAX_RETRIES : Z := 6.

(** [SPAPIClient.list_transactions_real]; [base_url] is the attribute
    of [self]. *)
Definition list_transactions_real `{DateLib} (E : Env) (base_url : string)
    (posted_after : string) (marketplace_id : option string)
    (timeout max_retries : Z) : M ApiPayload :=
  if negb (requests_available E) then raise ImportError
  else
    do! _validate_iso8601_utc posted_after in
    let url := base_url +:+ "/finances/2024-06-19/transactions" in
    let marketplace_id := present marketplace_id in
    let! token := _get_lwa_token E in
    request_loop E url posted_after marketplace_id timeout max_retries
      {| token := token; backoff := 1; token_refreshed := false |}
      1 (Z.to_nat max_retries).

(** The events of every attempt that gets the response [r]. *)
Definition request_events (url posted_after : string)
    (marketplace_id : option string) (timeout : Z) (token : string)
    (r : Response) : list event :=
  [LogApiRequest url posted_after marketplace_id;
   HttpGet url token posted_after marketplace_id timeout;
   LogApiResponse (status_code r) (content_length r)].

(** *** Vocabulary for statements about the retries *)

(** The status of the [k]-th response, when the [k]-th GET returns one. *)
Definition status_at (E : Env) (k : nat) : option Z :=
  match http_get E k with
  | Ok r => Some (status_code r)
  | Raise _ => None
  end.

(** The [k]-th attempt (from 0) ends in a retry: the response is the
    first 401 of the call and the token exchange that refreshes the
    credential (the second of the call) returns; or it is a 429 whose
    Retry-After value, if any, is read by [float] and accepted by
    [time.sleep]; or it is a 5xx. *)
Definition retryable (E : Env) (k : nat) : Prop :=
  exists r,
    http_get E k = Ok r
    /\ ((status_code r = 401
         /\ (forall j, (j < k)%nat -> status_at E j <> Some 401)
         /\ exists token', lwa_post E 1 = Ok token')
        \/ (status_code r = 429
            /\ forall s, present (retry_after r) = Some s ->
                 exists w, py_float E s = Ok w /\ time_sleep E w = Ok tt)
        \/ 500 <= status_code r < 600).

(** What a success returns for the decoded body [data]. *)
Definition success_result (data : ApiPayload) : ApiPayload :=
  if is_empty (default [] (get_transactions data)) then no_data else data.

(** A call starts with an empty trace. *)
Definition run {A} (m : M A) : result A * list event := m [].

End Client.

(** ** Concrete instances and sample data

    A small date library for the canonical form [YYYY-MM-DDTHH:MM:SS+00:00],
    a JSON and column library that keep no detail, and the sample batch of
    the mock client. The theorems hold for every instance; these serve the
    examples. *)

Module Sample.
Import Validator Database Client.

Definition is_leap (y : Z) : bool :=
  (y mod 4 =? 0) && (negb (y mod 100 =? 0) || (y mod 400 =? 0)).

Definition days_in_month (y m : Z) : Z :=
  if m =? 2 then (if is_leap y then 29 else 28)
  else if (m =? 4) || (m =? 6) || (m =? 9) || (m =? 11) then 30
  else 31.

(** Days from 1970-01-01 to the civil date [y-m-d]. *)
Definition days_from_civil (y m d : Z) : Z :=
  let y' := if m <=? 2 then y - 1 else y in
  let era := y' / 400 in
  let yoe := y' - era * 400 in
  let mp := (m + 9) mod 12 in
  let doy := (153 * mp + 2) / 5 + d - 1 in
  let doe := yoe * 365 + yoe / 4 - yoe / 100 + doy in
  era * 146097 + doe - 719468.

Definition number (ds : list ascii) : option Z :=
  if forallb is_digit ds then Some (Z.of_N (digits_val ds)) else None.

Definition civil_instant (y m d hh mm ss : Z) : option Z :=
  if (1 <=? y) && (1 <=? m) && (m <=? 12) && (1 <=? d)
     && (d <=? days_in_month y m) && (hh <? 24) && (mm <? 60) && (ss <? 60)
  then Some ((days_from_civil y m d * 86400 + hh * 3600 + mm * 60 + ss)
             * 1000000)
  else None.

(** The digits of the fields, once the separators are in place. *)
Definition fields (l : list ascii) : option (list (list ascii)) :=
  match l with
  | [y1; y2; y3; y4; p1; m1; m2; p2; d1; d2; p3; h1; h2; p4; i1; i2;
     p5; s1; s2; z1; z2; z3; z4; z5; z6] =>
      if String.eqb (string_of_list_ascii [p1; p2; p3; p4; p5]) "--T::"
         && String.eqb (string_of_list_ascii [z1; z2; z3; z4; z5; z6])
                       "+00:00"
      then Some [[y1; y2; y3; y4]; [m1; m2]; [d1; d2];
                 [h1; h2]; [i1; i2]; [s1; s2]]
      else None
  | _ => None
  end.

Definition parse_utc_seconds (s : string) : option Z :=
  match fields (list_ascii_of_string s) with
  | Some [f_y; f_m; f_d; f_hh; f_mm; f_ss] =>
      match number f_y, number f_m, number f_d,
            number f_hh, number f_mm, number f_ss with
      | Some y, Some m, Some d, Some hh, Some mm, Some ss =>
          civil_instant y m d hh mm ss
      | _, _, _, _, _, _ => None
      end
  | _ => None
  end.

#[export] Instance utc_seconds : DateLib :=
  {| datetime := Z;
     fromisoformat := parse_utc_seconds;
     astimezone_utc := fun d => Some d |}.

#[export] Instance opaque_json : JsonLib :=
  {| json_value := unit;
     json_dumps := fun _ => "{}";
     json_loads := fun _ => Some tt |}.

(** Columns that store an amount and a JSON value as they come. *)
#[export] Instance plain_columns : PgLib :=
  {| numeric := decimal;
     jsonb := unit;
     to_numeric := fun d => Ok d;
     to_jsonb := fun j => Ok j |}.

(** 2025-09-01T00:00:00Z *)
Definition sample_now : Z := 1756684800000000.

(** The "ok" response of the mock client. *)
Definition tx_mock_001 : RawTransaction :=
  {| transactionId := Some "tx-mock-001";
     postedDate := Some "2025-08-30T12:15:00Z";
     tx_type := Some "Order";
     tx_amount := Some {| currencyCode := Some "USD";
                          amount_value := Some "19.99" |};
     marketplaceId := Some "ATVPDKIKX0DER";
     details := Some {| orderId := Some "903-1234567-1234567";
                        details_reason := None |} |}.

Definition tx_mock_002 : RawTransaction :=
  {| transactionId := Some "tx-mock-002";
     postedDate := Some "2025-08-30T13:40:00Z";
     tx_type := Some "Refund";
     tx_amount := Some {| currencyCode := Some "USD";
                          amount_value := Some "-5.00" |};
     marketplaceId := Some "ATVPDKIKX0DER";
     details := Some {| orderId := Some "903-1234567-1234567";
                        details_reason := Some "CustomerReturn" |} |}.

Definition mock_ok : ApiPayload :=
  {| transactions := Listed [tx_mock_001; tx_mock_002];
     nextToken := None; status := None; note := None |}.

Definition with_amount (tx : RawTransaction) (a : string) : RawTransaction :=
  {| transactionId := transactionId tx;
     postedDate := postedDate tx;
     tx_type := tx_type tx;
     tx_amount := Some {| currencyCode := Some "USD";
                          amount_value := Some a |};
     marketplaceId := marketplaceId tx;
     details := details tx |}.

Definition payload_of (txs : list RawTransaction) : ApiPayload :=
  {| transactions := Listed txs;
     nextToken := None; status := None; note := None |}.

(** A response whose body is [{"transactions": null}]. *)
Definition null_payload : ApiPayload :=
  {| transactions := Null;
     nextToken := None; status := None; note := None |}.

(** Normalized rows for the examples: identifier, posted date and
    currency code vary; the rest is fixed. *)
Definition sample_row (tid posted_date_raw currency : string) : Row :=
  {| transaction_id := Some tid;
     posted_date_raw := Some posted_date_raw;
     type := Some "Order";
     currency_code := Some currency;
     amount := Some (Finite false 1999 (-2));
     marketplace_id := Some "ATVPDKIKX0DER";
     order_id := None;
     reason := None;
     raw := "{}" |}.

(** One second after [sample_now], exactly [sample_now], and more than
    370 days before it. *)
Definition future_row : Row := sample_row "tx-1" "2025-09-01T00:00:01Z" "USD".

(** Two validated versions of the same transaction. *)
Definition first_write : ValidRow :=
  processed_row (sample_row "tx-1" "2025-08-30T12:15:00Z" "USD")
                1756556100000000.

Definition second_write : ValidRow :=
  {| v_transaction_id := Some "tx-1";
     v_type := Some "Refund";
     v_currency_code := Some "EUR";
     v_amount := Some (Finite true 500 (-2));
     v_marketplace_id := Some "A1PA6795UKMFR9";
     v_order_id := Some "903-1234567-1234567";
     v_reason := Some "CustomerReturn";
     v_raw := "{}";
     v_posted_date := 1756561200000000;
     v_posted_day := 20330 |}.

(** A batch with a repeated identifier and a record without one. *)
Definition no_id_row : Row :=
  {| transaction_id := None;
     posted_date_raw := Some "2025-08-30T12:15:00Z";
     type := Some "Order";
     currency_code := Some "USD";
     amount := None;
     marketplace_id := None;
     order_id := None;
     reason := None;
     raw := "{}" |}.


Definition duplicate_batch : list Row :=
  [sample_row "tx-1" "2025-08-30T12:15:00Z" "USD";
   sample_row "tx-1" "2025-08-30T13:40:00Z" "EUR";
   no_id_row;
   sample_row "tx-2" "2025-08-30T13:40:00Z" "USD"].

(** The mock refund with the amount string "NaN". *)
Definition nan_refund_payload : ApiPayload :=
  payload_of [with_amount tx_mock_002 "NaN"].

(** Simulated responses: the [k]-th GET answers with the [k]-th element
    of the list, every token exchange returns a token, [float] reads
    nothing and [time.sleep] always returns. *)
Definition response_with (status : Z) (payload : ApiPayload) : Response :=
  {| status_code := status;
     retry_after := None;
     content_length := 0;
     json := Ok payload |}.

Definition scripted (responses : list Response) : Env :=
  {| requests_available := true;
     lwa_credentials := true;
     lwa_post := fun k => if Nat.eqb k 0 then Ok "token-0" else Ok "token-1";
     http_get := fun k =>
       match responses !! k with
       | Some r => Ok r
       | None => Raise RequestException
       end;
     py_float := fun _ => Raise ValueError;
     time_sleep := fun _ => Ok tt |}.

Definition empty_payload : ApiPayload :=
  {| transactions := Listed []; nextToken := None;
     status := None; note := None |}.

Definition unauthorized_then_ok : Env :=
  scripted [response_with 401 empty_payload; response_with 200 mock_ok].


Definition always_500 : Env :=
  scripted (repeat (response_with 500 empty_payload) 10).

(** A 429 whose Retry-After value is an HTTP date. *)
Definition throttled_with_date : Env :=
  scripted [{| status_code := 429;
               retry_after := Some "Wed, 21 Oct 2015 07:28:00 GMT";
               content_length := 0;
               json := Ok empty_payload |};
            response_with 200 mock_ok].

Definition sample_base_url : string := "https://sellingpartnerapi-na.amazon.com".

End Sample.


(** ** src/validator.py: validate_and_report *)

Module Report.
Import Validator.

(** What the function writes, in order: one constructor per [print] and
    per logger call of the source (and of [log_validation_results] in
    src/logger.py), with the interpolated values as arguments. *)
Inductive output : Type :=
| LogStarted
| PrintTitle
| LogNormalized (n : nat)
| LogValidation (total valid invalid n_warnings : nat)
| LogValidationError (e : error)
| LogValidationWarning (w : warning)
| PrintWarningsTitle
| PrintWarning (w : warning)
| PrintErrorsTitle
| PrintError (e : error)
| PrintSummary (n_rows valid invalid : nat)
| LogCompleted (valid n_rows : nat).

Definition str_of_nat (n : nat) : string :=
  NilEmpty.string_of_uint (Nat.to_uint n).

Definition o_acute : string := String "243"%char "".
Definition O_acute : string := String "211"%char "".

(** The text of each line or log message. *)
Definition render_output (o : output) : string :=
  match o with
  | LogStarted => "Iniciando validaci" +:+ o_acute +:+ "n de transacciones"
  | PrintTitle => "=== VALIDACI" +:+ O_acute +:+ "N ==="
  | LogNormalized n => "Transacciones normalizadas: " +:+ str_of_nat n
  | LogValidation total valid invalid n_warnings =>
      "VALIDATION | Total: " +:+ str_of_nat total
      +:+ " | V" +:+ a_acute +:+ "lidas: " +:+ str_of_nat valid
      +:+ " | Inv" +:+ a_acute +:+ "lidas: " +:+ str_of_nat invalid
      +:+ " | Warnings: " +:+ str_of_nat n_warnings
  | LogValidationError e => "VALIDATION_ERROR | " +:+ render_error e
  | LogValidationWarning w => "VALIDATION_WARNING | " +:+ render_warning w
  | PrintWarningsTitle => "WARNINGS:"
  | PrintWarning w => " - " +:+ render_warning w
  | PrintErrorsTitle => "ERRORES:"
  | PrintError e => " - " +:+ render_error e
  | PrintSummary n_rows valid invalid =>
      "Filas en payload: " +:+ str_of_nat n_rows
      +:+ " | V" +:+ a_acute +:+ "lidas: " +:+ str_of_nat valid
      +:+ " | Inv" +:+ a_acute +:+ "lidas: " +:+ str_of_nat invalid
  | LogCompleted valid n_rows =>
      "Validaci" +:+ o_acute +:+ "n completada: " +:+ str_of_nat valid
      +:+ "/" +:+ str_of_nat n_rows +:+ " v" +:+ a_acute +:+ "lidas"
  end.

(** src/logger.py, [log_validation_results]: the totals, then one record
    per error, then one per warning. *)
Definition log_validation_results (total valid : nat) (errors : list error)
    (warnings : list warning) : list output :=
  (LogValidation total valid (length errors) (length warnings)
   :: map LogValidationError errors ++ map LogValidationWarning warnings)%list.

(** [if items: print(title); for x in items: print(f" - {x}")] *)
Definition print_section {A} (title : output) (item : A -> output)
    (items : list A) : list output :=
  match items with
  | [] => []
  | _ => title :: map item items
  end.

(** [validate_and_report]: the returned pair, or the exception that
    escapes, with what was written until then. [now] is the clock value
    that [validate_transactions] reads; [get_logger()] returns the process
    logger. The statements after the first [return] are never run. *)
Definition validate_and_report `{JsonLib} `{DateLib} (now : Z)
    (api_payload : ApiPayload)
  : result (list ValidRow * bool) * list output :=
  let out := [LogStarted; PrintTitle] in
  match normalize_transactions api_payload with
  | Raise e => (Raise e, out)
  | Ok normalized =>
      let out := (out ++ [LogNormalized (length normalized)])%list in
      match validate_transactions now normalized with
      | Raise e => (Raise e, out)
      | Ok (valid, errs, warns) =>
          (Ok (valid, (0 <? length errs)%nat),
           (out
            ++ log_validation_results (length normalized) (length valid)
                 errs warns
            ++ print_section PrintWarningsTitle PrintWarning warns
            ++ print_section PrintErrorsTitle PrintError errs
            ++ [PrintSummary (length normalized) (length valid)
                  (length errs);
                LogCompleted (length valid) (length normalized)])%list)
      end
  end.

(** *** Vocabulary for statements about the records of a batch *)

(** The record passes every rule that follows the identifier rules, with
    [t] its parsed timestamp, and the refund check returns. *)
Definition accepted `{DateLib} (now : Z) (row : Row) (t : Z) : Prop :=
  (exists raw, present (posted_date_raw row) = Some raw
               /\ _parse_iso_z raw = Some t)
  /\ t <= now
  /\ (forall c, present (currency_code row) = Some c ->
                ISO_4217_RE_match c = true)
  /\ ~ nan_refund row.

(** The record fails the date rules or the currency rule. *)
Definition rejected_after_id `{DateLib} (now : Z) (row : Row) : Prop :=
  present (posted_date_raw row) = None
  \/ exists raw, present (posted_date_raw row) = Some raw
       /\ (_parse_iso_z raw = None
           \/ exists t, _parse_iso_z raw = Some t
                /\ (now < t
                    \/ exists c, present (currency_code row) = Some c
                                 /\ ISO_4217_RE_match c = false)).

Definition warning_index (w : warning) : nat :=
  match w with
  | PostedDateVeryOld i _ _ => i
  | RefundPositiveAmount i _ _ => i
  end.

End Report.


(** ** src/database.py: get_saved_transactions *)

Module Queries.
Import Validator Database.

Section Store.
Context `{PgLib}.

(** One row of the result: the select list, in its order. *)
Record SavedRow : Type := {
  r_transaction_id : string;
  r_type : option string;
  r_amount : option numeric;
  r_currency_code : option string;
  r_posted_date : Z;
  r_posted_day : Z;
  r_order_id : option string;
  r_reason : option string
}.

Definition select_columns (kv : string * StoredRow) : SavedRow :=
  {| r_transaction_id := kv.1;
     r_type := s_type kv.2;
     r_amount := s_amount kv.2;
     r_currency_code := s_currency_code kv.2;
     r_posted_date := posted_date kv.2;
     r_posted_day := posted_day kv.2;
     r_order_id := s_order_id kv.2;
     r_reason := s_reason kv.2 |}.

(** [ORDER BY posted_date] *)
Definition by_posted_date (a b : string * StoredRow) : Prop :=
  posted_date a.2 <= posted_date b.2.

Definition by_posted_date_dec (a b : string * StoredRow)
  : Decision (by_posted_date a b) :=
  Z_le_dec (posted_date a.2) (posted_date b.2).

(** The identifiers as query parameters: each one is sent as text. *)
Fixpoint adapt_ids (ids : list string) : result (list string) :=
  match ids with
  | [] => Ok []
  | tid :: rest =>
      bind (to_text tid) (fun t =>
      bind (adapt_ids rest) (fun ts => Ok (t :: ts)))
  end.

(** [SELECT ... WHERE transaction_id IN %s ORDER BY posted_date] on the
    table that [save_transactions] writes. Rows with equal [posted_date]
    come in an order that the database chooses; the sort used here fixes
    one such order. *)
Definition select_by_ids (ids : list string) (tbl : table)
  : list (string * StoredRow) :=
  @merge_sort _ by_posted_date by_posted_date_dec
    (filter (fun kv => kv.1 ∈ ids) (map_to_list tbl)).

(** [get_saved_transactions]: no connection is made for an empty list;
    otherwise [opens] says whether the connection of this call opens. *)
Definition get_saved_transactions (opens : bool)
    (transaction_ids : list string) (tbl : table)
  : result (list SavedRow) :=
  match transaction_ids with
  | [] => Ok []
  | _ =>
      bind (get_connection opens) (fun _ =>
      bind (adapt_ids transaction_ids) (fun ids =>
      Ok (map select_columns (select_by_ids ids tbl))))
  end.

(** *** Vocabulary for statements about a stored batch *)

(** The raw text of the row loads and the columns accept its values. *)
Definition storable (tx : ValidRow) : Prop :=
  forall tid, v_transaction_id tx = Some tid ->
    exists rw ex, json_loads (v_raw tx) = Some rw
                  /\ adapt (values_of tid tx rw) = Ok ex.

(** The stored row holds the values of [tx], column by column. *)
Definition holds_values (row : StoredRow) (tx : ValidRow) : Prop :=
  posted_date row = v_posted_date tx
  /\ posted_day row = v_posted_day tx
  /\ s_type row = v_type tx
  /\ s_currency_code row = v_currency_code tx
  /\ opt_result to_numeric (v_amount tx) = Ok (s_amount row)
  /\ s_marketplace_id row = v_marketplace_id tx
  /\ s_order_id row = v_order_id tx
  /\ s_reason row = v_reason tx
  /\ exists rw, json_loads (v_raw tx) = Some rw
                /\ to_jsonb rw = Ok (s_raw row).

(** Two stored rows agree on every column but [updated_at]. *)
Definition same_but_updated_at (a b : StoredRow) : Prop :=
  posted_date a = posted_date b
  /\ posted_day a = posted_day b
  /\ s_type a = s_type b
  /\ s_currency_code a = s_currency_code b
  /\ s_amount a = s_amount b
  /\ s_marketplace_id a = s_marketplace_id b
  /\ s_order_id a = s_order_id b
  /\ s_reason a = s_reason b
  /\ s_raw a = s_raw b
  /\ created_at a = created_at b.

End Store.
End Queries.


(** ** src/spapi_client.py: vocabulary for the waits of a call *)

Module Waits.
Import Validator Client.

Definition is_sleep (ev : event) : bool :=
  match ev with Sleep _ => true | _ => false end.

(** The value of [backoff] after [n] waits: 1.0, doubled [n] times with
    [min(backoff * 2, 60)]. *)
Fixpoint backoff_after (n : nat) : Z :=
  match n with
  | O => 1
  | S n' => Z.min (backoff_after n' * 2) 60
  end.

(** Where a wait comes from, given the events [pre] that precede it: the
    response to the last request sent, which is a 429 or a 5xx, and the
    value of [backoff] after the waits made so far, unless a 429 names
    its own delay. *)
Definition wait_from (E : Env) (pre : list event) (w : pyfloat) : Prop :=
  exists resp,
    http_get E (count is_http_get pre - 1) = Ok resp
    /\ ((status_code resp = 429
         /\ match present (retry_after resp) with
            | Some s => py_float E s = Ok w
            | None => w = as_float (backoff_after (count is_sleep pre))
            end)
        \/ (500 <= status_code resp < 600
            /\ w = as_float (backoff_after (count is_sleep pre)))).

End Waits.


(** ** src/spapi_client.py: the base URL and the mock client *)

Module Mock.
Import Validator Client Sample.

(** [SPAPI_REGIONS] and [SPAPI_ENDPOINTS] of src/config.py, in their
    order. *)
Definition SPAPI_REGIONS : list (string * string) :=
  [("na", "-na.amazon.com"); ("eu", "-eu.amazon.com");
   ("fe", "-fe.amazon.com")].

Definition SPAPI_ENDPOINTS : list (string * string) :=
  [("production", "sellingpartnerapi");
   ("sandbox", "sandbox.sellingpartnerapi")].

(** [d[key]]: KeyError for a key that the dict does not hold. *)
Fixpoint getitem (d : list (string * string)) (key : string)
  : result string :=
  match d with
  | [] => Raise KeyError
  | (k, v) :: rest => if String.eqb k key then Ok v else getitem rest key
  end.

(** [SPAPIClient._build_base_url], which the constructor calls. *)
Definition _build_base_url (region : string) (sandbox : bool)
  : result string :=
  let env := if sandbox then "sandbox" else "production" in
  bind (getitem SPAPI_ENDPOINTS env) (fun host =>
  bind (getitem SPAPI_REGIONS region) (fun suffix =>
  Ok ("https://" +:+ host +:+ suffix))).

(** What the mock client writes and does: one constructor per [_log]
    line, with the interpolated values, and the waits. *)
Inductive mock_event : Type :=
| Print401 (attempts : nat)
| Print429 (attempts : nat) (backoff : Z)
| PrintOk (attempts : nat) (n_transactions : nat)
| PrintEmpty (attempts : nat)
| MockSleep (w : pyfloat).

Definition i_acute : string := String "237"%char "".

Definition digits_of_nat (n : nat) : string :=
  NilEmpty.string_of_uint (Nat.to_uint n).

(** The printed lines; [backoff] holds a whole number of seconds, which
    [:.1f] writes with one zero after the point. *)
Definition render_mock (ev : mock_event) : option string :=
  match ev with
  | Print401 a =>
      Some ("[MOCK] Intento " +:+ digits_of_nat a
            +:+ ": 401 (token expirado). Renovando...")
  | Print429 a b =>
      Some ("[MOCK] Intento " +:+ digits_of_nat a
            +:+ ": 429 (throttling). Esperando "
            +:+ digits_of_nat (Z.to_nat b) +:+ ".0s...")
  | PrintOk a n =>
      Some ("[MOCK] Intento " +:+ digits_of_nat a +:+ ": OK con "
            +:+ digits_of_nat n +:+ " transacciones")
  | PrintEmpty a =>
      Some ("[MOCK] Intento " +:+ digits_of_nat a +:+ ": OK vac"
            +:+ i_acute +:+ "o (sin transacciones)")
  | MockSleep _ => None
  end.

(** The float that the literal [0.1] denotes. *)
Definition tenth : pyfloat :=
  Fin (3602879701896397 # 36028797018963968).

(** The local variables of the loop. *)
Record mock_state : Type := {
  attempts : nat;
  mock_backoff : Z;
  remaining_401 : nat;
  remaining_429 : nat
}.

Definition is_mock_sleep (ev : mock_event) : bool :=
  match ev with MockSleep _ => true | _ => false end.

(** [while attempts < max_retries]: one iteration per remaining attempt;
    leaving the loop raises the RuntimeError of the last line. *)
Fixpoint mock_loop (scenario : string) (st : mock_state) (remaining : nat)
    (out : list mock_event) : result ApiPayload * list mock_event :=
  match remaining with
  | O => (Raise RuntimeError, out)
  | S remaining' =>
      let attempts := S (attempts st) in
      if (0 <? remaining_401 st)%nat then
        mock_loop scenario
          {| attempts := attempts;
             mock_backoff := mock_backoff st;
             remaining_401 := (remaining_401 st - 1)%nat;
             remaining_429 := remaining_429 st |}
          remaining'
          (out ++ [Print401 attempts; MockSleep tenth])%list
      else if (0 <? remaining_429 st)%nat then
        mock_loop scenario
          {| attempts := attempts;
             mock_backoff := Z.min (mock_backoff st * 2) 60;
             remaining_401 := remaining_401 st;
             remaining_429 := (remaining_429 st - 1)%nat |}
          remaining'
          (out ++ [Print429 attempts (mock_backoff st);
                   MockSleep (as_float (mock_backoff st))])%list
      else if String.eqb scenario "ok" || String.eqb scenario "401"
              || String.eqb scenario "429" then
        (Ok mock_ok,
         (out ++ [PrintOk attempts
                    (length (default [] (get_transactions mock_ok)))])%list)
      else if String.eqb scenario "empty" then
        (Ok empty_payload, (out ++ [PrintEmpty attempts])%list)
      else (Raise ValueError, out)
  end.

(** [MockSPAPIClient.list_transactions_mock] *)
Definition list_transactions_mock `{DateLib} (posted_after scenario : string)
    (max_retries : Z) : result ApiPayload * list mock_event :=
  match fromisoformat (replace_Z posted_after) with
  | None => (Raise ValueError, [])
  | Some _ =>
      mock_loop scenario
        {| attempts := 0;
           mock_backoff := 1;
           remaining_401 := if String.eqb scenario "401" then 1 else 0;
           remaining_429 := if String.eqb scenario "429" then 2 else 0 |}
        (Z.to_nat max_retries) []
  end.

End Mock.


(** ** More sample data *)

Module Cases.
Import Validator Database Client Sample.

(** Exactly 371 days before [sample_now], and one second less. *)
Definition day_371_row : Row := sample_row "tx-1" "2024-08-26T00:00:00Z" "USD".
Definition day_370_row : Row := sample_row "tx-1" "2024-08-26T00:00:01Z" "USD".

(** A refund of +5.00 whose type is written in capitals. *)
Definition positive_refund_row : Row :=
  {| transaction_id := Some "tx-r";
     posted_date_raw := Some "2025-08-30T13:40:00Z";
     type := Some "REFUND";
     currency_code := Some "USD";
     amount := Some (Finite false 500 (-2));
     marketplace_id := None;
     order_id := None;
     reason := None;
     raw := "{}" |}.

(** The same refund, dated thirteen months before [sample_now]
    (2024-08-01T00:00:00Z). *)
Definition old_positive_refund_row : Row :=
  {| transaction_id := Some "tx-r";
     posted_date_raw := Some "2024-08-01T00:00:00Z";
     type := Some "REFUND";
     currency_code := Some "USD";
     amount := Some (Finite false 500 (-2));
     marketplace_id := None;
     order_id := None;
     reason := None;
     raw := "{}" |}.

Definition old_positive_refund_warnings : list warning :=
  [PostedDateVeryOld 1 "tx-r" "2024-08-01T00:00:00Z";
   RefundPositiveAmount 1 "tx-r" (Finite false 500 (-2))].

(** The first "tx-1" is dated in the future; the second one is well
    formed. *)
Definition blocked_batch : list Row :=
  [future_row;
   sample_row "tx-1" "2025-08-30T12:15:00Z" "USD";
   sample_row "tx-2" "2025-08-30T13:40:00Z" "USD"].

(** Validated rows for the store: a second identifier, and a row without
    one. *)
Definition other_write : ValidRow :=
  processed_row (sample_row "tx-2" "2025-08-30T13:40:00Z" "USD")
                1756561200000000.

Definition no_id_write : ValidRow := processed_row no_id_row 1756556100000000.

Definition mixed_writes : list ValidRow :=
  [first_write; no_id_write; other_write].

(** The valid rows and the errors of [duplicate_batch]. *)
Definition duplicate_batch_valid : list ValidRow :=
  [processed_row (sample_row "tx-1" "2025-08-30T12:15:00Z" "USD")
     1756556100000000;
   processed_row (sample_row "tx-2" "2025-08-30T13:40:00Z" "USD")
     1756561200000000].

Definition duplicate_batch_errors : list error :=
  [DuplicateTransactionId 2 "tx-1"; MissingTransactionId 3].

(** Simulated worlds for the fetch client. *)
Definition no_credentials : Env :=
  {| requests_available := true;
     lwa_credentials := false;
     lwa_post := fun _ => Ok "token-0";
     http_get := fun _ => Raise RequestException;
     py_float := fun _ => Raise ValueError;
     time_sleep := fun _ => Ok tt |}.

Definition throttled_then_forbidden : Env :=
  scripted [response_with 429 empty_payload; response_with 403 empty_payload].

Definition server_error_then_ok : Env :=
  scripted [response_with 500 empty_payload; response_with 200 mock_ok].

(** A 429 that asks for 7 seconds, a 500, then the mock batch; [float]
    reads "7". *)
Definition throttled_for_7_seconds : Env :=
  {| requests_available := true;
     lwa_credentials := true;
     lwa_post := fun k => if Nat.eqb k 0 then Ok "token-0" else Ok "token-1";
     http_get := fun k =>
       match [ {| status_code := 429; retry_after := Some "7";
                  content_length := 0; json := Ok empty_payload |};
               response_with 500 empty_payload;
               response_with 200 mock_ok ] !! k with
       | Some r => Ok r
       | None => Raise RequestException
       end;
     py_float := fun s =>
       if String.eqb s "7" then Ok (Fin (inject_Z 7)) else Raise ValueError;
     time_sleep := fun _ => Ok tt |}.

End Cases.


(* ===================================================================== *)
(** * Part II: properties                                                 *)
(* ===================================================================== *)

(** ** The decimal library *)

Module DecFacts.

Lemma Decimal_cents : Decimal "0.01" = Ok (Finite false 1 (-2)).
Proof. reflexivity. Qed.

Lemma Decimal_zero : Decimal "0.00" = Ok (Finite false 0 (-2)).
Proof. reflexivity. Qed.

(** The string constructor raises nothing but InvalidOperation. *)
Lemma Decimal_raises s e : Decimal s = Raise e -> e = InvalidOperation.
Proof.
  unfold Decimal.
  destruct (parse_sign _) as [sign r].
  destruct (parse_finite sign r) as [d|].
  - destruct (in_exact_range d); congruence.
  - destruct (parse_special sign r) as [d|]; [|congruence].
    destruct (in_exact_range d); congruence.
Qed.

Lemma quantize_raises d q e : quantize d q = Raise e -> e = InvalidOperation.
Proof.
  destruct d as [s c x|s|s [|] p], q as [s' c' x'|s'|s' [|] p'];
    simpl; try congruence.
  repeat match goal with
         | |- context [if ?b then _ else _] => destruct b
         end; congruence.
Qed.

(** A value quantized to the exponent of 0.01 is finite with exponent -2,
    or it is a quiet NaN that went through unchanged. *)
Lemma quantize_cents_shape d q :
  quantize d (Finite false 1 (-2)) = Ok q ->
  two_fractional_digits q = true \/ exists s p, q = NaN s false p.
Proof.
  destruct d as [s c x|s|s [|] p]; simpl; try congruence.
  - repeat match goal with
           | |- context [if ?b then _ else _] => destruct b
           end; try congruence;
      intros [= <-]; left; reflexivity.
  - intros [= <-]. right. unfold fix_nan. eauto.
Qed.

(** The ordering raises exactly on a NaN operand. *)
Lemma gt_zero_raises a :
  (exists e, gt a (Finite false 0 (-2)) = Raise e) <->
  (exists s sig p, a = NaN s sig p).
Proof.
  split.
  - intros [e He]. destruct a; simpl in He; try congruence. eauto.
  - intros (s & sig & p & ->). exists InvalidOperation. reflexivity.
Qed.

End DecFacts.

(** ** The normalizer *)

Module NormalizerFacts.
Import Validator DecFacts.

(** The conversion, with the constant 0.01 evaluated. *)
Lemma normalize_amount_eq s :
  normalize_amount (Some s) =
  if String.eqb s "" then Ok None
  else match bind (Decimal s)
                  (fun x => quantize x (Finite false 1 (-2))) with
       | Ok q => Ok (Some q)
       | Raise InvalidOperation => Ok None
       | Raise ValueError => Ok None
       | Raise e => Raise e
       end.
Proof. reflexivity. Qed.

(** A missing or empty amount string is an absent amount. *)
Lemma normalize_amount_missing :
  normalize_amount None = Ok None /\ normalize_amount (Some "") = Ok None.
Proof. split; reflexivity. Qed.

(** An amount string that the constructor refuses is an absent amount. *)
Lemma normalize_amount_unparsable s e :
  Decimal s = Raise e -> normalize_amount (Some s) = Ok None.
Proof.
  intros He. pose proof (Decimal_raises _ _ He) as ->.
  rewrite normalize_amount_eq, He.
  destruct (String.eqb s ""); reflexivity.
Qed.

(** The conversion never raises. *)
Lemma normalize_amount_total a : exists r, normalize_amount a = Ok r.
Proof.
  destruct a as [s|]; [|simpl; eauto].
  rewrite normalize_amount_eq.
  destruct (String.eqb s ""); [eauto|].
  destruct (Decimal s) as [d|e] eqn:Hd; cbn [bind].
  - destruct (quantize d _) as [q|e] eqn:Hq; [eauto|].
    apply quantize_raises in Hq as ->. eauto.
  - apply Decimal_raises in Hd as ->. eauto.
Qed.

(** What a present amount can be: two fractional digits, or a quiet
    NaN. *)
Lemma normalize_amount_shape a d :
  normalize_amount a = Ok (Some d) ->
  two_fractional_digits d = true \/ exists s p, d = NaN s false p.
Proof.
  destruct a as [s|]; [|simpl; congruence].
  rewrite normalize_amount_eq.
  destruct (String.eqb s ""); [congruence|].
  destruct (Decimal s) as [x|e]; cbn [bind].
  - destruct (quantize x _) as [q|e] eqn:Hq.
    + intros [= <-]. eapply quantize_cents_shape; eauto.
    + destruct e; congruence.
  - destruct e; congruence.
Qed.

(** A present amount is never a default: it is the rounded value of the
    string that was given. *)
Lemma normalize_amount_present a d :
  normalize_amount a = Ok (Some d) ->
  exists s x, a = Some s /\ s <> "" /\ Decimal s = Ok x
              /\ quantize x (Finite false 1 (-2)) = Ok d.
Proof.
  destruct a as [s|]; [|simpl; congruence].
  rewrite normalize_amount_eq.
  destruct (String.eqb s "") eqn:Hs; [congruence|].
  apply String.eqb_neq in Hs.
  destruct (Decimal s) as [x|e] eqn:Hx; cbn [bind].
  - destruct (quantize x _) as [q|e] eqn:Hq.
    + intros [= <-]. eauto 10.
    + destruct e; congruence.
  - destruct e; congruence.
Qed.

Section WithJson.
Context `{JsonLib}.

Lemma normalize_row_total tx : exists row, normalize_row tx = Ok row.
Proof.
  unfold normalize_row.
  destruct (normalize_amount_total
              match tx_amount tx with
              | Some amount_obj => amount_value amount_obj
              | None => None
              end) as [r ->].
  simpl. eauto.
Qed.

(** normalize_transactions returns for every payload of the declared
    shape, one row per transaction. *)
Lemma normalize_rows_total txs :
  exists rows, normalize_rows txs = Ok rows /\ length rows = length txs.
Proof.
  induction txs as [|tx txs (rows & IH & Hlen)]; simpl; [eauto|].
  destruct (normalize_row_total tx) as [row ->]. rewrite IH. simpl.
  eexists; split; [reflexivity|]. simpl. congruence.
Qed.

Lemma normalize_rows_amount txs rows row d :
  normalize_rows txs = Ok rows -> In row rows -> amount row = Some d ->
  two_fractional_digits d = true \/ exists s p, d = NaN s false p.
Proof.
  revert rows. induction txs as [|tx txs IH]; simpl; intros rows.
  - intros [= <-] [].
  - unfold normalize_row at 1.
    destruct (normalize_amount _) as [a|e] eqn:Ha; simpl; [|congruence].
    destruct (normalize_rows txs) as [rs|e]; simpl; [|congruence].
    intros [= <-] [<-|Hin] Hd.
    + simpl in Hd. subst a. eapply normalize_amount_shape; eauto.
    + eapply IH; eauto.
Qed.

(** C4, evaluated at the failing input: the amount string "NaN" is
    neither missing nor refused by the constructor, and [quantize] lets a
    quiet NaN through, so the normalized record carries a present amount
    that is not rounded to two fractional digits. *)
Theorem C4_nan_amount_is_kept :
  exists row,
    normalize_transactions Sample.nan_refund_payload = Ok [row]
    /\ amount row = Some (NaN false false 0)
    /\ two_fractional_digits (NaN false false 0) = false.
Proof. eexists. split; [reflexivity|]. split; reflexivity. Qed.

End WithJson.

End NormalizerFacts.

(** ** The validator, one record at a time *)

Module ValidatorFacts.
Import Validator DecFacts.

Lemma present_Some v s : present v = Some s -> v = Some s /\ s <> "".
Proof.
  unfold present, truthy. destruct v as [x|]; [|congruence].
  destruct (String.eqb x "") eqn:Hx; simpl; [congruence|].
  intros [= ->]. split; [reflexivity|]. now apply String.eqb_neq.
Qed.

Lemma present_None v : present v = None <-> v = None \/ v = Some "".
Proof.
  unfold present, truthy. destruct v as [x|]; [|tauto].
  destruct (String.eqb x "") eqn:Hx; simpl.
  - apply String.eqb_eq in Hx as ->. tauto.
  - apply String.eqb_neq in Hx. split; [congruence|].
    intros [|[= ->]]; congruence.
Qed.

Lemma present_nonempty s : s <> "" -> present (Some s) = Some s.
Proof.
  intros Hs. unfold present, truthy.
  apply String.eqb_neq in Hs. now rewrite Hs.
Qed.




(** *** What the currency pattern accepts *)

Lemma is_upper_AZ_capital a : is_upper_AZ a = true <-> capital a.
Proof.
  unfold is_upper_AZ, capital, code.
  change (N_of_ascii "A") with 65%N. change (N_of_ascii "Z") with 90%N.
  rewrite andb_true_iff, !N.leb_le. tauto.
Qed.

Lemma three_capitals_length s : three_capitals s -> String.length s = 3%nat.
Proof. now intros (a & b & c & -> & _). Qed.

Lemma length_append_newline s :
  String.length (s +:+ newline) = S (String.length s).
Proof. induction s as [|a s IH]; simpl; [reflexivity|]. now rewrite IH. Qed.

Lemma currency_shape_length s :
  currency_shape s -> String.length s = 3%nat \/ String.length s = 4%nat.
Proof.
  intros [Hs|(s0 & Hs0 & ->)].
  - left. now apply three_capitals_length.
  - right. rewrite length_append_newline.
    now rewrite (three_capitals_length s0 Hs0).
Qed.

(** [ISO_4217_RE.match(s)] succeeds exactly on three capital letters and
    on three capital letters followed by one newline. *)
Lemma ISO_4217_RE_match_shape s :
  ISO_4217_RE_match s = true <-> currency_shape s.
Proof.
  destruct s as [|a [|b [|c [|d [|e s]]]]];
    try (split; [discriminate|];
         intros Hs; apply currency_shape_length in Hs; simpl in Hs; lia).
  - unfold ISO_4217_RE_match. cbn [list_ascii_of_string].
    rewrite !andb_true_iff, !is_upper_AZ_capital. split.
    + intros [[Ha Hb] Hc]. left. exists a, b, c. auto.
    + intros [(a' & b' & c' & [= -> -> ->] & Ha & Hb & Hc)
             |(s0 & Hs0 & Heq)]; [auto|].
      apply (f_equal String.length) in Heq.
      rewrite length_append_newline, (three_capitals_length s0 Hs0) in Heq.
      discriminate.
  - unfold ISO_4217_RE_match. cbn [list_ascii_of_string].
    rewrite !andb_true_iff, !is_upper_AZ_capital, Ascii.eqb_eq. split.
    + intros [[[Ha Hb] Hc] ->]. right.
      exists (String a (String b (String c ""))). split; [|reflexivity].
      exists a, b, c. auto.
    + intros [Hs|(s0 & (a' & b' & c' & -> & Ha & Hb & Hc) & Heq)].
      * apply three_capitals_length in Hs. discriminate.
      * injection Heq as -> -> -> ->. auto.
Qed.

(** *** The tail of the loop body *)

Lemma refund_warning_cases i tid row w :
  refund_warning i tid row = Ok w ->
  w = None \/ exists a, amount row = Some a /\ w = Some (RefundPositiveAmount i tid a).
Proof.
  unfold refund_warning. destruct (amount row) as [a|]; [|intros [= <-]; tauto].
  destruct (String.eqb _ "refund"); [|intros [= <-]; tauto].
  rewrite Decimal_zero. cbn [bind].
  destruct (gt a _) as [[|]|e]; cbn [bind]; try congruence;
    intros [= <-]; eauto.
Qed.

Lemma accept_row_Ok st i tid row t st' :
  accept_row st i tid row t = Ok st' ->
  seen_ids st' = seen_ids st
  /\ errors st' = errors st
  /\ valid_rows st' = (valid_rows st ++ [processed_row row t])%list
  /\ exists w, refund_warning i tid row = Ok w
               /\ warnings st' = (warnings st ++ option_list w)%list.
Proof.
  unfold accept_row. destruct (refund_warning i tid row) as [w|e]; cbn [bind];
    [|congruence].
  intros [= <-]. destruct w as [w|]; simpl; repeat split; eauto.
  exists None. split; [reflexivity|]. simpl. now rewrite app_nil_r.
Qed.

Lemma accept_row_of_warning st i tid row t w :
  refund_warning i tid row = Ok w ->
  exists st', accept_row st i tid row t = Ok st'
    /\ seen_ids st' = seen_ids st
    /\ errors st' = errors st
    /\ valid_rows st' = (valid_rows st ++ [processed_row row t])%list
    /\ warnings st' = (warnings st ++ option_list w)%list.
Proof.
  intros Hw. unfold accept_row. rewrite Hw. cbn [bind].
  eexists. split; [reflexivity|].
  destruct w; simpl; repeat split; try reflexivity.
  now rewrite app_nil_r.
Qed.

(** The tail raises exactly when the record is a refund whose amount is
    a NaN. *)
Lemma accept_row_raises st i tid row t :
  (exists e, accept_row st i tid row t = Raise e) <->
  (lower (default "" (present (type row))) = "refund"
   /\ exists s sig p, amount row = Some (NaN s sig p)).
Proof.
  unfold accept_row, refund_warning.
  destruct (amount row) as [a|]; cbn [bind].
  2:{ split; [intros [e He]; congruence|]. intros (_ & s & sig & p & ?).
      congruence. }
  destruct (String.eqb _ "refund") eqn:Hty.
  - apply String.eqb_eq in Hty. rewrite Decimal_zero. cbn [bind].
    split.
    + intros [e He]. split; [assumption|].
      destruct (gt a _) as [b|e'] eqn:Hgt; cbn [bind] in He; [congruence|].
      destruct (proj1 (gt_zero_raises a)) as (s & sig & p & ->); eauto.
    + intros (_ & s & sig & p & [= ->]). exists InvalidOperation. reflexivity.
  - apply String.eqb_neq in Hty. cbn [bind].
    split; [intros [e He]; congruence|]. intros [? _]. contradiction.
Qed.

Section WithDates.
Context `{DateLib}.

(** *** The head of the loop body *)

Lemma validate_row_missing_id now st i row :
  present (transaction_id row) = None ->
  validate_row now st i row = Ok (add_error st (MissingTransactionId i)).
Proof. intros Hp. unfold validate_row. now rewrite Hp. Qed.

Lemma validate_row_duplicate now st i row tid :
  present (transaction_id row) = Some tid -> tid ∈ seen_ids st ->
  validate_row now st i row = Ok (add_error st (DuplicateTransactionId i tid)).
Proof.
  intros Hp Hin. unfold validate_row. rewrite Hp.
  now rewrite bool_decide_eq_true_2.
Qed.

Lemma validate_row_missing_date now st i row tid :
  present (transaction_id row) = Some tid -> tid ∉ seen_ids st ->
  present (posted_date_raw row) = None ->
  validate_row now st i row
  = Ok (add_error (add_seen st tid) (MissingPostedDate i tid)).
Proof.
  intros Hp Hin Hd. unfold validate_row. rewrite Hp.
  rewrite bool_decide_eq_false_2 by assumption. now rewrite Hd.
Qed.

Lemma validate_row_bad_date now st i row tid raw :
  present (transaction_id row) = Some tid -> tid ∉ seen_ids st ->
  present (posted_date_raw row) = Some raw -> _parse_iso_z raw = None ->
  validate_row now st i row
  = Ok (add_error (add_seen st tid) (PostedDateNotIso i tid raw)).
Proof.
  intros Hp Hin Hd Hparse. unfold validate_row. rewrite Hp.
  rewrite bool_decide_eq_false_2 by assumption. now rewrite Hd, Hparse.
Qed.

Lemma validate_row_future now st i row tid raw t :
  present (transaction_id row) = Some tid -> tid ∉ seen_ids st ->
  present (posted_date_raw row) = Some raw -> _parse_iso_z raw = Some t ->
  now < t ->
  validate_row now st i row
  = Ok (add_error (add_seen st tid) (PostedDateInFuture i tid raw)).
Proof.
  intros Hp Hin Hd Hparse Hlt. unfold validate_row. rewrite Hp.
  rewrite bool_decide_eq_false_2 by assumption. rewrite Hd, Hparse.
  apply Z.ltb_lt in Hlt. now rewrite Hlt.
Qed.

Lemma validate_row_reaches_currency now st i row tid raw t :
  present (transaction_id row) = Some tid -> tid ∉ seen_ids st ->
  present (posted_date_raw row) = Some raw -> _parse_iso_z raw = Some t ->
  t <= now ->
  validate_row now st i row =
  match present (currency_code row) with
  | Some currency =>
      if negb (ISO_4217_RE_match currency)
      then Ok (add_error (at_currency_rule now st i tid raw t)
                 (InvalidCurrencyCode i tid currency))
      else accept_row (at_currency_rule now st i tid raw t) i tid row t
  | None => accept_row (at_currency_rule now st i tid raw t) i tid row t
  end.
Proof.
  intros Hp Hin Hd Hparse Hle. unfold validate_row. rewrite Hp.
  rewrite bool_decide_eq_false_2 by assumption. rewrite Hd, Hparse.
  assert ((now <? t) = false) as Hnf by (apply Z.ltb_ge; lia).
  rewrite Hnf.
  reflexivity.
Qed.

Lemma at_currency_rule_fields now st i tid raw t :
  seen_ids (at_currency_rule now st i tid raw t) = {[tid]} ∪ seen_ids st
  /\ errors (at_currency_rule now st i tid raw t) = errors st
  /\ valid_rows (at_currency_rule now st i tid raw t) = valid_rows st.
Proof. unfold at_currency_rule. destruct (370 <? _); simpl; auto. Qed.

(** *** The rules, one by one *)




End WithDates.
End ValidatorFacts.

(** ** The rules at concrete records *)

Module ValidatorExamples.
Import Validator ValidatorFacts Sample.

(** The sample batch of the mock client: two valid rows, no message. *)
Example sample_batch_is_valid :
  exists rows v1 v2,
    normalize_transactions mock_ok = Ok rows
    /\ validate_transactions sample_now rows = Ok ([v1; v2], [], []).
Proof. do 3 eexists. split; reflexivity. Qed.

(** The text of a message, as the source formats it. *)
Example duplicate_message_text :
  render_error (DuplicateTransactionId 2 "tx-1")
  = "item[2]:tx-1: transactionId duplicado en el batch".
Proof. reflexivity. Qed.

(** With [.match], the pattern lets one final newline through. *)
Example trailing_newline_matches :
  ISO_4217_RE_match (String.append "USD" (String "010"%char "")) = true
  /\ ISO_4217_RE_match "usd" = false
  /\ ISO_4217_RE_match "US" = false.
Proof. repeat split. Qed.





(** C3, evaluated at the failing input: the mock refund with the amount
    string "NaN" is normalized to a row whose amount is a NaN, and
    validating that one-row batch raises InvalidOperation from the
    comparison [amount > Decimal("0.00")] instead of returning a
    triple. *)
Theorem C3_nan_refund_raises :
  exists rows,
    normalize_transactions nan_refund_payload = Ok rows
    /\ validate_transactions sample_now rows = Raise InvalidOperation.
Proof. eexists. split; reflexivity. Qed.

End ValidatorExamples.

(** ** The validator over a whole batch *)

Module BatchFacts.
Import Validator Report ValidatorFacts.

Lemma bind_Ok {A} (r : result A) : bind r Ok = r.
Proof. now destruct r. Qed.

(** *** Positions in a batch extended by one record *)

Lemma some_id_snoc rows r tid :
  (exists k rk, (rows ++ [r])%list !! k = Some rk /\ id_of rk = Some tid)
  <-> (exists k rk, rows !! k = Some rk /\ id_of rk = Some tid)
      \/ id_of r = Some tid.
Proof.
  split.
  - intros (k & rk & Hk & Hid). apply lookup_snoc_Some in Hk as [[_ Hk]|[_ <-]];
      eauto.
  - intros [(k & rk & Hk & Hid)|Hid].
    + exists k, rk. split; [|assumption]. now apply lookup_app_l_Some.
    + exists (length rows), r. split; [|assumption].
      apply lookup_snoc_Some. auto.
Qed.

Lemma later_occurrence_snoc rows r j tid :
  later_occurrence (rows ++ [r]) j tid ->
  later_occurrence rows j tid
  \/ (j = length rows /\ id_of r = Some tid
      /\ exists k rk, rows !! k = Some rk /\ id_of rk = Some tid).
Proof.
  intros [(rj & Hj & Hid) (k & rk & Hlt & Hk & Hidk)].
  apply lookup_snoc_Some in Hj as [[Hjlt Hj]|[-> <-]].
  - left. split; [eauto|]. exists k, rk. repeat split; try assumption.
    apply lookup_snoc_Some in Hk as [[_ Hk]|[-> _]]; [assumption|lia].
  - right. repeat split; try assumption. exists k, rk. split; [|assumption].
    apply lookup_snoc_Some in Hk as [[_ Hk]|[-> _]]; [assumption|lia].
Qed.

Lemma later_occurrence_mono rows r j tid :
  later_occurrence rows j tid -> later_occurrence (rows ++ [r]) j tid.
Proof.
  intros [(rj & Hj & Hid) (k & rk & Hlt & Hk & Hidk)]. split.
  - exists rj. split; [now apply lookup_app_l_Some|assumption].
  - exists k, rk. repeat split; try assumption. now apply lookup_app_l_Some.
Qed.

(** A message list extended by one message that is not a duplicate
    message. *)
Lemma duplicate_only_later_snoc rows r (errs : list error) e :
  (forall e', e' ∈ errs -> is_duplicate_error e' = true ->
     exists j tid, e' = DuplicateTransactionId (S j) tid
                   /\ later_occurrence rows j tid) ->
  (is_duplicate_error e = true ->
     exists j tid, e = DuplicateTransactionId (S j) tid
                   /\ later_occurrence (rows ++ [r]) j tid) ->
  forall e', e' ∈ (errs ++ [e])%list -> is_duplicate_error e' = true ->
    exists j tid, e' = DuplicateTransactionId (S j) tid
                  /\ later_occurrence (rows ++ [r]) j tid.
Proof.
  intros Hold Hnew e' He' Hdup. apply elem_of_app in He' as [He'|He'].
  - destruct (Hold e' He' Hdup) as (j & tid & -> & Hl).
    exists j, tid. split; [reflexivity|]. now apply later_occurrence_mono.
  - apply list_elem_of_singleton in He' as ->. auto.
Qed.

Lemma later_occurrence_lt rows j tid :
  later_occurrence rows j tid -> (j < length rows)%nat.
Proof. intros [(rj & Hj & _) _]. eapply lookup_lt_Some; eauto. Qed.

Lemma first_occurrence_snoc rows r j tid :
  first_occurrence rows j tid -> first_occurrence (rows ++ [r]) j tid.
Proof.
  intros [(rj & Hj & Hid) Hfirst]. split.
  - exists rj. split; [now apply lookup_app_l_Some|assumption].
  - intros k rk Hlt Hk. apply (Hfirst k rk Hlt).
    apply lookup_snoc_Some in Hk as [[_ Hk]|[-> _]]; [assumption|].
    apply lookup_lt_Some in Hj. lia.
Qed.

Lemma first_occurrence_last rows r tid :
  id_of r = Some tid ->
  (forall k rk, rows !! k = Some rk -> id_of rk <> Some tid) ->
  first_occurrence (rows ++ [r]) (length rows) tid.
Proof.
  intros Hid Hfresh. split.
  - exists r. split; [|assumption]. apply lookup_snoc_Some. auto.
  - intros k rk Hlt Hk. apply (Hfresh k rk).
    apply lookup_snoc_Some in Hk as [[_ Hk]|[-> _]]; [assumption|lia].
Qed.

Section WithDates.
Context `{DateLib}.

(** *** The loop, unrolled from the end *)

Lemma validate_loop_app now st i l1 l2 :
  validate_loop now st i (l1 ++ l2)
  = bind (validate_loop now st i l1)
         (fun st' => validate_loop now st' (i + length l1) l2).
Proof.
  revert st i. induction l1 as [|r l1 IH]; intros st i; simpl.
  - now rewrite Nat.add_0_r.
  - destruct (validate_row now st i r) as [st'|e]; simpl; [|reflexivity].
    rewrite IH. now rewrite Nat.add_succ_comm.
Qed.

Lemma validate_loop_snoc now st i l r :
  validate_loop now st i (l ++ [r])
  = bind (validate_loop now st i l)
         (fun st' => validate_row now st' (i + length l) r).
Proof.
  rewrite validate_loop_app. destruct (validate_loop now st i l); simpl;
    [|reflexivity].
  apply bind_Ok.
Qed.

(** *** The four ways one iteration can end *)

Lemma validate_row_cases now st i row st' :
  validate_row now st i row = Ok st' ->
  (id_of row = None /\ st' = add_error st (MissingTransactionId i))
  \/ (exists tid, id_of row = Some tid /\ tid ∈ seen_ids st
                  /\ st' = add_error st (DuplicateTransactionId i tid))
  \/ (exists tid, id_of row = Some tid /\ (tid ∉ seen_ids st)
        /\ seen_ids st' = {[tid]} ∪ seen_ids st
        /\ ((exists e, error_index e = i
                       /\ is_duplicate_error e = false
                       /\ errors st' = (errors st ++ [e])%list
                       /\ valid_rows st' = valid_rows st)
            \/ (errors st' = errors st
                /\ exists t, valid_rows st'
                             = (valid_rows st ++ [processed_row row t])%list))).
Proof.
  unfold id_of.
  destruct (present (transaction_id row)) as [tid|] eqn:Hp.
  2:{ rewrite validate_row_missing_id by assumption. intros [= <-]. now left. }
  destruct (decide (tid ∈ seen_ids st)) as [Hin|Hin].
  { rewrite (validate_row_duplicate now st i row tid) by assumption.
    intros [= <-]. right; left. eauto. }
  intros Hrow. right; right. exists tid. do 2 (split; [auto|]).
  destruct (present (posted_date_raw row)) as [raw|] eqn:Hd.
  2:{ rewrite (validate_row_missing_date now st i row tid) in Hrow
        by assumption.
      injection Hrow as <-. split; [reflexivity|]. left.
      exists (MissingPostedDate i tid). repeat split; reflexivity. }
  destruct (_parse_iso_z raw) as [t|] eqn:Hparse.
  2:{ rewrite (validate_row_bad_date now st i row tid raw) in Hrow
        by assumption.
      injection Hrow as <-. split; [reflexivity|]. left.
      exists (PostedDateNotIso i tid raw). repeat split; reflexivity. }
  destruct (Z_lt_le_dec now t) as [Hlt|Hle].
  { rewrite (validate_row_future now st i row tid raw t) in Hrow
      by assumption.
    injection Hrow as <-. split; [reflexivity|]. left.
    exists (PostedDateInFuture i tid raw). repeat split; reflexivity. }
  rewrite (validate_row_reaches_currency now st i row tid raw t) in Hrow
    by assumption.
  destruct (at_currency_rule_fields now st i tid raw t) as (Hs & He & Hv).
  assert (forall st1, accept_row (at_currency_rule now st i tid raw t)
                        i tid row t = Ok st1 ->
            seen_ids st1 = {[tid]} ∪ seen_ids st
            /\ errors st1 = errors st
            /\ exists t0, valid_rows st1
                          = (valid_rows st ++ [processed_row row t0])%list)
    as Haccept.
  { intros st1 Hacc. apply accept_row_Ok in Hacc as (Hs1 & He1 & Hv1 & _).
    rewrite Hs1, He1, Hv1, Hs, He, Hv. eauto. }
  destruct (present (currency_code row)) as [c|].
  - destruct (ISO_4217_RE_match c); cbn [negb] in Hrow.
    + destruct (Haccept _ Hrow) as (? & ? & ?). auto.
    + injection Hrow as <-. simpl. split; [assumption|]. left.
      exists (InvalidCurrencyCode i tid c). rewrite He, Hv. auto.
  - destruct (Haccept _ Hrow) as (? & ? & ?). auto.
Qed.

(** *** The invariant of the loop *)

Lemma batch_inv_init : batch_inv [] init.
Proof.
  split; simpl.
  - intros tid. split; [set_solver|]. intros (k & rk & Hk & _).
    now rewrite lookup_nil in Hk.
  - constructor.
  - constructor.
  - constructor.
  - intros j tid Hlater. apply later_occurrence_lt in Hlater.
    simpl in Hlater. lia.
  - intros e He. inversion He.
  - intros v Hv. inversion Hv.
  - constructor.
  - intros j rj Hj. now rewrite lookup_nil in Hj.
Qed.

(** Appending an error with the index of the new record. *)
Lemma error_bound_snoc (rows : list Row) (r : Row) (errs : list error) e :
  Forall (fun e => (error_index e <= length rows)%nat) errs ->
  error_index e = S (length rows) ->
  Forall (fun e => (error_index e <= length (rows ++ [r]))%nat)
         (errs ++ [e]).
Proof.
  intros Hb He. rewrite length_app. simpl. apply Forall_app. split.
  - eapply Forall_impl; [exact Hb|]. simpl. intros; lia.
  - constructor; [lia|constructor].
Qed.

Lemma error_bound_keep (rows : list Row) (r : Row) (errs : list error) :
  Forall (fun e => (error_index e <= length rows)%nat) errs ->
  Forall (fun e => (error_index e <= length (rows ++ [r]))%nat) errs.
Proof.
  intros Hb. rewrite length_app. simpl.
  eapply Forall_impl; [exact Hb|]. simpl. intros; lia.
Qed.

Lemma error_order_snoc (rows : list Row) (errs : list error) e :
  Forall (fun e => (error_index e <= length rows)%nat) errs ->
  StronglySorted lt (map error_index errs) ->
  error_index e = S (length rows) ->
  StronglySorted lt (map error_index (errs ++ [e])).
Proof.
  intros Hb Hs He. rewrite map_app. simpl.
  apply StronglySorted_app_2; [|assumption|repeat constructor].
  intros x1 x2 Hx1 Hx2. apply list_elem_of_singleton in Hx2 as ->.
  apply list_elem_of_In, in_map_iff in Hx1 as (e1 & <- & He1).
  rewrite Forall_forall in Hb. apply list_elem_of_In in He1.
  specialize (Hb e1 He1). simpl in Hb. lia.
Qed.

(** The messages about an earlier position are not touched by a message
    with the index of the new record. *)
Lemma duplicate_kept (rows : list Row) (errs : list error) e j tid :
  Forall (fun e => (error_index e <= length rows)%nat) errs ->
  error_index e = S (length rows) ->
  (j < length rows)%nat ->
  (DuplicateTransactionId (S j) tid ∈ errs
   /\ forall e', e' ∈ errs -> error_index e' = S j ->
                 e' = DuplicateTransactionId (S j) tid) ->
  DuplicateTransactionId (S j) tid ∈ (errs ++ [e])%list
  /\ forall e', e' ∈ (errs ++ [e])%list -> error_index e' = S j ->
                e' = DuplicateTransactionId (S j) tid.
Proof.
  intros Hb He Hj [Hin Honly]. split.
  - apply elem_of_app. now left.
  - intros e' He' Hidx. apply elem_of_app in He' as [He'|He'].
    + now apply Honly.
    + apply list_elem_of_singleton in He' as ->. lia.
Qed.

(** A valid row carries the identifier of a record of the batch, and
    that identifier has been seen. *)
Lemma valid_id_seen rows st v :
  batch_inv rows st -> v ∈ valid_rows st ->
  exists tid, v_transaction_id v = Some tid /\ tid ∈ seen_ids st.
Proof.
  intros Hinv Hv.
  destruct (inv_valid_first _ _ Hinv v Hv)
    as (j & rj & tid & t & Hj & [(rj' & Hj' & Hid) _] & ->).
  assert (rj' = rj) as -> by congruence.
  exists tid. split.
  - simpl. unfold id_of in Hid. now apply present_Some in Hid as [-> _].
  - apply (inv_seen _ _ Hinv). eauto.
Qed.

(** A valid row that stems from a first occurrence still does once the
    batch is extended. *)
Lemma valid_first_snoc rows st r v :
  batch_inv rows st -> v ∈ valid_rows st ->
  exists j rj tid t,
    (rows ++ [r])%list !! j = Some rj
    /\ first_occurrence (rows ++ [r]) j tid
    /\ v = processed_row rj t.
Proof.
  intros Hinv Hv.
  destruct (inv_valid_first _ _ Hinv v Hv)
    as (j & rj & tid & t & Hj & Hfirst & ->).
  exists j, rj, tid, t. split; [now apply lookup_app_l_Some|].
  split; [now apply first_occurrence_snoc|reflexivity].
Qed.

Lemma batch_inv_step now rows st r st' :
  batch_inv rows st ->
  validate_row now st (S (length rows)) r = Ok st' ->
  batch_inv (rows ++ [r]) st'.
Proof.
  intros Hinv Hrow.
  pose proof (inv_error_bound _ _ Hinv) as Hbound.
  pose proof (inv_error_order _ _ Hinv) as Hsorted.
  apply validate_row_cases in Hrow
    as [[Hid ->]
       |[(tid & Hid & Hseen & ->)
        |(tid & Hid & Hfresh & Hs & Hout)]].
  - (* no identifier *)
    split; simpl.
    + intros tid. rewrite (inv_seen _ _ Hinv), some_id_snoc.
      split; [auto|]. intros [?|?]; [assumption|congruence].
    + now apply error_bound_snoc.
    + now apply (error_order_snoc rows).
    + rewrite map_app. apply sublist_inserts_r, (inv_valid_order _ _ Hinv).
    + intros j tid Hlater.
      apply later_occurrence_snoc in Hlater as [Hlater|(_ & ? & _)];
        [|congruence].
      apply (duplicate_kept rows); auto.
      * now apply later_occurrence_lt in Hlater.
      * now apply (inv_duplicate _ _ Hinv).
    + apply duplicate_only_later_snoc;
        [apply (inv_duplicate_only_later _ _ Hinv)|discriminate].
    + intros v Hv. now apply (valid_first_snoc rows st).
    + apply (inv_valid_nodup _ _ Hinv).
    + intros j rj Hj Hnone. apply elem_of_app.
      apply lookup_snoc_Some in Hj as [[_ Hj]|[-> _]].
      * left. eapply (inv_missing _ _ Hinv); eauto.
      * right. now apply list_elem_of_singleton.
  - (* identifier already seen *)
    split; simpl.
    + intros tid'. rewrite (inv_seen _ _ Hinv), some_id_snoc.
      split; [auto|]. intros [?|Hid']; [assumption|].
      assert (tid' = tid) as -> by congruence.
      now apply (inv_seen _ _ Hinv).
    + now apply error_bound_snoc.
    + now apply (error_order_snoc rows).
    + rewrite map_app. apply sublist_inserts_r, (inv_valid_order _ _ Hinv).
    + intros j tid' Hlater.
      apply later_occurrence_snoc in Hlater as [Hlater|(-> & Hid' & _)].
      * apply (duplicate_kept rows); auto.
        -- now apply later_occurrence_lt in Hlater.
        -- now apply (inv_duplicate _ _ Hinv).
      * assert (tid' = tid) as -> by congruence. split.
        -- apply elem_of_app. right. now apply list_elem_of_singleton.
        -- intros e He Hidx. apply elem_of_app in He as [He|He].
           ++ rewrite Forall_forall in Hbound. specialize (Hbound e He).
              simpl in Hbound. lia.
           ++ now apply list_elem_of_singleton in He.
    + apply duplicate_only_later_snoc;
        [apply (inv_duplicate_only_later _ _ Hinv)|].
      intros _. exists (length rows), tid. split; [reflexivity|].
      apply (inv_seen _ _ Hinv) in Hseen as (k & rk & Hk & Hidk). split.
      * exists r. split; [apply lookup_snoc_Some; auto|assumption].
      * exists k, rk. split; [eapply lookup_lt_Some; eauto|].
        split; [now apply lookup_app_l_Some|assumption].
    + intros v Hv. now apply (valid_first_snoc rows st).
    + apply (inv_valid_nodup _ _ Hinv).
    + intros j rj Hj Hnone. apply elem_of_app. left.
      apply lookup_snoc_Some in Hj as [[_ Hj]|[_ <-]]; [|congruence].
      eapply (inv_missing _ _ Hinv); eauto.
  - (* a new identifier *)
    assert (forall k rk, rows !! k = Some rk -> id_of rk <> Some tid)
      as Hnew.
    { intros k rk Hk Hidk. apply Hfresh, (inv_seen _ _ Hinv). eauto. }
    assert (forall tid', tid' ∈ seen_ids st' <->
              exists k rk, (rows ++ [r])%list !! k = Some rk
                           /\ id_of rk = Some tid') as Hseen'.
    { intros tid'. rewrite Hs, some_id_snoc, elem_of_union,
        elem_of_singleton, (inv_seen _ _ Hinv).
      split; intros [?|?]; auto; [subst; auto|left; congruence]. }
    assert (forall j tid',
              later_occurrence (rows ++ [r]) j tid' ->
              later_occurrence rows j tid') as Hlater'.
    { intros j tid' Hl.
      apply later_occurrence_snoc in Hl
        as [?|(_ & Hid' & k & rk & Hk & Hidk)]; [assumption|].
      exfalso. apply (Hnew k rk Hk). congruence. }
    assert (forall j rj, (rows ++ [r])%list !! j = Some rj ->
              id_of rj = None -> MissingTransactionId (S j) ∈ errors st)
      as Hmissing'.
    { intros j rj Hj Hnone.
      apply lookup_snoc_Some in Hj as [[_ Hj]|[_ <-]]; [|congruence].
      eapply (inv_missing _ _ Hinv); eauto. }
    assert (forall v, v ∈ valid_rows st ->
              exists j rj tid' t,
                (rows ++ [r])%list !! j = Some rj
                /\ first_occurrence (rows ++ [r]) j tid'
                /\ v = processed_row rj t) as Hfirst'.
    { intros v Hv. now apply (valid_first_snoc rows st). }
    destruct Hout as [(e & Hidx & Hnodup & He & Hv)|(He & t & Hv)].
    + (* rejected by a later rule *)
      split; try assumption.
      * rewrite He. now apply error_bound_snoc.
      * rewrite He. now apply (error_order_snoc rows).
      * rewrite Hv, map_app.
        apply sublist_inserts_r, (inv_valid_order _ _ Hinv).
      * intros j tid' Hl. apply Hlater' in Hl. rewrite He.
        apply (duplicate_kept rows); auto.
        -- now apply later_occurrence_lt in Hl.
        -- now apply (inv_duplicate _ _ Hinv).
      * rewrite He. apply duplicate_only_later_snoc;
          [apply (inv_duplicate_only_later _ _ Hinv)|congruence].
      * rewrite Hv. assumption.
      * rewrite Hv. apply (inv_valid_nodup _ _ Hinv).
      * intros j rj Hj Hnone. rewrite He. apply elem_of_app. left. eauto.
    + (* accepted *)
      split; try assumption.
      * rewrite He. now apply error_bound_keep.
      * rewrite He. apply (inv_error_order _ _ Hinv).
      * rewrite Hv, !map_app. apply sublist_app;
          [apply (inv_valid_order _ _ Hinv)|reflexivity].
      * intros j tid' Hl. apply Hlater' in Hl. rewrite He.
        now apply (inv_duplicate _ _ Hinv).
      * rewrite He. intros e He' Hdup.
        destruct (inv_duplicate_only_later _ _ Hinv e He' Hdup)
          as (j & tid' & -> & Hl).
        exists j, tid'. split; [reflexivity|].
        now apply later_occurrence_mono.
      * rewrite Hv. intros v Hin. apply elem_of_app in Hin as [Hin|Hin];
          [auto|].
        apply list_elem_of_singleton in Hin as ->.
        exists (length rows), r, tid, t. repeat split.
        -- apply lookup_snoc_Some. auto.
        -- exists r. split; [apply lookup_snoc_Some; auto|assumption].
        -- intros k rk Hlt Hk. apply (Hnew k rk).
           apply lookup_snoc_Some in Hk as [[_ Hk]|[-> _]]; [assumption|lia].
      * rewrite Hv, map_app. apply NoDup_app.
        split; [apply (inv_valid_nodup _ _ Hinv)|].
        split; [|repeat constructor; set_solver].
        intros x Hx Hx'. apply list_elem_of_singleton in Hx'. simpl in Hx'.
        apply list_elem_of_In, in_map_iff in Hx as (v & <- & Hin).
        apply list_elem_of_In in Hin.
        destruct (valid_id_seen rows st v Hinv Hin) as (tid' & Hvid & Hin').
        apply Hfresh.
        unfold id_of in Hid. apply present_Some in Hid as [Hid _].
        assert (tid' = tid) as <- by congruence. assumption.
      * intros j rj Hj Hnone. rewrite He. eauto.
Qed.

Lemma validate_loop_inv now rows st :
  validate_loop now init 1 rows = Ok st -> batch_inv rows st.
Proof.
  revert st. induction rows as [|r rows IH] using rev_ind; intros st.
  - intros [= <-]. apply batch_inv_init.
  - rewrite validate_loop_snoc.
    destruct (validate_loop now init 1 rows) as [st0|e]; simpl; [|congruence].
    intros Hrow. eapply batch_inv_step; eauto.
Qed.

(** *** When the validator returns *)

(** One iteration raises only on a refund whose amount is a NaN. *)
Lemma validate_row_total now st i row :
  ~ nan_refund row -> exists st', validate_row now st i row = Ok st'.
Proof.
  intros Hnan.
  assert (forall st1 tid t, exists st', accept_row st1 i tid row t = Ok st')
    as Haccept.
  { intros st1 tid t. destruct (accept_row st1 i tid row t) as [st'|e] eqn:Ha;
      [eauto|].
    exfalso. apply Hnan. apply (accept_row_raises st1 i tid row t). eauto. }
  unfold validate_row.
  destruct (present (transaction_id row)) as [tid|]; [|eauto].
  destruct (bool_decide _); [eauto|].
  destruct (present (posted_date_raw row)) as [raw|]; [|eauto].
  destruct (_parse_iso_z raw) as [t|]; [|eauto].
  destruct (now <? t); [eauto|].
  destruct (present (currency_code row)) as [c|]; [|apply Haccept].
  destruct (negb _); [eauto|apply Haccept].
Qed.

Lemma validate_loop_total now rows :
  Forall (fun row => ~ nan_refund row) rows ->
  forall st i, exists st', validate_loop now st i rows = Ok st'.
Proof.
  induction 1 as [|row rows Hrow _ IH]; intros st i; simpl; [eauto|].
  destruct (validate_row_total now st i row Hrow) as [st1 ->]. simpl.
  apply IH.
Qed.

(** The validator returns a triple for every batch without such a
    refund. *)
Lemma validate_transactions_total now rows :
  Forall (fun row => ~ nan_refund row) rows ->
  exists valid errs warns,
    validate_transactions now rows = Ok (valid, errs, warns).
Proof.
  intros Hrows. unfold validate_transactions.
  destruct (validate_loop_total now rows Hrows init 1%nat) as [st ->].
  simpl. eauto.
Qed.

(** Each record ends up as exactly one valid row or one error. *)
Lemma validate_loop_partition now rows :
  forall st i st',
    validate_loop now st i rows = Ok st' ->
    (length (valid_rows st') + length (errors st')
     = length (valid_rows st) + length (errors st) + length rows)%nat.
Proof.
  induction rows as [|row rows IH]; intros st i st'; simpl.
  - intros [= <-]. lia.
  - destruct (validate_row now st i row) as [st1|e] eqn:Hrow; simpl;
      [|congruence].
    intros Hloop. apply IH in Hloop. rewrite Hloop.
    apply validate_row_cases in Hrow
      as [[_ ->]
         |[(tid & _ & _ & ->)
          |(tid & _ & _ & _ & [(e & _ & _ & -> & ->)|(-> & t & ->)])]];
      simpl; rewrite ?length_app; simpl; lia.
Qed.

Lemma validate_transactions_partition now rows valid errs warns :
  validate_transactions now rows = Ok (valid, errs, warns) ->
  (length valid + length errs = length rows)%nat.
Proof.
  unfold validate_transactions.
  destruct (validate_loop now init 1 rows) as [st|e] eqn:Hloop; simpl;
    [|congruence].
  intros [= <- <- <-]. apply validate_loop_partition in Hloop.
  simpl in Hloop. lia.
Qed.

(** *** The fate of one record in its batch *)

Lemma validate_row_accepted now st i row st' :
  validate_row now st i row = Ok st' ->
  valid_rows st' = valid_rows st
  \/ exists tid t,
       id_of row = Some tid /\ (tid ∉ seen_ids st) /\ accepted now row t
       /\ valid_rows st' = (valid_rows st ++ [processed_row row t])%list.
Proof.
  unfold id_of.
  destruct (present (transaction_id row)) as [tid|] eqn:Hp.
  2:{ rewrite validate_row_missing_id by assumption. intros [= <-].
      now left. }
  destruct (decide (tid ∈ seen_ids st)) as [Hin|Hin].
  { rewrite (validate_row_duplicate now st i row tid) by assumption.
    intros [= <-]. now left. }
  destruct (present (posted_date_raw row)) as [raw|] eqn:Hd.
  2:{ rewrite (validate_row_missing_date now st i row tid) by assumption.
      intros [= <-]. now left. }
  destruct (_parse_iso_z raw) as [t|] eqn:Hparse.
  2:{ rewrite (validate_row_bad_date now st i row tid raw) by assumption.
      intros [= <-]. now left. }
  destruct (Z_lt_le_dec now t) as [Hlt|Hle].
  { rewrite (validate_row_future now st i row tid raw t) by assumption.
    intros [= <-]. now left. }
  rewrite (validate_row_reaches_currency now st i row tid raw t)
    by assumption.
  destruct (at_currency_rule_fields now st i tid raw t) as (_ & _ & Hv).
  assert (forall st1,
            accept_row (at_currency_rule now st i tid raw t) i tid row t
            = Ok st1 ->
            ~ nan_refund row
            /\ valid_rows st1
               = (valid_rows st ++ [processed_row row t])%list) as Haccept.
  { intros st1 Hacc. split.
    - intros Hnan.
      destruct (proj2 (accept_row_raises
                         (at_currency_rule now st i tid raw t) i tid row t)
                      Hnan) as [e He].
      congruence.
    - apply accept_row_Ok in Hacc as (_ & _ & -> & _). now rewrite Hv. }
  destruct (present (currency_code row)) as [c|] eqn:Hc.
  - destruct (ISO_4217_RE_match c) eqn:Hm; cbn [negb].
    + intros Hacc. destruct (Haccept _ Hacc) as [Hnan Hval].
      right. exists tid, t. do 2 (split; [auto|]). split; [|assumption].
      unfold accepted. rewrite Hc. split; [eauto|]. split; [assumption|].
      split; [|assumption]. now intros c' [= <-].
    + intros [= <-]. left. simpl. assumption.
  - intros Hacc. destruct (Haccept _ Hacc) as [Hnan Hval].
    right. exists tid, t. do 2 (split; [auto|]). split; [|assumption].
    unfold accepted. rewrite Hc. split; [eauto|]. split; [assumption|].
    split; [|assumption]. intros c' [=].
Qed.

(** Where a valid row comes from: the first record with its identifier,
    which passed every rule. *)
Lemma valid_rows_origin now rows st :
  validate_loop now init 1 rows = Ok st ->
  forall v, v ∈ valid_rows st ->
    exists j rj tid t,
      rows !! j = Some rj /\ first_occurrence rows j tid
      /\ accepted now rj t /\ v = processed_row rj t.
Proof.
  revert st. induction rows as [|r rows IH] using rev_ind; intros st.
  - intros [= <-] v Hv. inversion Hv.
  - rewrite validate_loop_snoc.
    destruct (validate_loop now init 1 rows) as [st0|e] eqn:Hloop; simpl;
      [|congruence].
    intros Hrow v Hv.
    assert (v ∈ valid_rows st0 ->
            exists j rj tid t,
              (rows ++ [r])%list !! j = Some rj
              /\ first_occurrence (rows ++ [r]) j tid
              /\ accepted now rj t /\ v = processed_row rj t) as Hold.
    { intros Hv0.
      destruct (IH st0 eq_refl v Hv0) as (j & rj & tid & t & Hj & Hf & Ha & ->).
      exists j, rj, tid, t. split; [now apply lookup_app_l_Some|].
      split; [now apply first_occurrence_snoc|]. auto. }
    destruct (validate_row_accepted _ _ _ _ _ Hrow)
      as [Heq|(tid & t & Hid & Hfresh & Hacc & Heq)]; rewrite Heq in Hv.
    + auto.
    + apply elem_of_app in Hv as [Hv|Hv]; [auto|].
      apply list_elem_of_singleton in Hv as ->.
      exists (length rows), r, tid, t.
      split; [apply lookup_snoc_Some; auto|].
      split; [|auto].
      apply first_occurrence_last; [assumption|].
      intros k rk Hk Hidk. apply Hfresh.
      apply (inv_seen _ _ (validate_loop_inv now rows st0 Hloop)). eauto.
Qed.

Lemma first_occurrence_unique rows j1 j2 tid :
  first_occurrence rows j1 tid -> first_occurrence rows j2 tid -> j1 = j2.
Proof.
  intros [(r1 & Hr1 & Hid1) Hf1] [(r2 & Hr2 & Hid2) Hf2].
  destruct (lt_eq_lt_dec j1 j2) as [[Hlt|Heq]|Hlt]; [|assumption|].
  - exfalso. now apply (Hf2 j1 r1 Hlt Hr1).
  - exfalso. now apply (Hf1 j2 r2 Hlt Hr2).
Qed.

(** An iteration on a record that passes every rule. *)
Lemma validate_row_of_accepted now st i row tid t st' :
  id_of row = Some tid -> tid ∉ seen_ids st -> accepted now row t ->
  validate_row now st i row = Ok st' ->
  valid_rows st' = (valid_rows st ++ [processed_row row t])%list
  /\ errors st' = errors st.
Proof.
  intros Hid Hfresh ((raw & Hraw & Hparse) & Hle & Hcur & _).
  rewrite (validate_row_reaches_currency now st i row tid raw t)
    by assumption.
  destruct (at_currency_rule_fields now st i tid raw t) as (_ & He & Hv).
  assert (forall st1,
            accept_row (at_currency_rule now st i tid raw t) i tid row t
            = Ok st1 ->
            valid_rows st1 = (valid_rows st ++ [processed_row row t])%list
            /\ errors st1 = errors st) as Haccept.
  { intros st1 Hacc. apply accept_row_Ok in Hacc as (_ & -> & -> & _).
    now rewrite He, Hv. }
  destruct (present (currency_code row)) as [c|] eqn:Hc; [|apply Haccept].
  rewrite (Hcur c eq_refl). cbn [negb]. apply Haccept.
Qed.

(** An iteration on a record that fails a date rule or the currency
    rule. *)
Lemma validate_row_of_rejected now st i row tid st' :
  id_of row = Some tid -> tid ∉ seen_ids st -> rejected_after_id now row ->
  validate_row now st i row = Ok st' ->
  valid_rows st' = valid_rows st
  /\ exists e, errors st' = (errors st ++ [e])%list
               /\ error_index e = i /\ is_duplicate_error e = false.
Proof.
  intros Hid Hfresh Hrej.
  destruct Hrej as [Hnone|(raw & Hraw & Hrej)].
  { rewrite (validate_row_missing_date now st i row tid) by assumption.
    intros [= <-]. simpl. eauto. }
  destruct Hrej as [Hnone|(t & Hparse & Hrej)].
  { rewrite (validate_row_bad_date now st i row tid raw) by assumption.
    intros [= <-]. simpl. eauto. }
  destruct (Z_lt_le_dec now t) as [Hlt|Hle].
  { rewrite (validate_row_future now st i row tid raw t) by assumption.
    intros [= <-]. simpl. eauto. }
  destruct Hrej as [Hlt|(c & Hc & Hbad)]; [lia|].
  rewrite (validate_row_reaches_currency now st i row tid raw t)
    by assumption.
  destruct (at_currency_rule_fields now st i tid raw t) as (_ & He & Hv).
  rewrite Hc, Hbad. cbn [negb]. intros [= <-]. simpl.
  rewrite He, Hv. eauto.
Qed.

(** The rest of the loop only appends, and its messages carry the
    indices of the records it reads. *)
Lemma validate_loop_grows now rows :
  forall st i st',
    validate_loop now st i rows = Ok st' ->
    exists vs es,
      valid_rows st' = (valid_rows st ++ vs)%list
      /\ errors st' = (errors st ++ es)%list
      /\ Forall (fun e => (i <= error_index e)%nat) es.
Proof.
  induction rows as [|row rows IH]; intros st i st'; simpl.
  - intros [= <-]. exists [], []. rewrite !app_nil_r. auto.
  - destruct (validate_row now st i row) as [st1|e] eqn:Hrow; simpl;
      [|congruence].
    intros Hloop. destruct (IH _ _ _ Hloop) as (vs & es & Hv & He & Hes).
    assert (exists vs1 es1,
              valid_rows st1 = (valid_rows st ++ vs1)%list
              /\ errors st1 = (errors st ++ es1)%list
              /\ Forall (fun e => error_index e = i) es1)
      as (vs1 & es1 & Hv1 & He1 & Hes1).
    { apply validate_row_cases in Hrow
        as [[_ ->]
           |[(tid & _ & _ & ->)
            |(tid & _ & _ & _ & [(e & Hi & _ & -> & ->)|(-> & t & ->)])]];
        simpl.
      - exists [], [MissingTransactionId i]. rewrite app_nil_r.
        repeat split. repeat constructor.
      - exists [], [DuplicateTransactionId i tid]. rewrite app_nil_r.
        repeat split. repeat constructor.
      - exists [], [e]. rewrite app_nil_r. repeat split.
        repeat constructor. assumption.
      - exists [processed_row row t], []. rewrite app_nil_r.
        repeat split. constructor. }
    exists (vs1 ++ vs)%list, (es1 ++ es)%list.
    rewrite Hv, He, Hv1, He1, <- !app_assoc.
    do 2 (split; [reflexivity|]).
    apply Forall_app. split.
    + eapply Forall_impl; [exact Hes1|]. simpl. intros. lia.
    + eapply Forall_impl; [exact Hes|]. simpl. intros. lia.
Qed.

(** The loop, cut at the record in position [j]. *)
Lemma validate_loop_at now rows st j rj :
  validate_loop now init 1 rows = Ok st -> rows !! j = Some rj ->
  exists st1 st2 vs es,
    batch_inv (take j rows) st1
    /\ validate_row now st1 (S j) rj = Ok st2
    /\ valid_rows st = (valid_rows st2 ++ vs)%list
    /\ errors st = (errors st2 ++ es)%list
    /\ Forall (fun e => (S j < error_index e)%nat) es.
Proof.
  intros Hloop Hj.
  pose proof (lookup_lt_Some _ _ _ Hj) as Hlt.
  rewrite <- (take_drop_middle rows j rj Hj), validate_loop_app in Hloop.
  destruct (validate_loop now init 1 (take j rows)) as [st1|e] eqn:Hhead;
    simpl in Hloop; [|congruence].
  rewrite length_take_le in Hloop by lia.
  destruct (validate_row now st1 (S j) rj) as [st2|e] eqn:Hrow;
    simpl in Hloop; [|congruence].
  destruct (validate_loop_grows now _ _ _ _ Hloop)
    as (vs & es & Hv & He & Hes).
  exists st1, st2, vs, es.
  split; [now apply (validate_loop_inv now)|]. split; [assumption|].
  split; [assumption|]. split; [assumption|].
  eapply Forall_impl; [exact Hes|]. simpl. intros. lia.
Qed.

(** The first record with an identifier meets a state in which that
    identifier has not been seen. *)
Lemma first_occurrence_fresh rows st1 j tid :
  first_occurrence rows j tid -> batch_inv (take j rows) st1 ->
  tid ∉ seen_ids st1.
Proof.
  intros [_ Hfirst] Hinv Hseen.
  apply (inv_seen _ _ Hinv) in Hseen as (k & rk & Hk & Hid).
  apply lookup_take_Some in Hk as [Hk Hlt].
  now apply (Hfirst k rk Hlt Hk).
Qed.

(** *** Duplicates and missing identifiers *)

(** C2. When validate_transactions returns [(valid, errs, warns)] for
    [rows]:
    - the messages come in input order (their item indices increase) and
      the valid rows follow the order of the input;
    - a record whose identifier is that of an earlier record gets the
      duplicate message naming the identifier, and no other message;
    - the first record with an identifier never gets a duplicate message
      and is judged by the remaining rules alone: when it passes them it
      is among the valid rows and no message carries its index, and when
      it fails a date rule or the currency rule it gets a message of
      that rule and no valid row carries its identifier;
    - every valid row stems from the first record with its identifier,
      and no two valid rows share an identifier;
    - a record without identifier gets the missing-identifier message
      with its index, and processing it leaves the set of seen
      identifiers as it was. *)
Theorem C2_duplicates_in_batch (now : Z) (rows : list Row)
    (valid : list ValidRow) (errs : list error) (warns : list warning) :
  validate_transactions now rows = Ok (valid, errs, warns) ->
  (StronglySorted lt (map error_index errs)
   /\ sublist (map v_transaction_id valid) (map transaction_id rows))
  /\ (forall j tid, later_occurrence rows j tid ->
        DuplicateTransactionId (S j) tid ∈ errs
        /\ forall e, e ∈ errs -> error_index e = S j ->
                     e = DuplicateTransactionId (S j) tid)
  /\ (forall j tid, first_occurrence rows j tid ->
        forall e, e ∈ errs -> error_index e = S j ->
                  is_duplicate_error e = false)
  /\ (forall j rj tid t,
        rows !! j = Some rj -> first_occurrence rows j tid ->
        accepted now rj t ->
        processed_row rj t ∈ valid
        /\ forall e, e ∈ errs -> error_index e <> S j)
  /\ (forall j rj tid,
        rows !! j = Some rj -> first_occurrence rows j tid ->
        rejected_after_id now rj ->
        (forall v, v ∈ valid -> v_transaction_id v <> Some tid)
        /\ exists e, e ∈ errs /\ error_index e = S j
                     /\ is_duplicate_error e = false)
  /\ (forall v, v ∈ valid ->
        exists j rj tid t,
          rows !! j = Some rj /\ first_occurrence rows j tid
          /\ v = processed_row rj t)
  /\ NoDup (map v_transaction_id valid)
  /\ (forall j rj, rows !! j = Some rj -> id_of rj = None ->
        MissingTransactionId (S j) ∈ errs)
  /\ (forall st i row, id_of row = None ->
        validate_row now st i row
        = Ok (add_error st (MissingTransactionId i))
        /\ seen_ids (add_error st (MissingTransactionId i)) = seen_ids st).
Proof.
  unfold validate_transactions.
  destruct (validate_loop now init 1 rows) as [st|e] eqn:Hloop; simpl;
    [|congruence].
  intros [= <- <- <-]. apply validate_loop_inv in Hloop as Hinv.
  split; [split; [apply (inv_error_order _ _ Hinv)
                 |apply (inv_valid_order _ _ Hinv)]|].
  split; [apply (inv_duplicate _ _ Hinv)|].
  split.
  { intros j tid [(rj & Hj & Hid) Hfirst] e He Hidx.
    destruct (is_duplicate_error e) eqn:Hdup; [|reflexivity].
    destruct (inv_duplicate_only_later _ _ Hinv e He Hdup)
      as (j' & tid' & -> & [(rj' & Hj' & Hid') (k & rk & Hlt & Hk & Hidk)]).
    simpl in Hidx. injection Hidx as ->.
    assert (rj' = rj) as -> by congruence.
    assert (tid' = tid) as -> by congruence.
    now destruct (Hfirst k rk Hlt Hk). }
  split.
  { intros j rj tid t Hj Hfirst Hacc.
    destruct (validate_loop_at now rows st j rj Hloop Hj)
      as (st1 & st2 & vs & es & Hinv1 & Hrow & Hv & He & Hes).
    pose proof (first_occurrence_fresh rows st1 j tid Hfirst Hinv1)
      as Hfresh.
    assert (id_of rj = Some tid) as Hid.
    { destruct Hfirst as [(r & Hr & Hid) _]. congruence. }
    destruct (validate_row_of_accepted now st1 (S j) rj tid t st2
                Hid Hfresh Hacc Hrow) as [Hv2 He2].
    split.
    - rewrite Hv, Hv2. apply elem_of_app. left. apply elem_of_app. right.
      now apply list_elem_of_singleton.
    - intros e He' Hidx. rewrite He, He2 in He'.
      apply elem_of_app in He' as [He'|He'].
      + pose proof (inv_error_bound _ _ Hinv1) as Hb.
        rewrite Forall_forall in Hb. specialize (Hb e He'). simpl in Hb.
        apply lookup_lt_Some in Hj.
        rewrite length_take_le in Hb by lia. lia.
      + rewrite Forall_forall in Hes. specialize (Hes e He'). simpl in Hes.
        lia. }
  split.
  { intros j rj tid Hj Hfirst Hrej. split.
    - intros v Hv Hvid.
      destruct (valid_rows_origin now rows st Hloop v Hv)
        as (j' & rj' & tid' & t & Hj' & Hfirst' & Hacc & ->).
      simpl in Hvid.
      assert (tid' = tid) as ->.
      { destruct Hfirst' as [(r & Hr & Hid) _].
        assert (r = rj') as -> by congruence.
        destruct Hfirst as [(r0 & Hr0 & Hid0) _].
        assert (r0 = rj) as -> by congruence.
        unfold id_of in Hid. rewrite Hvid in Hid.
        apply present_Some in Hid0 as [_ Hne].
        rewrite (present_nonempty tid Hne) in Hid. congruence. }
      assert (j' = j) as -> by (eapply first_occurrence_unique; eauto).
      assert (rj' = rj) as -> by congruence.
      destruct Hacc as ((raw & Hraw & Hparse) & Hle & Hcur & _).
      destruct Hrej as [Hnone|(raw' & Hraw' & Hrej)]; [congruence|].
      assert (raw' = raw) as -> by congruence.
      destruct Hrej as [Hnone|(t' & Hparse' & Hrej)]; [congruence|].
      assert (t' = t) as -> by congruence.
      destruct Hrej as [Hlt|(c & Hc & Hbad)]; [lia|].
      rewrite (Hcur c Hc) in Hbad. discriminate.
    - destruct (validate_loop_at now rows st j rj Hloop Hj)
        as (st1 & st2 & vs & es & Hinv1 & Hrow & Hv & He & Hes).
      pose proof (first_occurrence_fresh rows st1 j tid Hfirst Hinv1)
        as Hfresh.
      assert (id_of rj = Some tid) as Hid.
      { destruct Hfirst as [(r & Hr & Hid) _]. congruence. }
      destruct (validate_row_of_rejected now st1 (S j) rj tid st2
                  Hid Hfresh Hrej Hrow) as (_ & e & He2 & Hidx & Hnd).
      exists e. split; [|auto].
      rewrite He, He2. apply elem_of_app. left. apply elem_of_app. right.
      now apply list_elem_of_singleton. }
  split; [apply (inv_valid_first _ _ Hinv)|].
  split; [apply (inv_valid_nodup _ _ Hinv)|].
  split; [apply (inv_missing _ _ Hinv)|].
  intros st0 i row Hid. split; [|reflexivity].
  now apply validate_row_missing_id.
Qed.

End WithDates.
End BatchFacts.

Module BatchExamples.
Import Validator Report ValidatorFacts BatchFacts Sample Cases.

(** The first "tx-1" and "tx-2" are the valid rows, the second "tx-1" is
    reported as a duplicate and the record without identifier as
    item 3. *)
Lemma C2_duplicates_in_batch_witness :
  validate_transactions sample_now duplicate_batch
  = Ok (duplicate_batch_valid,
        [DuplicateTransactionId 2 "tx-1"; MissingTransactionId 3], [])
  /\ processed_row (sample_row "tx-1" "2025-08-30T12:15:00Z" "USD")
       1756556100000000 ∈ duplicate_batch_valid
  /\ DuplicateTransactionId 2 "tx-1"
     ∈ [DuplicateTransactionId 2 "tx-1"; MissingTransactionId 3]
  /\ MissingTransactionId 3
     ∈ [DuplicateTransactionId 2 "tx-1"; MissingTransactionId 3]
  /\ NoDup (map v_transaction_id duplicate_batch_valid).
Proof.
  assert (validate_transactions sample_now duplicate_batch
          = Ok (duplicate_batch_valid,
                [DuplicateTransactionId 2 "tx-1"; MissingTransactionId 3],
                [])) as Hrun by (vm_compute; reflexivity).
  destruct (C2_duplicates_in_batch sample_now duplicate_batch _ _ _ Hrun)
    as (_ & Hdup & _ & Hfirst & _ & _ & Hnodup & Hmissing & _).
  split; [exact Hrun|]. split; [|split; [|split; [|exact Hnodup]]].
  - apply (Hfirst 0%nat (sample_row "tx-1" "2025-08-30T12:15:00Z" "USD")
             "tx-1" 1756556100000000).
    + reflexivity.
    + split.
      * eexists. split; reflexivity.
      * intros k rk Hlt. lia.
    + split; [exists "2025-08-30T12:15:00Z"; split; reflexivity|].
      split; [unfold sample_now; lia|].
      split; [intros c [= <-]; reflexivity|].
      intros (_ & s & sig & p & Hnan). discriminate Hnan.
  - apply (Hdup 1%nat "tx-1"). split.
    + eexists. split; reflexivity.
    + exists 0%nat. eexists. split; [lia|]. split; reflexivity.
  - apply (Hmissing 2%nat no_id_row); reflexivity.
Defined.

End BatchExamples.

(** ** The store *)

Module DatabaseFacts.
Import Validator ValidatorFacts Database.

Lemma to_text_Ok s s' : to_text s = Ok s' -> s' = s.
Proof. unfold to_text. destruct (existsb _ _); congruence. Qed.

Lemma opt_to_text_Ok v v' : opt_result to_text v = Ok v' -> v' = v.
Proof.
  destruct v as [s|]; simpl; [|congruence].
  destruct (to_text s) as [s'|e] eqn:Hs; simpl; [|congruence].
  apply to_text_Ok in Hs as ->. congruence.
Qed.

Section WithColumns.
Context `{PgLib}.

(** The proposed row carries the tuple, column by column. *)
Lemma adapt_Ok v ex :
  adapt v = Ok ex ->
  ex_transaction_id ex = val_transaction_id v
  /\ ex_posted_date ex = val_posted_date v
  /\ ex_posted_day ex = val_posted_day v
  /\ ex_type ex = val_type v
  /\ ex_currency_code ex = val_currency_code v
  /\ opt_result to_numeric (val_amount v) = Ok (ex_amount ex)
  /\ ex_marketplace_id ex = val_marketplace_id v
  /\ ex_order_id ex = val_order_id v
  /\ ex_reason ex = val_reason v
  /\ to_jsonb (val_raw v) = Ok (ex_raw ex).
Proof.
  unfold adapt.
  destruct (to_text (val_transaction_id v)) as [tid|] eqn:H1;
    cbn [bind]; [|congruence].
  destruct (opt_result to_text (val_type v)) as [ty|] eqn:H2;
    cbn [bind]; [|congruence].
  destruct (opt_result to_text (val_currency_code v)) as [cur|] eqn:H3;
    cbn [bind]; [|congruence].
  destruct (opt_result to_numeric (val_amount v)) as [amt|] eqn:H4;
    cbn [bind]; [|congruence].
  destruct (opt_result to_text (val_marketplace_id v)) as [mkt|] eqn:H5;
    cbn [bind]; [|congruence].
  destruct (opt_result to_text (val_order_id v)) as [ord|] eqn:H6;
    cbn [bind]; [|congruence].
  destruct (opt_result to_text (val_reason v)) as [rsn|] eqn:H7;
    cbn [bind]; [|congruence].
  destruct (to_jsonb (val_raw v)) as [rw|] eqn:H8;
    cbn [bind]; [|congruence].
  intros [= <-]. simpl.
  apply to_text_Ok in H1. apply opt_to_text_Ok in H2, H3, H5, H6, H7.
  subst. repeat split; reflexivity.
Qed.

(** *** One proposed row *)

Lemma upsert_row_lookup now (tbl : table) ex :
  exists row,
    upsert_row now tbl ex !! ex_transaction_id ex = Some row
    /\ posted_date row = ex_posted_date ex
    /\ posted_day row = ex_posted_day ex
    /\ s_type row = ex_type ex
    /\ s_currency_code row = ex_currency_code ex
    /\ s_amount row = ex_amount ex
    /\ s_marketplace_id row = ex_marketplace_id ex
    /\ s_order_id row = ex_order_id ex
    /\ s_reason row = ex_reason ex
    /\ s_raw row = ex_raw ex
    /\ updated_at row = now
    /\ created_at row
       = match tbl !! ex_transaction_id ex with
         | Some old => created_at old
         | None => now
         end.
Proof.
  unfold upsert_row, table in *.
  destruct (tbl !! ex_transaction_id ex) as [old|];
    rewrite lookup_insert_eq; eexists; repeat split; reflexivity.
Qed.

Lemma upsert_row_other now (tbl : table) ex k :
  k <> ex_transaction_id ex -> upsert_row now tbl ex !! k = tbl !! k.
Proof.
  intros Hk. unfold upsert_row, table in *.
  destruct (tbl !! ex_transaction_id ex);
    now rewrite lookup_insert_ne by congruence.
Qed.

Lemma upsert_row_size now (tbl : table) ex :
  size (upsert_row now tbl ex)
  = match tbl !! ex_transaction_id ex with
    | Some _ => size tbl
    | None => S (size tbl)
    end.
Proof.
  unfold upsert_row, table in *.
  destruct (tbl !! ex_transaction_id ex) as [old|] eqn:Hl.
  - rewrite map_size_insert_Some; [reflexivity|]. now rewrite Hl.
  - now rewrite map_size_insert_None.
Qed.

(** *** A batch of one record *)

Lemma save_one now (ensure_opens write_opens : bool) tx tid
    (tbl tbl' : table) n :
  present (v_transaction_id tx) = Some tid ->
  save_transactions now ensure_opens write_opens [tx] tbl = (Ok n, tbl') ->
  n = 1%nat
  /\ exists rw ex,
       json_loads (v_raw tx) = Some rw
       /\ adapt (values_of tid tx rw) = Ok ex
       /\ tbl' = upsert_row now tbl ex.
Proof.
  intros Hid. unfold save_transactions, ensure_table_and_indexes.
  destruct ensure_opens; cbn [get_connection]; [|congruence].
  cbn [build_values]. rewrite Hid.
  destruct (json_loads (v_raw tx)) as [rw|]; [|congruence].
  cbn [bind]. destruct write_opens; cbn [get_connection]; [|congruence].
  unfold execute_values. cbn [length pages take drop].
  cbn [execute_pages]. unfold execute_statement. cbn [adapt_all].
  destruct (adapt (values_of tid tx rw)) as [ex|e] eqn:Hex; cbn [bind];
    [|congruence].
  cbn [upsert_rows].
  rewrite bool_decide_eq_false_2 by set_solver.
  cbn [upsert_rows bind]. intros [= <- <-]. eauto 10.
Qed.

(** C1. For a record key [tid], a write of [r1] at time [t1] followed
    by a write of [r2] (same [tid], any other field values) at time [t2],
    both returning: the key holds one row after the first write and one
    row after the second, the table has as many rows after the second
    write as before it and its other rows are untouched; the row holds
    the second write's values in every mutable column (amount and raw in
    their column representation); [created_at] is what it was after the
    first write, which is [t1] when the key was new; [updated_at] is
    [t2]. Each write opens connections of its own; that both writes
    return is all that is assumed of them. *)
Theorem C1_upsert_is_idempotent (t1 t2 : Z) (r1 r2 : ValidRow)
    (tid : string) (tbl tbl1 tbl2 : table) (n1 n2 : nat)
    (ensure1 write1 ensure2 write2 : bool) :
  present (v_transaction_id r1) = Some tid ->
  present (v_transaction_id r2) = Some tid ->
  save_transactions t1 ensure1 write1 [r1] tbl = (Ok n1, tbl1) ->
  save_transactions t2 ensure2 write2 [r2] tbl1 = (Ok n2, tbl2) ->
  exists row1 row2,
    tbl1 !! tid = Some row1
    /\ tbl2 !! tid = Some row2
    /\ size tbl2 = size tbl1
    /\ (forall k, k <> tid -> tbl2 !! k = tbl1 !! k)
    /\ posted_date row2 = v_posted_date r2
    /\ posted_day row2 = v_posted_day r2
    /\ s_type row2 = v_type r2
    /\ s_currency_code row2 = v_currency_code r2
    /\ opt_result to_numeric (v_amount r2) = Ok (s_amount row2)
    /\ s_marketplace_id row2 = v_marketplace_id r2
    /\ s_order_id row2 = v_order_id r2
    /\ s_reason row2 = v_reason r2
    /\ (exists rw, json_loads (v_raw r2) = Some rw
                   /\ to_jsonb rw = Ok (s_raw row2))
    /\ created_at row2 = created_at row1
    /\ updated_at row2 = t2
    /\ (tbl !! tid = None ->
        created_at row1 = t1 /\ updated_at row1 = t1
        /\ size tbl1 = S (size tbl)).
Proof.
  intros Hid1 Hid2 Hsave1 Hsave2.
  destruct (save_one _ _ _ _ _ _ _ _ Hid1 Hsave1)
    as (_ & rw1 & ex1 & _ & Hex1 & ->).
  destruct (save_one _ _ _ _ _ _ _ _ Hid2 Hsave2)
    as (_ & rw2 & ex2 & Hrw2 & Hex2 & ->).
  apply adapt_Ok in Hex1 as (Hk1 & _).
  apply adapt_Ok in Hex2
    as (Hk2 & Hd & Hday & Hty & Hcur & Hamt & Hmkt & Hord & Hrsn & Hraw).
  simpl in Hk1, Hk2, Hd, Hday, Hty, Hcur, Hamt, Hmkt, Hord, Hrsn, Hraw.
  destruct (upsert_row_lookup t1 tbl ex1)
    as (row1 & Hrow1 & _ & _ & _ & _ & _ & _ & _ & _ & _ & Hu1 & Hc1).
  destruct (upsert_row_lookup t2 (upsert_row t1 tbl ex1) ex2)
    as (row2 & Hrow2 & Hd2 & Hday2 & Hty2 & Hcur2 & Hamt2 & Hmkt2 & Hord2
        & Hrsn2 & Hraw2 & Hu2 & Hc2).
  rewrite Hk1 in Hrow1, Hc1. rewrite Hk2 in Hrow2, Hc2.
  rewrite Hrow1 in Hc2.
  exists row1, row2.
  split; [assumption|]. split; [assumption|].
  split. { rewrite upsert_row_size, Hk2. unfold table in *. now rewrite Hrow1. }
  split. { intros k Hk. apply upsert_row_other. congruence. }
  split; [congruence|]. split; [congruence|]. split; [congruence|].
  split; [congruence|]. split; [congruence|]. split; [congruence|].
  split; [congruence|]. split; [congruence|].
  split. { exists rw2. split; [assumption|congruence]. }
  split; [assumption|]. split; [assumption|].
  intros Hnew. rewrite Hnew in Hc1.
  split; [assumption|]. split; [assumption|].
  rewrite upsert_row_size, Hk1. unfold table in *. now rewrite Hnew.
Qed.

End WithColumns.
End DatabaseFacts.

Module DatabaseExamples.
Import Validator Database DatabaseFacts Sample.

(** Two writes of "tx-1" into an empty table, at times 1000 and 2000. *)
Lemma C1_upsert_is_idempotent_witness :
  exists (tbl1 tbl2 : table) row2,
    save_transactions 1000 true true [first_write] ∅ = (Ok 1%nat, tbl1)
    /\ save_transactions 2000 true true [second_write] tbl1
       = (Ok 1%nat, tbl2)
    /\ tbl2 !! "tx-1" = Some row2
    /\ size tbl2 = 1%nat
    /\ s_type row2 = Some "Refund"
    /\ s_currency_code row2 = Some "EUR"
    /\ s_amount row2 = Some (Finite true 500 (-2))
    /\ created_at row2 = 1000
    /\ updated_at row2 = 2000.
Proof.
  pose (tbl1 := snd (save_transactions 1000 true true [first_write] ∅)).
  pose (tbl2 := snd (save_transactions 2000 true true [second_write] tbl1)).
  assert (save_transactions 1000 true true [first_write] ∅
          = (Ok 1%nat, tbl1))
    as Hsave1 by (vm_compute; reflexivity).
  assert (save_transactions 2000 true true [second_write] tbl1
          = (Ok 1%nat, tbl2))
    as Hsave2 by (vm_compute; reflexivity).
  destruct (C1_upsert_is_idempotent 1000 2000 first_write second_write
              "tx-1" ∅ tbl1 tbl2 1 1 true true true true
              eq_refl eq_refl Hsave1 Hsave2)
    as (row1 & row2 & _ & Hrow2 & Hsize & _ & _ & _ & Hty & Hcur & Hamt
        & _ & _ & _ & _ & Hcreated & Hupdated & Hnew).
  destruct (Hnew (lookup_empty _)) as (Hc1 & _ & Hsize1).
  exists tbl1, tbl2, row2.
  split; [exact Hsave1|]. split; [exact Hsave2|]. split; [exact Hrow2|].
  split; [rewrite Hsize, Hsize1; reflexivity|].
  split; [exact Hty|]. split; [exact Hcur|].
  split; [simpl in Hamt; congruence|].
  split; [congruence|exact Hupdated].
Defined.

End DatabaseExamples.

(** ** The fetch client *)

Module ClientFacts.
Import Validator ValidatorFacts Client.
Local Open Scope client_scope.

Lemma count_snoc p (tr : list event) ev :
  count p (tr ++ [ev]) = (count p tr + (if p ev then 1 else 0))%nat.
Proof.
  unfold count. rewrite List.filter_app, length_app. simpl.
  now destruct (p ev).
Qed.

(** *** What one attempt does to the trace *)

(** One attempt performs exactly one GET, and performs a token exchange
    only when the credential has not been refreshed yet, which it then
    marks as refreshed. *)
Lemma attempt_once_effect E url posted_after mkt timeout max_retries st k tr :
  forall r tr',
    attempt_once E url posted_after mkt timeout max_retries st k tr
    = (r, tr') ->
    count is_http_get tr' = S (count is_http_get tr)
    /\ (count is_token_exchange tr'
        + match r with
          | Ok (Continue st') => if token_refreshed st' then 0 else 1
          | _ => 0
          end
        <= count is_token_exchange tr
           + (if token_refreshed st then 0 else 1))%nat.
Proof.
  intros r tr'. unfold attempt_once, mbind, emit, requests_get.
  destruct (http_get E _) as [resp|e].
  2:{ intros [= <- <-]. rewrite !count_snoc. simpl. lia. }
  destruct ((status_code resp =? 401) && negb (token_refreshed st)) eqn:H401.
  { apply andb_prop in H401 as [_ Href]. apply negb_true_iff in Href.
    rewrite Href. unfold _get_lwa_token, ret, raise.
    destruct (requests_available E); cbn [negb];
      [|intros [= <- <-]; rewrite !count_snoc; simpl; lia].
    destruct (lwa_credentials E); cbn [negb];
      [|intros [= <- <-]; rewrite !count_snoc; simpl; lia].
    destruct (lwa_post E _) as [token'|e];
      intros [= <- <-]; rewrite !count_snoc; simpl; lia. }
  destruct (status_code resp =? 429).
  { unfold lift, ret, sleep.
    destruct (present (retry_after resp)) as [s|].
    - destruct (py_float E s) as [w|e];
        [|intros [= <- <-]; rewrite !count_snoc; simpl; lia].
      destruct (time_sleep E w); intros [= <- <-]; rewrite !count_snoc;
        simpl; destruct (token_refreshed st); lia.
    - destruct (time_sleep E _); intros [= <- <-]; rewrite !count_snoc;
        simpl; destruct (token_refreshed st); lia. }
  destruct ((500 <=? status_code resp) && (status_code resp <? 600)).
  { unfold ret, sleep.
    destruct (time_sleep E _); intros [= <- <-]; rewrite !count_snoc;
      simpl; destruct (token_refreshed st); lia. }
  unfold raise_for_status, raise, ret, lift.
  destruct ((400 <=? status_code resp) && (status_code resp <? 600));
    [intros [= <- <-]; rewrite !count_snoc; simpl; lia|].
  destruct (json resp) as [data|e];
    [|intros [= <- <-]; rewrite !count_snoc; simpl; lia].
  destruct (is_empty _); intros [= <- <-]; rewrite !count_snoc; simpl; lia.
Qed.

(** *** The branches of one attempt *)

Section Branches.
Variables (E : Env) (url posted_after : string) (mkt : option string)
          (timeout max_retries : Z) (st : loop_state) (a : nat)
          (tr : list event) (r : Response).
Hypothesis Hget : http_get E (count is_http_get tr) = Ok r.

Let exchange : list event :=
  request_events url posted_after mkt timeout (token st) r.

Lemma attempt_once_first_401 token' :
  status_code r = 401 -> token_refreshed st = false ->
  requests_available E = true -> lwa_credentials E = true ->
  lwa_post E (count is_token_exchange tr) = Ok token' ->
  attempt_once E url posted_after mkt timeout max_retries st a tr
  = (Ok (Continue {| token := token'; backoff := backoff st;
                     token_refreshed := true |}),
     tr ++ exchange
        ++ [LogRetryAttempt a max_retries TokenExpired None; TokenExchange])%list.
Proof.
  intros Hs Href Hreq Hcred Hpost.
  unfold attempt_once, mbind, emit, requests_get, _get_lwa_token, ret.
  rewrite !count_snoc. simpl. rewrite Nat.add_0_r, Hget, Hs, Href, Hreq, Hcred.
  simpl. rewrite !count_snoc. simpl. rewrite !Nat.add_0_r, Hpost.
  unfold exchange, request_events. rewrite ?Hs, <- !app_assoc. reflexivity.
Qed.


Lemma attempt_once_429 w :
  status_code r = 429 ->
  match present (retry_after r) with
  | Some s => py_float E s = Ok w
  | None => w = as_float (backoff st)
  end ->
  time_sleep E w = Ok tt ->
  attempt_once E url posted_after mkt timeout max_retries st a tr
  = (Ok (Continue {| token := token st;
                     backoff := Z.min (backoff st * 2) 60;
                     token_refreshed := token_refreshed st |}),
     tr ++ exchange
        ++ [LogRetryAttempt a max_retries Throttling (Some w); Sleep w])%list.
Proof.
  intros Hs Hw Hsleep.
  unfold attempt_once, mbind, emit, requests_get, lift, ret, sleep.
  rewrite !count_snoc. simpl. rewrite Nat.add_0_r, Hget, Hs. simpl.
  destruct (present (retry_after r)) as [s|]; [rewrite Hw|subst w];
    rewrite Hsleep; unfold exchange, request_events;
    rewrite ?Hs, <- !app_assoc; reflexivity.
Qed.

Lemma attempt_once_5xx :
  500 <= status_code r < 600 ->
  time_sleep E (as_float (backoff st)) = Ok tt ->
  attempt_once E url posted_after mkt timeout max_retries st a tr
  = (Ok (Continue {| token := token st;
                     backoff := Z.min (backoff st * 2) 60;
                     token_refreshed := token_refreshed st |}),
     tr ++ exchange
        ++ [LogRetryAttempt a max_retries (ServerError (status_code r))
              (Some (as_float (backoff st)));
            Sleep (as_float (backoff st))])%list.
Proof.
  intros Hs Hsleep.
  unfold attempt_once, mbind, emit, requests_get, ret, sleep.
  rewrite !count_snoc. simpl. rewrite Nat.add_0_r, Hget.
  assert ((status_code r =? 401) = false) as -> by lia.
  assert ((status_code r =? 429) = false) as -> by lia.
  assert (((500 <=? status_code r) && (status_code r <? 600)) = true)
    as -> by lia.
  simpl. rewrite Hsleep. unfold exchange, request_events. rewrite <- !app_assoc. reflexivity.
Qed.


End Branches.

(** *** The loop *)

Lemma count_app p (l1 l2 : list event) :
  count p (l1 ++ l2) = (count p l1 + count p l2)%nat.
Proof. unfold count. now rewrite List.filter_app, length_app. Qed.

Lemma count_cons p ev (l : list event) :
  count p (ev :: l) = ((if p ev then 1 else 0) + count p l)%nat.
Proof. unfold count. simpl. now destruct (p ev). Qed.

Lemma count_nil p : count p [] = 0%nat.
Proof. reflexivity. Qed.

(** Counting over the explicit events appended to a trace. *)
Ltac count_events :=
  unfold request_events;
  rewrite ?count_app, ?count_cons, ?count_nil;
  cbn [is_http_get is_token_exchange Nat.add].

Ltac count_events_in H :=
  unfold request_events in H;
  rewrite ?count_app, ?count_cons, ?count_nil in H;
  cbn [is_http_get is_token_exchange Nat.add] in H.

(** The loop performs at most one GET per remaining attempt, and at most
    one token exchange, none once the credential has been refreshed. *)
Lemma request_loop_bounds E url posted_after mkt timeout max_retries :
  forall n st a tr r tr',
    request_loop E url posted_after mkt timeout max_retries st a n tr
    = (r, tr') ->
    (count is_http_get tr' <= count is_http_get tr + n)%nat
    /\ (count is_token_exchange tr'
        <= count is_token_exchange tr
           + (if token_refreshed st then 0 else 1))%nat.
Proof.
  induction n as [|n IH]; intros st a tr r tr'; simpl.
  - unfold raise. intros [= <- <-]. lia.
  - unfold mbind.
    destruct (attempt_once E url posted_after mkt timeout max_retries st a tr)
      as [r1 tr1] eqn:Hatt.
    destruct (attempt_once_effect _ _ _ _ _ _ _ _ _ _ _ Hatt) as [Hg Ht].
    destruct r1 as [[st'|payload]|e].
    + intros Hloop. destruct (IH _ _ _ _ _ Hloop). lia.
    + unfold ret. intros [= <- <-]. lia.
    + intros [= <- <-]. lia.
Qed.

(** When every remaining attempt ends in a retry, the loop runs out and
    raises RuntimeError after exactly that many GETs. *)
Lemma request_loop_exhausts E url posted_after mkt timeout max_retries :
  requests_available E = true ->
  lwa_credentials E = true ->
  (forall b, 1 <= b <= 60 -> time_sleep E (as_float b) = Ok tt) ->
  forall n st a tr,
    count is_token_exchange tr = (if token_refreshed st then 2 else 1)%nat ->
    (token_refreshed st = true <->
     exists j, (j < count is_http_get tr)%nat /\ status_at E j = Some 401) ->
    1 <= backoff st <= 60 ->
    (forall j, (count is_http_get tr <= j < count is_http_get tr + n)%nat ->
               retryable E j) ->
    exists tr',
      request_loop E url posted_after mkt timeout max_retries st a n tr
      = (Raise RuntimeError, tr')
      /\ count is_http_get tr' = (count is_http_get tr + n)%nat.
Proof.
  intros Hreq Hcred Hsleep.
  induction n as [|n IH]; intros st a tr Htok Href Hback Hretry; simpl.
  - exists tr. split; [reflexivity|lia].
  - destruct (Hretry (count is_http_get tr)) as (r & Hget & Hcase); [lia|].
    assert (status_at E (count is_http_get tr) = Some (status_code r))
      as Hstatus by (unfold status_at; now rewrite Hget).
    unfold mbind.
    destruct Hcase as [(Hs & Hfirst & token' & Hpost)
                      |[(Hs & Hwait)|Hs]].
    + (* the first 401 *)
      assert (token_refreshed st = false) as Hnot.
      { destruct (token_refreshed st); [|reflexivity].
        destruct (proj1 Href eq_refl) as (j & Hj & H401).
        now destruct (Hfirst j Hj). }
      rewrite Hnot in Htok.
      rewrite (attempt_once_first_401 E url posted_after mkt timeout
                 max_retries st a tr r Hget token') by congruence.
      match goal with
      | |- context [request_loop _ _ _ _ _ _ ?st1 ?a1 _ ?tr1] =>
          destruct (IH st1 a1 tr1) as (tr' & -> & Hn)
      end.
      * count_events. rewrite Htok. reflexivity.
      * simpl. split; [|reflexivity]. intros _.
        exists (count is_http_get tr). count_events.
        split; [lia|congruence].
      * assumption.
      * intros j Hj. apply Hretry. count_events_in Hj. lia.
      * eexists. split; [reflexivity|]. rewrite Hn. count_events. lia.
    + (* throttled *)
      assert (exists w,
                 match present (retry_after r) with
                 | Some s => py_float E s = Ok w
                 | None => w = as_float (backoff st)
                 end /\ time_sleep E w = Ok tt) as (w & Hw & Hsl).
      { destruct (present (retry_after r)) as [s|].
        - destruct (Hwait s eq_refl) as (w & ? & ?). eauto.
        - eauto. }
      rewrite (attempt_once_429 E url posted_after mkt timeout max_retries
                 st a tr r Hget w Hs Hw Hsl).
      match goal with
      | |- context [request_loop _ _ _ _ _ _ ?st1 ?a1 _ ?tr1] =>
          destruct (IH st1 a1 tr1) as (tr' & -> & Hn)
      end.
      * count_events. rewrite Htok. simpl. lia.
      * simpl. rewrite Href. count_events.
        split; intros (j & Hj & H401); exists j; split; try assumption;
          [lia|].
        destruct (decide (j = count is_http_get tr)) as [->|]; [|lia].
        rewrite Hstatus, Hs in H401. discriminate.
      * simpl. lia.
      * intros j Hj. apply Hretry. count_events_in Hj. lia.
      * eexists. split; [reflexivity|]. rewrite Hn. count_events. lia.
    + (* server error *)
      rewrite (attempt_once_5xx E url posted_after mkt timeout max_retries
                 st a tr r Hget Hs (Hsleep _ Hback)).
      match goal with
      | |- context [request_loop _ _ _ _ _ _ ?st1 ?a1 _ ?tr1] =>
          destruct (IH st1 a1 tr1) as (tr' & -> & Hn)
      end.
      * count_events. rewrite Htok. simpl. lia.
      * simpl. rewrite Href. count_events.
        split; intros (j & Hj & H401); exists j; split; try assumption;
          [lia|].
        destruct (decide (j = count is_http_get tr)) as [->|]; [|lia].
        rewrite Hstatus in H401. injection H401 as H401. lia.
      * simpl. lia.
      * intros j Hj. apply Hretry. count_events_in Hj. lia.
      * eexists. split; [reflexivity|]. rewrite Hn. count_events. lia.
Qed.

(** *** The whole call *)

Section WithDates.
Context `{DateLib}.

Lemma list_transactions_real_bounds E base_url posted_after mkt timeout
    max_retries r tr :
  run (list_transactions_real E base_url posted_after mkt timeout max_retries)
  = (r, tr) ->
  (count is_http_get tr <= Z.to_nat max_retries)%nat
  /\ (count is_token_exchange tr <= 2)%nat.
Proof.
  unfold run, list_transactions_real, mbind, _validate_iso8601_utc,
    _get_lwa_token, raise, ret.
  destruct (requests_available E); cbn [negb];
    [|intros [= <- <-]; rewrite !count_nil; lia].
  destruct (fromisoformat (replace_Z posted_after));
    [|intros [= <- <-]; rewrite !count_nil; lia].
  destruct (lwa_credentials E); cbn [negb];
    [|intros [= <- <-]; rewrite !count_nil; lia].
  destruct (lwa_post E _) as [token0|e];
    [|intros [= <- <-]; count_events; lia].
  intros Hloop. apply request_loop_bounds in Hloop as [Hg Ht].
  count_events_in Hg. count_events_in Ht. cbn [token_refreshed] in Ht. lia.
Qed.

(** Once the timestamp is accepted and the first token obtained, the
    call is the loop, started after one token exchange. *)
Lemma list_transactions_real_started E base_url posted_after mkt timeout
    max_retries d token0 :
  requests_available E = true ->
  lwa_credentials E = true ->
  fromisoformat (replace_Z posted_after) = Some d ->
  lwa_post E 0 = Ok token0 ->
  run (list_transactions_real E base_url posted_after mkt timeout max_retries)
  = request_loop E (base_url +:+ "/finances/2024-06-19/transactions")
      posted_after (present mkt) timeout max_retries
      {| token := token0; backoff := 1; token_refreshed := false |}
      1 (Z.to_nat max_retries) [TokenExchange].
Proof.
  intros Hreq Hcred Hts Hpost.
  unfold run, list_transactions_real, mbind, _validate_iso8601_utc,
    _get_lwa_token, ret.
  rewrite Hreq, Hts, Hcred. cbn [negb]. rewrite count_nil, Hpost.
  reflexivity.
Qed.

(** C7. For a timestamp that [fromisoformat] refuses, the call raises
    with an empty trace: no token exchange, no GET, no retry message and
    no sleep took place. With the requests module available, what it
    raises is the ValueError of the parameter check. *)
Theorem C7_malformed_timestamp_fails_fast (E : Env)
    (base_url posted_after : string) (mkt : option string)
    (timeout max_retries : Z) :
  fromisoformat (replace_Z posted_after) = None ->
  (exists e,
     run (list_transactions_real E base_url posted_after mkt timeout
            max_retries) = (Raise e, []))
  /\ (requests_available E = true ->
      run (list_transactions_real E base_url posted_after mkt timeout
             max_retries) = (Raise ValueError, [])).
Proof.
  intros Hts.
  unfold run, list_transactions_real, mbind, _validate_iso8601_utc, raise.
  rewrite Hts. destruct (requests_available E); cbn [negb]; split; eauto.
  discriminate.
Qed.

(** C8. Every call performs at most [max_retries] GETs. When the
    timestamp is accepted, the first token is obtained, [time.sleep]
    accepts the backoff waits, and each of the [max_retries] attempts
    ends in a retry (a 429, a 5xx, or the one 401 that is answered by a
    refresh), the call raises RuntimeError after exactly [max_retries]
    GETs and returns no payload. *)
Theorem C8_retry_bound (E : Env) (base_url posted_after : string)
    (mkt : option string) (timeout max_retries : Z) :
  (count is_http_get
     (snd (run (list_transactions_real E base_url posted_after mkt timeout
                  max_retries)))
   <= Z.to_nat max_retries)%nat
  /\ (requests_available E = true ->
      lwa_credentials E = true ->
      (exists d, fromisoformat (replace_Z posted_after) = Some d) ->
      (exists token0, lwa_post E 0 = Ok token0) ->
      (forall b, 1 <= b <= 60 -> time_sleep E (as_float b) = Ok tt) ->
      (forall k, (k < Z.to_nat max_retries)%nat -> retryable E k) ->
      exists tr,
        run (list_transactions_real E base_url posted_after mkt timeout
               max_retries) = (Raise RuntimeError, tr)
        /\ count is_http_get tr = Z.to_nat max_retries).
Proof.
  split.
  - destruct (run _) as [r tr] eqn:Hrun.
    now apply list_transactions_real_bounds in Hrun as [? _].
  - intros Hreq Hcred [d Hts] [token0 Hpost] Hsleep Hretry.
    rewrite (list_transactions_real_started E base_url posted_after mkt
               timeout max_retries d token0) by assumption.
    destruct (request_loop_exhausts E
                (base_url +:+ "/finances/2024-06-19/transactions")
                posted_after (present mkt) timeout max_retries
                Hreq Hcred Hsleep (Z.to_nat max_retries)
                {| token := token0; backoff := 1; token_refreshed := false |}
                1%nat [TokenExchange])
      as (tr & Hloop & Hn).
    + reflexivity.
    + cbn [token_refreshed]. split; [discriminate|].
      intros (j & Hj & _). count_events_in Hj. lia.
    + cbn [backoff]. lia.
    + intros j Hj. apply Hretry. count_events_in Hj. lia.
    + exists tr. split; [assumption|]. rewrite Hn. count_events. lia.
Qed.


End WithDates.
End ClientFacts.

Module ClientExamples.
Import Validator Client ClientFacts Sample.

(** "yesterday" is refused before anything is sent. *)
Lemma C7_malformed_timestamp_fails_fast_witness :
  run (list_transactions_real always_500 sample_base_url "yesterday" None
         DEFAULT_TIMEOUT DEFAULT_MAX_RETRIES)
  = (Raise ValueError, []).
Proof.
  destruct (@C7_malformed_timestamp_fails_fast utc_seconds always_500
              sample_base_url "yesterday" None DEFAULT_TIMEOUT
              DEFAULT_MAX_RETRIES eq_refl)
    as [_ Hvalue].
  apply Hvalue. reflexivity.
Defined.

(** Six attempts allowed, every response a 500: RuntimeError after six
    GETs. *)
Lemma C8_retry_bound_witness :
  exists tr,
    run (list_transactions_real always_500 sample_base_url
           "2025-08-23T00:00:00Z" None DEFAULT_TIMEOUT DEFAULT_MAX_RETRIES)
    = (Raise RuntimeError, tr)
    /\ count is_http_get tr = 6%nat.
Proof.
  destruct (@C8_retry_bound utc_seconds always_500 sample_base_url
              "2025-08-23T00:00:00Z" None DEFAULT_TIMEOUT DEFAULT_MAX_RETRIES)
    as [_ Hexhausted].
  apply Hexhausted.
  - reflexivity.
  - reflexivity.
  - eexists. reflexivity.
  - eexists. reflexivity.
  - intros b _. reflexivity.
  - intros k Hk. exists (response_with 500 empty_payload). split.
    + change (Z.to_nat DEFAULT_MAX_RETRIES) with 6%nat in Hk.
      do 6 (destruct k as [|k]; [reflexivity|]). lia.
    + right; right. simpl. lia.
Defined.



(** A Retry-After value that [float] does not read is not a retry: the
    ValueError of the conversion leaves the call after the first GET. *)
Example unreadable_retry_after_raises :
  fst (run (list_transactions_real throttled_with_date sample_base_url
              "2025-08-23T00:00:00Z" None DEFAULT_TIMEOUT
              DEFAULT_MAX_RETRIES))
  = Raise ValueError
  /\ count is_http_get
       (snd (run (list_transactions_real throttled_with_date
                    sample_base_url "2025-08-23T00:00:00Z" None
                    DEFAULT_TIMEOUT DEFAULT_MAX_RETRIES)))
     = 1%nat.
Proof. split; reflexivity. Qed.

End ClientExamples.

(** ** The normalizer and the validator: what a caller can rely on *)

Module ValidatorExtras.
Import Validator Report DecFacts NormalizerFacts ValidatorFacts BatchFacts.

(** *** Rounding to cents *)

Lemma rescale_exact c e target :
  target <= e -> Z.of_N (rescale c e target) = Z.of_N c * 10 ^ (e - target).
Proof.
  intros Hle. unfold rescale.
  apply Z.leb_le in Hle as Hb. rewrite Hb.
  rewrite N2Z.inj_mul, N2Z.inj_pow, Z2N.id by lia. reflexivity.
Qed.

Lemma N_even_succ_odd q : N.even q = false -> N.even (q + 1) = true.
Proof.
  intros Hq. rewrite N.add_1_r, N.even_succ, <- N.negb_even, Hq. reflexivity.
Qed.

Lemma rescale_nearest c e target :
  e < target ->
  let d := 10 ^ (target - e) in
  let c' := rescale c e target in
  2 * Z.abs (Z.of_N c - Z.of_N c' * d) <= d
  /\ (2 * Z.abs (Z.of_N c - Z.of_N c' * d) = d -> N.even c' = true).
Proof.
  intros Hlt d c'. subst c'. unfold rescale.
  assert ((target <=? e) = false) as Hb by (apply Z.leb_gt; lia).
  rewrite Hb.
  set (dN := (10 ^ Z.to_N (target - e))%N).
  assert (Z.of_N dN = d) as HdN.
  { subst dN d. rewrite N2Z.inj_pow, Z2N.id by lia. reflexivity. }
  assert (dN <> 0%N) as Hnz by (subst dN; apply N.pow_nonzero; lia).
  pose proof (N.div_mod c dN Hnz) as Hdiv.
  pose proof (N.mod_lt c dN Hnz) as Hmod.
  set (q := (c / dN)%N) in *. set (r := (c mod dN)%N) in *.
  clearbody q r dN. subst d.
  destruct (2 * r <? dN)%N eqn:H1.
  { apply N.ltb_lt in H1. split; [nia|]. intros Htie. exfalso. nia. }
  apply N.ltb_ge in H1.
  destruct (dN <? 2 * r)%N eqn:H2.
  { apply N.ltb_lt in H2. split; [nia|]. intros Htie. exfalso. nia. }
  apply N.ltb_ge in H2.
  destruct (N.even q) eqn:Hq.
  - split; [nia|]. intros _. assumption.
  - split; [nia|]. intros _. now apply N_even_succ_odd.
Qed.

(** X1. An amount string that the decimal constructor reads as a finite
    number and that is kept by the normalizer is kept with its sign and
    exactly two fractional digits, as the nearest multiple of 0.01: the
    value itself when it has at most two fractional digits, otherwise a
    coefficient at distance at most half a cent, the even one on a
    tie. *)
Theorem X1_amount_rounds_to_nearest_cent (s : string) (sg : bool) (c : N)
    (e : Z) (a : decimal) :
  Decimal s = Ok (Finite sg c e) ->
  normalize_amount (Some s) = Ok (Some a) ->
  exists c',
    a = Finite sg c' (-2)
    /\ (-2 <= e -> Z.of_N c' = Z.of_N c * 10 ^ (e + 2))
    /\ (e < -2 ->
        2 * Z.abs (Z.of_N c - Z.of_N c' * 10 ^ (-2 - e)) <= 10 ^ (-2 - e)
        /\ (2 * Z.abs (Z.of_N c - Z.of_N c' * 10 ^ (-2 - e)) = 10 ^ (-2 - e)
            -> N.even c' = true)).
Proof.
  intros Hd. rewrite normalize_amount_eq, Hd.
  destruct (String.eqb s ""); [congruence|]. cbn [bind].
  unfold quantize.
  replace (negb ((Etiny <=? -2) && (-2 <=? Emax))) with false by reflexivity.
  destruct (c =? 0)%N eqn:Hc.
  { apply N.eqb_eq in Hc as ->. intros [= <-]. exists 0%N.
    split; [reflexivity|]. split; [intros _; reflexivity|].
    intros He. simpl Z.of_N. rewrite Z.mul_0_l. simpl Z.abs.
    assert (0 < 10 ^ (-2 - e)) by (apply Z.pow_pos_nonneg; lia).
    split; [lia|]. intros. reflexivity. }
  destruct (Emax <? adjusted c e); [congruence|].
  destruct (prec <? _); [congruence|].
  destruct (Emax <? _); [congruence|].
  destruct (prec <? _); [congruence|].
  intros [= <-]. exists (rescale c e (-2)). split; [reflexivity|]. split.
  - intros He. rewrite rescale_exact by lia.
    now replace (e - -2) with (e + 2) by lia.
  - intros He. apply (rescale_nearest c e (-2) He).
Qed.

(** X2. An amount that cannot be written with two fractional digits in
    28 digits is dropped, not reported: an infinity, a signaling NaN, or
    a non-zero finite number whose leading digit stands at 10^26 or
    above is normalized to an absent amount. *)
Theorem X2_unrepresentable_amount_is_dropped (s : string) (d : decimal) :
  Decimal s = Ok d ->
  (exists sg, d = Infinity sg)
  \/ (exists sg p, d = NaN sg true p)
  \/ (exists sg c e, d = Finite sg c e /\ c <> 0%N /\ 26 <= adjusted c e) ->
  normalize_amount (Some s) = Ok None.
Proof.
  intros Hd Hcase. rewrite normalize_amount_eq, Hd.
  destruct (String.eqb s ""); [reflexivity|]. cbn [bind].
  destruct Hcase as [[sg ->]|[(sg & p & ->)|(sg & c & e & -> & Hc & Hadj)]];
    [reflexivity|reflexivity|].
  unfold quantize.
  replace (negb ((Etiny <=? -2) && (-2 <=? Emax))) with false by reflexivity.
  apply N.eqb_neq in Hc. rewrite Hc.
  destruct (Emax <? adjusted c e); [reflexivity|].
  assert ((prec <? adjusted c e - -2 + 1) = true) as ->
    by (apply Z.ltb_lt; unfold prec; lia).
  reflexivity.
Qed.

(** *** The normalizer as a whole *)

Section WithJson.
Context `{JsonLib}.

Lemma normalize_row_fields tx row :
  normalize_row tx = Ok row ->
  transaction_id row = transactionId tx
  /\ posted_date_raw row = postedDate tx
  /\ type row = tx_type tx
  /\ marketplace_id row = marketplaceId tx
  /\ currency_code row
     = match tx_amount tx with Some a => currencyCode a | None => None end
  /\ order_id row
     = match details tx with Some d => orderId d | None => None end
  /\ reason row
     = match details tx with Some d => details_reason d | None => None end
  /\ raw row = json_dumps tx
  /\ normalize_amount
       match tx_amount tx with Some a => amount_value a | None => None end
     = Ok (amount row).
Proof.
  unfold normalize_row.
  destruct (normalize_amount _) as [a|e]; cbn [bind]; [|congruence].
  intros [= <-]. simpl. destruct (details tx); repeat split; reflexivity.
Qed.

Lemma normalize_rows_lookup txs :
  exists rows,
    normalize_rows txs = Ok rows
    /\ length rows = length txs
    /\ forall k tx, txs !! k = Some tx ->
         exists row, rows !! k = Some row /\ normalize_row tx = Ok row.
Proof.
  induction txs as [|tx txs (rows & IH & Hlen & Hk)]; simpl.
  - exists []. repeat split. intros k tx Hk. now rewrite lookup_nil in Hk.
  - destruct (normalize_row_total tx) as [row Hrow]. rewrite Hrow, IH.
    simpl. exists (row :: rows). split; [reflexivity|].
    split; [simpl; congruence|].
    intros [|k] tx'; simpl.
    + intros [= <-]. eauto.
    + apply Hk.
Qed.

(** X3. The normalizer raises only on a payload whose transactions key
    holds null: the loop over [None] raises TypeError. A payload without
    the key gives the empty list. On a payload with a list it never
    drops, adds or reorders a record: the k-th row is built from the
    k-th transaction, with the identifier, date, type, marketplace,
    currency code, order and reason copied unchanged (absent when the
    enclosing object is absent), the serialized transaction as raw text,
    and the converted amount. *)
Theorem X3_normalizer_keeps_every_record (api_payload : ApiPayload) :
  match transactions api_payload with
  | Null => normalize_transactions api_payload = Raise TypeError
  | NoKey => normalize_transactions api_payload = Ok []
  | Listed txs =>
      exists rows,
        normalize_transactions api_payload = Ok rows
        /\ length rows = length txs
        /\ forall k tx, txs !! k = Some tx ->
             exists row,
               rows !! k = Some row
               /\ transaction_id row = transactionId tx
               /\ posted_date_raw row = postedDate tx
               /\ type row = tx_type tx
               /\ marketplace_id row = marketplaceId tx
               /\ currency_code row
                  = match tx_amount tx with
                    | Some a => currencyCode a
                    | None => None
                    end
               /\ order_id row
                  = match details tx with
                    | Some d => orderId d
                    | None => None
                    end
               /\ reason row
                  = match details tx with
                    | Some d => details_reason d
                    | None => None
                    end
               /\ raw row = json_dumps tx
               /\ normalize_amount
                    match tx_amount tx with
                    | Some a => amount_value a
                    | None => None
                    end
                  = Ok (amount row)
  end.
Proof.
  unfold normalize_transactions, get_transactions.
  destruct (transactions api_payload) as [| |txs]; try reflexivity.
  destruct (normalize_rows_lookup txs) as (rows & Hrows & Hlen & Hk).
  exists rows. split; [assumption|]. split; [assumption|].
  intros k tx Hlook. destruct (Hk k tx Hlook) as (row & Hr & Hrow).
  exists row. split; [assumption|]. now apply normalize_row_fields.
Qed.

End WithJson.

(** *** One record *)

Lemma gt_zero_finite s c e :
  gt (Finite s c e) (Finite false 0 (-2)) = Ok (negb s && (0 <? c)%N).
Proof.
  unfold gt, cmp_finite, signed. f_equal.
  assert (0 < 10 ^ (e - Z.min e (-2))) as Hpow
    by (apply Z.pow_pos_nonneg; lia).
  change (Z.of_N 0) with 0. rewrite Z.mul_0_l.
  destruct (N.ltb_spec 0 c) as [Hc|Hc]; destruct s; simpl;
    match goal with
    | |- context [?a ?= 0] => destruct (Z.compare_spec a 0)
    end; try reflexivity; exfalso; nia.
Qed.

(** More than 370 whole days is at least 371 days. *)
Lemma days_between_threshold now t :
  (370 <? days_between now t) = true
  <-> 371 * microseconds_per_day <= now - t.
Proof.
  unfold days_between, microseconds_per_day. rewrite Z.ltb_lt. split.
  - intros Hd.
    pose proof (Z.mul_div_le (now - t) 86400000000 ltac:(lia)). lia.
  - intros Hd.
    assert (371 <= (now - t) / 86400000000); [|lia].
    apply Z.div_le_lower_bound; lia.
Qed.

Lemma at_currency_rule_warnings now st i tid raw t :
  warnings (at_currency_rule now st i tid raw t)
  = (warnings st
     ++ if 370 <? days_between now t
        then [PostedDateVeryOld i tid raw] else [])%list.
Proof.
  unfold at_currency_rule. destruct (370 <? _); simpl; [reflexivity|].
  now rewrite app_nil_r.
Qed.

Section WithDates.
Context `{DateLib}.

(** The warnings of a record that reaches the currency rule. *)
Lemma validate_row_warnings_at_rule now st i row tid raw t st' :
  present (transaction_id row) = Some tid ->
  tid ∉ seen_ids st ->
  present (posted_date_raw row) = Some raw ->
  _parse_iso_z raw = Some t ->
  t <= now ->
  validate_row now st i row = Ok st' ->
  exists w,
    warnings st'
    = (warnings st
       ++ (if 370 <? days_between now t
           then [PostedDateVeryOld i tid raw] else [])
       ++ option_list w)%list
    /\ (w = None
        \/ (refund_warning i tid row = Ok w
            /\ (forall c, present (currency_code row) = Some c ->
                          ISO_4217_RE_match c = true)
            /\ valid_rows st'
               = (valid_rows st ++ [processed_row row t])%list
            /\ errors st' = errors st)).
Proof.
  intros Hp Hin Hd Hparse Hle.
  rewrite (validate_row_reaches_currency now st i row tid raw t)
    by assumption.
  pose proof (at_currency_rule_warnings now st i tid raw t) as Hw.
  destruct (at_currency_rule_fields now st i tid raw t) as (_ & He & Hv).
  assert (forall st1,
            accept_row (at_currency_rule now st i tid raw t) i tid row t
            = Ok st1 ->
            exists w,
              warnings st1
              = (warnings st
                 ++ (if 370 <? days_between now t
                     then [PostedDateVeryOld i tid raw] else [])
                 ++ option_list w)%list
              /\ refund_warning i tid row = Ok w
              /\ valid_rows st1
                 = (valid_rows st ++ [processed_row row t])%list
              /\ errors st1 = errors st) as Haccept.
  { intros st1 Hacc.
    apply accept_row_Ok in Hacc as (_ & He1 & Hv1 & w & Hrw & Hw1).
    exists w. rewrite Hw1, Hw, He1, Hv1, He, Hv, <- app_assoc. auto. }
  destruct (present (currency_code row)) as [c|] eqn:Hc.
  - destruct (ISO_4217_RE_match c) eqn:Hm; cbn [negb].
    + intros Hacc. destruct (Haccept _ Hacc) as (w & ? & ? & ? & ?).
      exists w. split; [assumption|]. right. repeat split; try assumption.
      intros c' [= <-]. assumption.
    + intros [= <-]. exists None. simpl. rewrite Hw, app_nil_r. auto.
  - intros Hacc. destruct (Haccept _ Hacc) as (w & ? & ? & ? & ?).
    exists w. split; [assumption|]. right. repeat split; try assumption.
    intros c' [=].
Qed.

(** X4. For a record that reaches the age check (identifier new, date
    parsed and not in the future), the very-old-date warning is added
    exactly when the record is at least 371 whole days older than the
    clock reading: 370 days and 23 hours give no warning. *)
Theorem X4_old_date_warning_boundary (now : Z) (st st' : state) (i : nat)
    (row : Row) (tid raw : string) (t : Z) :
  present (transaction_id row) = Some tid ->
  tid ∉ seen_ids st ->
  present (posted_date_raw row) = Some raw ->
  _parse_iso_z raw = Some t ->
  t <= now ->
  validate_row now st i row = Ok st' ->
  exists ws,
    warnings st' = (warnings st ++ ws)%list
    /\ (PostedDateVeryOld i tid raw ∈ ws
        <-> 371 * microseconds_per_day <= now - t).
Proof.
  intros Hp Hin Hd Hparse Hle Hrow.
  destruct (validate_row_warnings_at_rule now st i row tid raw t st')
    as (w & Hw & Hcase); try assumption.
  eexists. split; [exact Hw|].
  rewrite <- days_between_threshold.
  assert (PostedDateVeryOld i tid raw ∉ option_list w) as Hnot.
  { destruct Hcase as [->|(Hrw & _)]; [simpl; set_solver|].
    apply refund_warning_cases in Hrw as [->|(a & _ & ->)]; simpl;
      [set_solver|].
    intros Hin'. apply list_elem_of_singleton in Hin'. discriminate. }
  destruct (370 <? days_between now t); simpl.
  - split; [reflexivity|]. intros _. apply elem_of_cons. now left.
  - split; [|discriminate]. intros Hin'. contradiction.
Qed.

(** X5. For a record that passes the date and currency rules with a
    finite amount, the positive-refund warning is added exactly when the
    type is "refund" in any letter case and the amount is strictly
    positive; with or without the warning the record is kept as valid
    and no error is added. *)
Theorem X5_refund_warning_rule (now : Z) (st : state) (i : nat) (row : Row)
    (tid raw : string) (t : Z) (sg : bool) (c : N) (e : Z) :
  present (transaction_id row) = Some tid ->
  tid ∉ seen_ids st ->
  present (posted_date_raw row) = Some raw ->
  _parse_iso_z raw = Some t ->
  t <= now ->
  (forall cur, present (currency_code row) = Some cur ->
               ISO_4217_RE_match cur = true) ->
  amount row = Some (Finite sg c e) ->
  exists st' ws,
    validate_row now st i row = Ok st'
    /\ valid_rows st' = (valid_rows st ++ [processed_row row t])%list
    /\ errors st' = errors st
    /\ warnings st' = (warnings st ++ ws)%list
    /\ (RefundPositiveAmount i tid (Finite sg c e) ∈ ws
        <-> lower (default "" (present (type row))) = "refund"
            /\ sg = false /\ (0 < c)%N).
Proof.
  intros Hp Hin Hd Hparse Hle Hcur Ha.
  rewrite (validate_row_reaches_currency now st i row tid raw t)
    by assumption.
  pose proof (at_currency_rule_warnings now st i tid raw t) as Hw.
  destruct (at_currency_rule_fields now st i tid raw t) as (_ & He & Hv).
  assert (refund_warning i tid row
          = Ok (if String.eqb (lower (default "" (present (type row))))
                     "refund" && (negb sg && (0 <? c)%N)
                then Some (RefundPositiveAmount i tid (Finite sg c e))
                else None)) as Hrw.
  { unfold refund_warning. rewrite Ha.
    destruct (String.eqb _ "refund"); [|reflexivity].
    rewrite Decimal_zero. cbn [bind]. rewrite gt_zero_finite. cbn [bind].
    reflexivity. }
  destruct (accept_row_of_warning (at_currency_rule now st i tid raw t)
              i tid row t _ Hrw) as (st' & Hacc & _ & He' & Hv' & Hw').
  exists st'. eexists. split.
  { destruct (present (currency_code row)) as [cur|] eqn:Hc;
      [|exact Hacc].
    rewrite (Hcur cur eq_refl). exact Hacc. }
  rewrite Hv', He', Hv, He, Hw', Hw, <- app_assoc.
  do 3 (split; [reflexivity|]).
  rewrite elem_of_app.
  assert (RefundPositiveAmount i tid (Finite sg c e)
          ∉ (if 370 <? days_between now t
             then [PostedDateVeryOld i tid raw] else [])) as Hnot.
  { destruct (370 <? _); [|set_solver].
    intros Hin'. apply list_elem_of_singleton in Hin'. discriminate. }
  destruct (String.eqb _ "refund") eqn:Hty.
  - apply String.eqb_eq in Hty.
    destruct sg; simpl.
    + split; [intros [?|Hin']; [contradiction|inversion Hin']|].
      intros (_ & ? & _). discriminate.
    + destruct (N.ltb_spec 0 c) as [Hc|Hc]; simpl.
      * split; [auto|]. intros _. right. apply elem_of_cons. now left.
      * split; [intros [?|Hin']; [contradiction|inversion Hin']|].
        intros (_ & _ & ?). lia.
  - apply String.eqb_neq in Hty. simpl.
    split; [intros [?|Hin']; [contradiction|inversion Hin']|].
    intros (? & _). contradiction.
Qed.

(** *** A whole batch *)

(** X6. Every row that the validator returns as valid has a non-empty
    identifier, a timestamp that was parsed from the date text of a
    record of the batch and is not after the clock reading, the calendar
    day of that timestamp, a currency code that is absent, empty, or
    three capital letters from A to Z with at most one newline after
    them, and, when its type is "refund", an amount that is not a NaN. *)
Theorem X6_valid_rows_are_well_formed (now : Z) (rows : list Row)
    (valid : list ValidRow) (errs : list error) (warns : list warning)
    (v : ValidRow) :
  validate_transactions now rows = Ok (valid, errs, warns) ->
  v ∈ valid ->
  (exists tid, v_transaction_id v = Some tid /\ tid <> "")
  /\ (exists r raw, r ∈ rows /\ present (posted_date_raw r) = Some raw
                    /\ _parse_iso_z raw = Some (v_posted_date v))
  /\ v_posted_date v <= now
  /\ v_posted_day v = date_of (v_posted_date v)
  /\ (forall c, v_currency_code v = Some c ->
                c = "" \/ three_capitals c
                \/ exists c0, three_capitals c0 /\ c = c0 +:+ newline)
  /\ (lower (default "" (present (v_type v))) = "refund" ->
      forall s sig p, v_amount v <> Some (NaN s sig p)).
Proof.
  unfold validate_transactions.
  destruct (validate_loop now init 1 rows) as [st|e] eqn:Hloop; simpl;
    [|congruence].
  intros [= <- <- <-] Hv.
  destruct (valid_rows_origin now rows st Hloop v Hv)
    as (j & rj & tid & t & Hj & [(rj' & Hj' & Hid) _] & Hacc & ->).
  assert (rj' = rj) as -> by congruence.
  destruct Hacc as ((raw & Hraw & Hparse) & Hle & Hcur & Hnan). simpl.
  split.
  { exists tid. unfold id_of in Hid. now apply present_Some in Hid. }
  split.
  { exists rj, raw. split; [|auto]. eapply list_elem_of_lookup_2; eauto. }
  split; [assumption|]. split; [reflexivity|]. split.
  - intros c Hc. destruct (String.eqb_spec c "") as [|Hne]; [now left|].
    right. apply ISO_4217_RE_match_shape, Hcur. rewrite Hc.
    now apply present_nonempty.
  - intros Hty s sig p Ha. apply Hnan. split; [assumption|]. eauto.
Qed.

(** X7. When the first record that carries an identifier is rejected by
    the date rules or the currency rule, no valid row carries that
    identifier: a later record with the same identifier is reported as
    a duplicate even though the first one was not kept. *)
Theorem X7_rejected_first_record_blocks_identifier (now : Z)
    (rows : list Row) (valid : list ValidRow) (errs : list error)
    (warns : list warning) (j : nat) (rj : Row) (tid : string) :
  validate_transactions now rows = Ok (valid, errs, warns) ->
  rows !! j = Some rj ->
  first_occurrence rows j tid ->
  rejected_after_id now rj ->
  (forall v, v ∈ valid -> v_transaction_id v <> Some tid)
  /\ (forall k, later_occurrence rows k tid ->
                DuplicateTransactionId (S k) tid ∈ errs).
Proof.
  unfold validate_transactions.
  destruct (validate_loop now init 1 rows) as [st|e] eqn:Hloop; simpl;
    [|congruence].
  intros [= <- <- <-] Hj Hfirst Hrej. split.
  - intros v Hv Hvid.
    destruct (valid_rows_origin now rows st Hloop v Hv)
      as (j' & rj' & tid' & t & Hj' & Hfirst' & Hacc & ->).
    simpl in Hvid.
    assert (tid' = tid) as ->.
    { destruct Hfirst' as [(r & Hr & Hid) _].
      assert (r = rj') as -> by congruence.
      destruct Hfirst as [(r0 & Hr0 & Hid0) _].
      assert (r0 = rj) as -> by congruence.
      unfold id_of in Hid. rewrite Hvid in Hid.
      apply present_Some in Hid0 as [_ Hne].
      rewrite (present_nonempty tid Hne) in Hid. congruence. }
    assert (j' = j) as -> by (eapply first_occurrence_unique; eauto).
    assert (rj' = rj) as -> by congruence.
    destruct Hacc as ((raw & Hraw & Hparse) & Hle & Hcur & _).
    destruct Hrej as [Hnone|(raw' & Hraw' & Hrej)]; [congruence|].
    assert (raw' = raw) as -> by congruence.
    destruct Hrej as [Hnone|(t' & Hparse' & Hrej)]; [congruence|].
    assert (t' = t) as -> by congruence.
    destruct Hrej as [Hlt|(c & Hc & Hbad)]; [lia|].
    rewrite (Hcur c Hc) in Hbad. discriminate.
  - intros k Hlater.
    apply (inv_duplicate _ _ (validate_loop_inv now rows st Hloop) k tid
             Hlater).
Qed.

(** The warnings of one iteration: at most two, tagged with its index. *)
Lemma validate_row_warnings now st i row st' :
  validate_row now st i row = Ok st' ->
  exists ws,
    warnings st' = (warnings st ++ ws)%list
    /\ (length ws <= 2)%nat
    /\ Forall (fun w => warning_index w = i) ws.
Proof.
  destruct (present (transaction_id row)) as [tid|] eqn:Hp.
  2:{ rewrite validate_row_missing_id by assumption. intros [= <-].
      exists []. simpl. rewrite app_nil_r. auto. }
  destruct (decide (tid ∈ seen_ids st)) as [Hin|Hin].
  { rewrite (validate_row_duplicate now st i row tid) by assumption.
    intros [= <-]. exists []. simpl. rewrite app_nil_r. auto. }
  destruct (present (posted_date_raw row)) as [raw|] eqn:Hd.
  2:{ rewrite (validate_row_missing_date now st i row tid) by assumption.
      intros [= <-]. exists []. simpl. rewrite app_nil_r. auto. }
  destruct (_parse_iso_z raw) as [t|] eqn:Hparse.
  2:{ rewrite (validate_row_bad_date now st i row tid raw) by assumption.
      intros [= <-]. exists []. simpl. rewrite app_nil_r. auto. }
  destruct (Z_lt_le_dec now t) as [Hlt|Hle].
  { rewrite (validate_row_future now st i row tid raw t) by assumption.
    intros [= <-]. exists []. simpl. rewrite app_nil_r. auto. }
  intros Hrow.
  destruct (validate_row_warnings_at_rule now st i row tid raw t st')
    as (w & Hw & Hcase); try assumption.
  eexists. split; [exact Hw|].
  assert (w = None \/ exists a, w = Some (RefundPositiveAmount i tid a))
    as Hshape.
  { destruct Hcase as [->|(Hrw & _)]; [now left|].
    apply refund_warning_cases in Hrw as [->|(a & _ & ->)]; eauto. }
  destruct (370 <? days_between now t);
    destruct Hshape as [->|(a & ->)]; simpl;
    (split; [lia|repeat constructor]).
Qed.

Lemma validate_loop_counts now rows :
  forall st i st',
    validate_loop now st i rows = Ok st' ->
    exists es ws,
      errors st' = (errors st ++ es)%list
      /\ warnings st' = (warnings st ++ ws)%list
      /\ Forall (fun e => (i <= error_index e < i + length rows)%nat) es
      /\ Forall (fun w => (i <= warning_index w < i + length rows)%nat) ws
      /\ (length ws <= 2 * length rows)%nat.
Proof.
  induction rows as [|row rows IH]; intros st i st'; simpl.
  - intros [= <-]. exists [], []. rewrite !app_nil_r. auto.
  - destruct (validate_row now st i row) as [st1|e] eqn:Hrow; simpl;
      [|congruence].
    intros Hloop.
    destruct (IH _ _ _ Hloop) as (es & ws & He & Hw & Hes & Hws & Hlen).
    destruct (validate_row_warnings _ _ _ _ _ Hrow) as (ws1 & Hw1 & Hl1 & Hi1).
    assert (exists es1, errors st1 = (errors st ++ es1)%list
                        /\ Forall (fun e => error_index e = i) es1)
      as (es1 & He1 & Hei1).
    { apply validate_row_cases in Hrow
        as [[_ ->]
           |[(tid & _ & _ & ->)
            |(tid & _ & _ & _ & [(e & Hi & _ & -> & _)|(-> & _)])]];
        simpl; try (eexists; split; [reflexivity|]; repeat constructor).
      - assumption.
      - exists []. rewrite app_nil_r. auto. }
    exists (es1 ++ es)%list, (ws1 ++ ws)%list.
    rewrite He, Hw, He1, Hw1, <- !app_assoc.
    do 2 (split; [reflexivity|]).
    split; [|split].
    + apply Forall_app. split.
      * eapply Forall_impl; [exact Hei1|]. simpl. intros. lia.
      * eapply Forall_impl; [exact Hes|]. simpl. intros. lia.
    + apply Forall_app. split.
      * eapply Forall_impl; [exact Hi1|]. simpl. intros. lia.
      * eapply Forall_impl; [exact Hws|]. simpl. intros. lia.
    + rewrite length_app. lia.
Qed.

Lemma filter_index_none (ws : list warning) k :
  Forall (fun w => warning_index w <> k) ws ->
  filter (fun w => warning_index w = k) ws = [].
Proof.
  induction 1 as [|w ws Hw _ IH]; [reflexivity|].
  rewrite filter_cons_False by assumption. exact IH.
Qed.

(** The warnings of the loop, counted record by record. *)
Lemma validate_loop_warnings_per_record now rows :
  forall st i st',
    validate_loop now st i rows = Ok st' ->
    exists ws,
      warnings st' = (warnings st ++ ws)%list
      /\ Forall (fun w => (i <= warning_index w)%nat) ws
      /\ forall k,
           (length (filter (fun w => warning_index w = k) ws) <= 2)%nat.
Proof.
  induction rows as [|row rows IH]; intros st i st'; simpl.
  - intros [= <-]. exists []. rewrite app_nil_r.
    split; [reflexivity|]. split; [constructor|]. intros k. simpl. lia.
  - destruct (validate_row now st i row) as [st1|e] eqn:Hrow; simpl;
      [|congruence].
    intros Hloop. destruct (IH _ _ _ Hloop) as (ws & Hw & Hws & Hper).
    destruct (validate_row_warnings _ _ _ _ _ Hrow)
      as (ws1 & Hw1 & Hl1 & Hi1).
    exists (ws1 ++ ws)%list. rewrite Hw, Hw1, <- app_assoc.
    split; [reflexivity|]. split.
    + apply Forall_app. split.
      * eapply Forall_impl; [exact Hi1|]. simpl. intros. lia.
      * eapply Forall_impl; [exact Hws|]. simpl. intros. lia.
    + intros k. rewrite filter_app, length_app.
      destruct (decide (k = i)) as [->|Hne].
      * rewrite (filter_index_none ws i).
        -- pose proof (length_filter (fun w => warning_index w = i) ws1).
           simpl. lia.
        -- eapply Forall_impl; [exact Hws|]. simpl. intros. lia.
      * rewrite (filter_index_none ws1 k).
        -- simpl. apply Hper.
        -- eapply Forall_impl; [exact Hi1|]. simpl. intros. lia.
Qed.

Lemma StronglySorted_lt_NoDup (l : list nat) : StronglySorted lt l -> NoDup l.
Proof.
  induction 1 as [|x l _ IH Hall]; constructor; [|assumption].
  intros Hin. rewrite Forall_forall in Hall. specialize (Hall x Hin). lia.
Qed.

(** X8. Every record of a batch is accounted for exactly once: the valid
    rows and the errors together are as many as the records, each error
    names the position (from 1) of a record of the batch, no two errors
    name the same position, every warning names a position of the batch,
    and no position is named by more than two warnings. *)
Theorem X8_one_outcome_per_record (now : Z) (rows : list Row)
    (valid : list ValidRow) (errs : list error) (warns : list warning) :
  validate_transactions now rows = Ok (valid, errs, warns) ->
  (length valid + length errs = length rows)%nat
  /\ Forall (fun e => (1 <= error_index e <= length rows)%nat) errs
  /\ NoDup (map error_index errs)
  /\ Forall (fun w => (1 <= warning_index w <= length rows)%nat) warns
  /\ (forall i,
        (length (filter (fun w => warning_index w = i) warns) <= 2)%nat)
  /\ (length warns <= 2 * length rows)%nat.
Proof.
  unfold validate_transactions.
  destruct (validate_loop now init 1 rows) as [st|e] eqn:Hloop; simpl;
    [|congruence].
  intros [= <- <- <-].
  pose proof (validate_loop_partition now rows _ _ _ Hloop) as Hpart.
  pose proof (validate_loop_inv now rows st Hloop) as Hinv.
  destruct (validate_loop_counts now rows _ _ _ Hloop)
    as (es & ws & He & Hw & Hes & Hws & Hlen).
  simpl in Hpart, He, Hw. subst es ws.
  split; [lia|]. split.
  { eapply Forall_impl; [exact Hes|]. simpl. intros. lia. }
  split.
  { apply StronglySorted_lt_NoDup, (inv_error_order _ _ Hinv). }
  split.
  { eapply Forall_impl; [exact Hws|]. simpl. intros. lia. }
  split; [|assumption].
  destruct (validate_loop_warnings_per_record now rows _ _ _ Hloop)
    as (ws & Hw & _ & Hper).
  simpl in Hw. subst ws. exact Hper.
Qed.

End WithDates.

(** *** validate_and_report *)

Section WithLibraries.
Context `{JsonLib} `{DateLib}.

(** X9. When validate_and_report returns, the flag it returns is true
    exactly when fewer rows are valid than the payload has transactions;
    the rows it returns are those of the validator run on the normalized
    payload; and the last two things it writes are the summary line,
    whose three counts add up (rows = valid + invalid), and the closing
    log record. *)
Theorem X9_report_flag_and_counts (now : Z) (api_payload : ApiPayload)
    (valid : list ValidRow) (has_errors : bool) (out : list output) :
  validate_and_report now api_payload = (Ok (valid, has_errors), out) ->
  let n := length (default [] (get_transactions api_payload)) in
  (has_errors = true <-> (length valid < n)%nat)
  /\ (has_errors = false <-> length valid = n)
  /\ (exists rows errs warns,
        normalize_transactions api_payload = Ok rows
        /\ validate_transactions now rows = Ok (valid, errs, warns)
        /\ has_errors = negb (Nat.eqb (length errs) 0))
  /\ exists out' invalid,
       out = (out' ++ [PrintSummary n (length valid) invalid;
                       LogCompleted (length valid) n])%list
       /\ n = (length valid + invalid)%nat.
Proof.
  unfold validate_and_report, normalize_transactions.
  destruct (get_transactions api_payload) as [txs|]; [|congruence].
  destruct (normalize_rows_lookup txs) as (rows & Hrows & Hlen & _).
  rewrite Hrows. cbn [from_option id].
  destruct (validate_transactions now rows) as [[[vs errs] warns]|e]
    eqn:Hval; [|congruence].
  intros [= <- <- <-]. rewrite <- Hlen.
  pose proof (validate_transactions_partition now rows vs errs warns Hval)
    as Hpart.
  split.
  { rewrite Nat.ltb_lt. lia. }
  split.
  { rewrite Nat.ltb_ge. lia. }
  split.
  { exists rows, errs, warns. split; [reflexivity|]. split; [assumption|].
    destruct (length errs); reflexivity. }
  exists ([LogStarted; PrintTitle; LogNormalized (length rows)]
          ++ log_validation_results (length rows) (length vs) errs warns
          ++ print_section PrintWarningsTitle PrintWarning warns
          ++ print_section PrintErrorsTitle PrintError errs)%list,
         (length errs).
  split; [|lia]. unfold log_validation_results. simpl.
  rewrite <- !app_assoc. reflexivity.
Qed.

End WithLibraries.

End ValidatorExtras.

(** ** The same properties at concrete records *)

Module ValidatorExtrasExamples.
Import Validator Report ValidatorFacts ValidatorExtras Sample Cases.

(** 19.995 is a tie between 19.99 and 20.00 and goes to the even
    coefficient 2000. *)
Lemma X1_amount_rounds_to_nearest_cent_witness :
  exists c',
    Finite false 2000 (-2) = Finite false c' (-2)
    /\ (-2 <= -3 -> Z.of_N c' = Z.of_N 19995 * 10 ^ (-3 + 2))
    /\ (-3 < -2 ->
        2 * Z.abs (Z.of_N 19995 - Z.of_N c' * 10 ^ (-2 - -3))
        <= 10 ^ (-2 - -3)
        /\ (2 * Z.abs (Z.of_N 19995 - Z.of_N c' * 10 ^ (-2 - -3))
            = 10 ^ (-2 - -3)
            -> N.even c' = true)).
Proof.
  apply (X1_amount_rounds_to_nearest_cent "19.995" false 19995 (-3)
           (Finite false 2000 (-2))); reflexivity.
Defined.

(** The amount string "1e26" is dropped. *)
Lemma X2_unrepresentable_amount_is_dropped_witness :
  normalize_amount (Some "1e26") = Ok None.
Proof.
  apply (X2_unrepresentable_amount_is_dropped "1e26" (Finite false 1 26));
    [reflexivity|].
  right; right. exists false, 1%N, 26.
  split; [reflexivity|]. split; [discriminate|]. vm_compute. discriminate.
Defined.

(** 371 days old: the warning. One second less: none. *)
Lemma X4_old_date_warning_boundary_witness :
  (exists ws,
     [PostedDateVeryOld 1 "tx-1" "2024-08-26T00:00:00Z"] = ([] ++ ws)%list
     /\ (PostedDateVeryOld 1 "tx-1" "2024-08-26T00:00:00Z" ∈ ws
         <-> 371 * microseconds_per_day
             <= sample_now - 1724630400000000))
  /\ (exists ws,
        [] = ([] ++ ws)%list
        /\ (PostedDateVeryOld 1 "tx-1" "2024-08-26T00:00:01Z" ∈ ws
            <-> 371 * microseconds_per_day
                <= sample_now - 1724630401000000)).
Proof.
  assert (Hseen : "tx-1" ∉ seen_ids init) by set_solver.
  split.
  - apply (X4_old_date_warning_boundary sample_now init
             (add_valid
                (add_warning (add_seen init "tx-1")
                   (PostedDateVeryOld 1 "tx-1" "2024-08-26T00:00:00Z"))
                (processed_row day_371_row 1724630400000000))
             1 day_371_row "tx-1" "2024-08-26T00:00:00Z" 1724630400000000);
      [reflexivity | exact Hseen | reflexivity | reflexivity | discriminate
      | reflexivity].
  - apply (X4_old_date_warning_boundary sample_now init
             (add_valid (add_seen init "tx-1")
                (processed_row day_370_row 1724630401000000))
             1 day_370_row "tx-1" "2024-08-26T00:00:01Z" 1724630401000000);
      [reflexivity | exact Hseen | reflexivity | reflexivity | discriminate
      | reflexivity].
Defined.

(** A "REFUND" of +5.00 is kept, with the warning. *)
Lemma X5_refund_warning_rule_witness :
  exists st' ws,
    validate_row sample_now init 1 positive_refund_row = Ok st'
    /\ valid_rows st'
       = ([] ++ [processed_row positive_refund_row 1756561200000000])%list
    /\ errors st' = []
    /\ warnings st' = ([] ++ ws)%list
    /\ (RefundPositiveAmount 1 "tx-r" (Finite false 500 (-2)) ∈ ws
        <-> lower (default "" (present (type positive_refund_row)))
            = "refund"
            /\ false = false /\ (0 < 500)%N).
Proof.
  apply (X5_refund_warning_rule sample_now init 1 positive_refund_row
           "tx-r" "2025-08-30T13:40:00Z" 1756561200000000 false 500 (-2));
    [reflexivity | set_solver | reflexivity | reflexivity | discriminate
    | | reflexivity].
  intros cur [= <-]. reflexivity.
Defined.

(** A body whose transactions key holds null. *)
Lemma X3_normalizer_keeps_every_record_witness :
  normalize_transactions null_payload = Raise TypeError.
Proof. exact (X3_normalizer_keeps_every_record null_payload). Defined.

(** validate_and_report stops there, after its first two lines. *)
Example null_transactions_are_not_reported :
  validate_and_report sample_now null_payload
  = (Raise TypeError, [LogStarted; PrintTitle]).
Proof. reflexivity. Qed.

(** The first valid row of the batch with a repeated identifier. *)
Lemma X6_valid_rows_are_well_formed_witness :
  let v := processed_row (sample_row "tx-1" "2025-08-30T12:15:00Z" "USD")
             1756556100000000 in
  (exists tid, v_transaction_id v = Some tid /\ tid <> "")
  /\ (exists r raw, r ∈ duplicate_batch
                    /\ present (posted_date_raw r) = Some raw
                    /\ _parse_iso_z raw = Some (v_posted_date v))
  /\ v_posted_date v <= sample_now
  /\ v_posted_day v = date_of (v_posted_date v)
  /\ (forall c, v_currency_code v = Some c ->
                c = "" \/ three_capitals c
                \/ exists c0, three_capitals c0 /\ c = c0 +:+ newline)
  /\ (lower (default "" (present (v_type v))) = "refund" ->
      forall s sig p, v_amount v <> Some (NaN s sig p)).
Proof.
  apply (X6_valid_rows_are_well_formed sample_now duplicate_batch
           [processed_row (sample_row "tx-1" "2025-08-30T12:15:00Z" "USD")
              1756556100000000;
            processed_row (sample_row "tx-2" "2025-08-30T13:40:00Z" "USD")
              1756561200000000]
           [DuplicateTransactionId 2 "tx-1"; MissingTransactionId 3] []);
    [reflexivity|].
  apply elem_of_cons. now left.
Defined.

(** The first "tx-1" is in the future: the well-formed second "tx-1" is a
    duplicate, and the only valid row is "tx-2". *)
Lemma X7_rejected_first_record_blocks_identifier_witness :
  v_transaction_id
    (processed_row (sample_row "tx-2" "2025-08-30T13:40:00Z" "USD")
       1756561200000000) <> Some "tx-1"
  /\ DuplicateTransactionId 2 "tx-1"
     ∈ [PostedDateInFuture 1 "tx-1" "2025-09-01T00:00:01Z";
        DuplicateTransactionId 2 "tx-1"].
Proof.
  destruct (X7_rejected_first_record_blocks_identifier sample_now
              blocked_batch
              [processed_row (sample_row "tx-2" "2025-08-30T13:40:00Z" "USD")
                 1756561200000000]
              [PostedDateInFuture 1 "tx-1" "2025-09-01T00:00:01Z";
               DuplicateTransactionId 2 "tx-1"] []
              0%nat future_row "tx-1") as [Hvalid Hdup].
  - reflexivity.
  - reflexivity.
  - split.
    + exists future_row. split; reflexivity.
    + intros k rk Hlt. lia.
  - right. exists "2025-09-01T00:00:01Z". split; [reflexivity|].
    right. exists 1756684801000000. split; [reflexivity|].
    left. reflexivity.
  - split.
    + apply Hvalid. apply elem_of_cons. now left.
    + apply (Hdup 1%nat). split.
      * eexists. split; reflexivity.
      * exists 0%nat, future_row. split; [lia|]. split; reflexivity.
Defined.

(** One old refund with a positive amount: one valid row, no error, and
    two warnings for item 1. *)
Lemma X8_one_outcome_per_record_witness :
  validate_transactions sample_now [old_positive_refund_row]
  = Ok ([processed_row old_positive_refund_row 1722470400000000], [],
        old_positive_refund_warnings)
  /\ (1 + 0 = 1)%nat
  /\ Forall (fun w => (1 <= warning_index w <= 1)%nat)
       old_positive_refund_warnings
  /\ (forall i,
        (length (filter (fun w => warning_index w = i)
                   old_positive_refund_warnings) <= 2)%nat)
  /\ (2 <= 2 * 1)%nat.
Proof.
  assert (validate_transactions sample_now [old_positive_refund_row]
          = Ok ([processed_row old_positive_refund_row 1722470400000000],
                [], old_positive_refund_warnings)) as Hrun
    by (vm_compute; reflexivity).
  destruct (X8_one_outcome_per_record sample_now _ _ _ _ Hrun)
    as (Hcount & _ & _ & Hwarn & Hper & Hlen).
  split; [exact Hrun|]. split; [exact Hcount|]. split; [exact Hwarn|].
  split; [exact Hper|exact Hlen].
Defined.

(** The same transaction twice: one valid row, and the flag is set. *)
Lemma X9_report_flag_and_counts_witness :
  exists valid out out',
    validate_and_report sample_now (payload_of [tx_mock_001; tx_mock_001])
    = (Ok (valid, true), out)
    /\ length valid = 1%nat
    /\ out = (out' ++ [PrintSummary 2 1 1; LogCompleted 1 2])%list.
Proof.
  pose proof (X9_report_flag_and_counts sample_now
                (payload_of [tx_mock_001; tx_mock_001])) as Hreport.
  destruct (validate_and_report sample_now
              (payload_of [tx_mock_001; tx_mock_001]))
    as [[[valid flag]|e] out] eqn:Hrun; [|discriminate Hrun].
  specialize (Hreport valid flag out eq_refl).
  vm_compute in Hrun. injection Hrun as <- <- <-.
  destruct Hreport as (_ & _ & _ & out' & invalid & Hout & Hn).
  simpl in Hn. assert (invalid = 1%nat) as -> by lia.
  do 2 eexists. exists out'. split; [reflexivity|]. split; [reflexivity|].
  exact Hout.
Defined.

End ValidatorExtrasExamples.

(** ** The store: batches, and reading back *)

Module DatabaseExtras.
Import Validator Report ValidatorFacts BatchFacts Database DatabaseFacts.
Import Queries.

Section WithColumns.
Context `{PgLib}.

(** *** Proposed rows applied in sequence *)

Lemma fold_upsert_other now exs :
  forall (tbl : table) k,
    k ∉ map ex_transaction_id exs ->
    fold_left (upsert_row now) exs tbl !! k = tbl !! k.
Proof.
  induction exs as [|ex exs IH]; intros tbl k Hk; simpl; [reflexivity|].
  simpl in Hk. apply not_elem_of_cons in Hk as [Hne Hk].
  rewrite IH by assumption. now apply upsert_row_other.
Qed.

Lemma upsert_row_created now (tbl : table) ex k :
  match upsert_row now tbl ex !! k with
  | Some r => created_at r
  | None => now
  end
  = match tbl !! k with Some r => created_at r | None => now end.
Proof.
  destruct (decide (k = ex_transaction_id ex)) as [->|Hne].
  - unfold upsert_row, table in *.
    destruct (tbl !! ex_transaction_id ex) as [old|];
      now rewrite lookup_insert_eq.
  - now rewrite upsert_row_other.
Qed.

Lemma fold_upsert_created now exs :
  forall (tbl : table) k,
    match fold_left (upsert_row now) exs tbl !! k with
    | Some r => created_at r
    | None => now
    end
    = match tbl !! k with Some r => created_at r | None => now end.
Proof.
  induction exs as [|ex exs IH]; intros tbl k; simpl; [reflexivity|].
  rewrite IH. apply upsert_row_created.
Qed.

(** The row under a key is the one proposed last for it. *)
Lemma fold_upsert_last now e1 ex e2 (tbl : table) :
  ex_transaction_id ex ∉ map ex_transaction_id e2 ->
  exists row,
    fold_left (upsert_row now) (e1 ++ ex :: e2) tbl !! ex_transaction_id ex
    = Some row
    /\ posted_date row = ex_posted_date ex
    /\ posted_day row = ex_posted_day ex
    /\ s_type row = ex_type ex
    /\ s_currency_code row = ex_currency_code ex
    /\ s_amount row = ex_amount ex
    /\ s_marketplace_id row = ex_marketplace_id ex
    /\ s_order_id row = ex_order_id ex
    /\ s_reason row = ex_reason ex
    /\ s_raw row = ex_raw ex
    /\ updated_at row = now
    /\ created_at row
       = match tbl !! ex_transaction_id ex with
         | Some old => created_at old
         | None => now
         end.
Proof.
  intros Hlast. rewrite fold_left_app. simpl.
  rewrite fold_upsert_other by assumption.
  destruct (upsert_row_lookup now (fold_left (upsert_row now) e1 tbl) ex)
    as (row & Hrow & H1 & H2 & H3 & H4 & H5 & H6 & H7 & H8 & H9 & H10 & H11).
  exists row. rewrite H11, fold_upsert_created. tauto.
Qed.

Lemma last_occurrence_split (exs : list Excluded) k :
  k ∈ map ex_transaction_id exs ->
  exists e1 ex e2,
    exs = (e1 ++ ex :: e2)%list /\ ex_transaction_id ex = k
    /\ k ∉ map ex_transaction_id e2.
Proof.
  induction exs as [|a exs IH]; simpl; [intros Hin; inversion Hin|].
  intros Hin.
  destruct (decide (k ∈ map ex_transaction_id exs)) as [Hrest|Hrest].
  - destruct (IH Hrest) as (e1 & ex & e2 & -> & Hk & Hlast).
    exists (a :: e1), ex, e2. auto.
  - apply elem_of_cons in Hin as [->|Hin]; [|contradiction].
    exists [], a, exs. auto.
Qed.

Lemma fold_upsert_present now exs (tbl : table) k :
  k ∈ map ex_transaction_id exs ->
  is_Some (fold_left (upsert_row now) exs tbl !! k).
Proof.
  intros Hin.
  destruct (last_occurrence_split exs k Hin) as (e1 & ex & e2 & -> & <- & Hl).
  destruct (fold_upsert_last now e1 ex e2 tbl Hl) as (row & -> & _). eauto.
Qed.

Lemma fold_upsert_size_present now exs :
  forall tbl : table,
    (forall k, k ∈ map ex_transaction_id exs -> is_Some (tbl !! k)) ->
    size (fold_left (upsert_row now) exs tbl) = size tbl.
Proof.
  induction exs as [|ex exs IH]; intros tbl Hall; simpl; [reflexivity|].
  rewrite IH.
  - rewrite upsert_row_size.
    destruct (Hall (ex_transaction_id ex)) as [old ->]; [|reflexivity].
    simpl. apply elem_of_cons. now left.
  - intros k Hk.
    destruct (decide (k = ex_transaction_id ex)) as [->|Hne].
    + destruct (upsert_row_lookup now tbl ex) as (row & -> & _). eauto.
    + rewrite upsert_row_other by assumption. apply Hall. simpl.
      apply elem_of_cons. now right.
Qed.

(** *** One statement *)

(** A statement succeeds exactly on keys that are pairwise different and
    not yet touched, whatever the table holds. *)
Lemma upsert_rows_Ok now exs :
  forall touched (tbl tbl' : table),
    upsert_rows now touched tbl exs = Ok tbl' ->
    NoDup (map ex_transaction_id exs)
    /\ (forall k, k ∈ map ex_transaction_id exs -> k ∉ touched)
    /\ forall now2 (tbl2 : table),
         upsert_rows now2 touched tbl2 exs
         = Ok (fold_left (upsert_row now2) exs tbl2).
Proof.
  induction exs as [|ex exs IH]; intros touched tbl tbl'; simpl.
  - intros _. split; [constructor|]. split; [|reflexivity].
    intros k Hk. inversion Hk.
  - destruct (bool_decide (ex_transaction_id ex ∈ touched)) eqn:Hb;
      [congruence|].
    apply bool_decide_eq_false in Hb. intros Hrest.
    destruct (IH _ _ _ Hrest) as (Hnd & Hdisj & Hfold).
    split; [constructor; [|assumption]|split].
    + intros Hin. apply Hdisj in Hin. apply Hin.
      apply elem_of_union_l. now apply elem_of_singleton.
    + intros k Hk. apply elem_of_cons in Hk as [->|Hk]; [assumption|].
      apply Hdisj in Hk. intros Hin. apply Hk. now apply elem_of_union_r.
    + intros now2 tbl2. apply Hfold.
Qed.

Lemma upsert_rows_NoDup now exs :
  forall touched (tbl : table),
    NoDup (map ex_transaction_id exs) ->
    (forall k, k ∈ map ex_transaction_id exs -> k ∉ touched) ->
    upsert_rows now touched tbl exs
    = Ok (fold_left (upsert_row now) exs tbl).
Proof.
  induction exs as [|ex exs IH]; intros touched tbl Hnd Hdisj; simpl;
    [reflexivity|].
  simpl in Hnd. apply NoDup_cons in Hnd as [Hnew Hnd].
  rewrite bool_decide_eq_false_2.
  - apply IH; [assumption|]. intros k Hk.
    assert (k ∉ touched) as Hfree
      by (apply Hdisj; simpl; apply elem_of_cons; auto).
    intros Hin. apply elem_of_union in Hin as [Hin|Hin]; [|contradiction].
    apply elem_of_singleton in Hin as ->. contradiction.
  - apply Hdisj. simpl. apply elem_of_cons. now left.
Qed.

Lemma upsert_rows_raises now exs :
  forall touched (tbl : table) e,
    upsert_rows now touched tbl exs = Raise e -> e = DatabaseError.
Proof.
  induction exs as [|ex exs IH]; intros touched tbl e; simpl; [congruence|].
  destruct (bool_decide _); [congruence|]. apply IH.
Qed.

(** *** Adapting the tuples *)

Lemma adapt_all_app l1 l2 exs :
  adapt_all (l1 ++ l2) = Ok exs
  <-> exists e1 e2, adapt_all l1 = Ok e1 /\ adapt_all l2 = Ok e2
                    /\ exs = (e1 ++ e2)%list.
Proof.
  revert exs. induction l1 as [|v l1 IH]; intros exs; simpl.
  - split; [intros Hl; exists [], exs; auto|].
    intros (e1 & e2 & [= <-] & Hl & ->). assumption.
  - destruct (adapt v) as [ex|e]; cbn [bind].
    2:{ split; [congruence|]. intros (e1 & e2 & ? & _). congruence. }
    destruct (adapt_all (l1 ++ l2)) as [exs'|e] eqn:Happ; cbn [bind].
    + destruct (proj1 (IH exs') eq_refl) as (e1 & e2 & -> & H2 & ->).
      cbn [bind]. split.
      * intros [= <-]. exists (ex :: e1), e2. auto.
      * intros (e1' & e2' & [= <-] & H2' & ->). simpl. congruence.
    + split; [congruence|].
      intros (e1 & e2 & H1 & H2 & ->).
      destruct (adapt_all l1) as [e1'|]; cbn [bind] in H1; [|congruence].
      assert (Raise e = Ok (e1' ++ e2)%list) as Habs; [|discriminate Habs].
      apply IH. eauto.
Qed.

Lemma adapt_all_keys values exs :
  adapt_all values = Ok exs ->
  map ex_transaction_id exs = map val_transaction_id values.
Proof.
  revert exs. induction values as [|v values IH]; intros exs; simpl.
  - now intros [= <-].
  - destruct (adapt v) as [ex|e] eqn:Hv; cbn [bind]; [|congruence].
    destruct (adapt_all values) as [exs'|e]; cbn [bind]; [|congruence].
    intros [= <-]. simpl. apply adapt_Ok in Hv as (-> & _).
    f_equal. now apply IH.
Qed.

Lemma adapt_all_cons_inv v values exs :
  adapt_all (v :: values) = Ok exs ->
  exists ex exs', adapt v = Ok ex /\ adapt_all values = Ok exs'
                  /\ exs = ex :: exs'.
Proof.
  simpl. destruct (adapt v) as [ex|e]; cbn [bind]; [|congruence].
  destruct (adapt_all values) as [exs'|e]; cbn [bind]; [|congruence].
  intros [= <-]. eauto.
Qed.

(** *** Pages *)

Lemma pages_concat {A} page_size :
  (0 < page_size)%nat ->
  forall fuel (l : list A),
    (length l <= fuel)%nat -> concat (pages fuel page_size l) = l.
Proof.
  intros Hpos. induction fuel as [|fuel IH]; intros l Hlen.
  - destruct l; [reflexivity|simpl in Hlen; lia].
  - destruct l as [|x l]; [reflexivity|].
    cbn [pages concat]. rewrite IH; [apply take_drop|].
    rewrite length_drop. simpl in *. lia.
Qed.

Lemma pages_single {A} page_size (l : list A) :
  l <> [] -> (length l <= page_size)%nat ->
  pages (length l) page_size l = [l].
Proof.
  intros Hne Hlen. destruct l as [|x l]; [congruence|].
  cbn [length pages]. rewrite take_ge, drop_ge by assumption.
  destruct (length l); reflexivity.
Qed.

Lemma execute_pages_Ok now ps :
  forall tbl tbl' : table,
    execute_pages now tbl ps = Ok tbl' ->
    exists exs,
      adapt_all (concat ps) = Ok exs
      /\ forall now2 (tbl2 : table),
           execute_pages now2 tbl2 ps
           = Ok (fold_left (upsert_row now2) exs tbl2).
Proof.
  induction ps as [|page ps IH]; intros tbl tbl'; simpl.
  - intros _. exists []. split; reflexivity.
  - unfold execute_statement.
    destruct (adapt_all page) as [e1|e] eqn:Hp; cbn [bind]; [|congruence].
    destruct (upsert_rows now ∅ tbl e1) as [tbl1|e] eqn:Hu; cbn [bind];
      [|congruence].
    intros Hrest. destruct (IH _ _ Hrest) as (e2 & Hc & Hf).
    exists (e1 ++ e2)%list. split; [apply adapt_all_app; eauto|].
    intros now2 tbl2.
    destruct (upsert_rows_Ok _ _ _ _ _ Hu) as (_ & _ & Hfold).
    rewrite Hfold. cbn [bind]. rewrite Hf, fold_left_app. reflexivity.
Qed.

Lemma execute_pages_NoDup now ps :
  forall exs (tbl : table),
    adapt_all (concat ps) = Ok exs ->
    NoDup (map ex_transaction_id exs) ->
    execute_pages now tbl ps = Ok (fold_left (upsert_row now) exs tbl).
Proof.
  induction ps as [|page ps IH]; intros exs tbl; simpl.
  - now intros [= <-] _.
  - intros Hall Hnd.
    apply adapt_all_app in Hall as (e1 & e2 & H1 & H2 & ->).
    rewrite map_app in Hnd. apply NoDup_app in Hnd as (Hnd1 & _ & Hnd2).
    unfold execute_statement. rewrite H1. cbn [bind].
    rewrite (upsert_rows_NoDup now e1 ∅ tbl Hnd1) by set_solver.
    cbn [bind]. rewrite (IH e2) by assumption.
    now rewrite fold_left_app.
Qed.

(** *** Building the tuples *)

Lemma build_values_app l1 l2 values :
  build_values (l1 ++ l2) = Ok values
  <-> exists v1 v2, build_values l1 = Ok v1 /\ build_values l2 = Ok v2
                    /\ values = (v1 ++ v2)%list.
Proof.
  revert values. induction l1 as [|tx l1 IH]; intros values; simpl.
  - split; [intros Hl; exists [], values; auto|].
    intros (v1 & v2 & [= <-] & Hl & ->). assumption.
  - destruct (present (v_transaction_id tx)) as [tid|]; [|apply IH].
    destruct (json_loads (v_raw tx)) as [rw|].
    2:{ split; [congruence|]. intros (v1 & v2 & ? & _). congruence. }
    destruct (build_values (l1 ++ l2)) as [vs|e] eqn:Happ; cbn [bind].
    + destruct (proj1 (IH vs) eq_refl) as (v1 & v2 & -> & H2 & ->).
      cbn [bind]. split.
      * intros [= <-]. exists (values_of tid tx rw :: v1), v2. auto.
      * intros (v1' & v2' & [= <-] & H2' & ->). simpl. congruence.
    + split; [congruence|].
      intros (v1 & v2 & H1 & H2 & ->).
      destruct (build_values l1) as [v1'|]; cbn [bind] in H1; [|congruence].
      assert (Raise e = Ok (v1' ++ v2)%list) as Habs; [|discriminate Habs].
      apply IH. eauto.
Qed.

Lemma build_values_keys txs values :
  build_values txs = Ok values ->
  forall k, k ∈ map val_transaction_id values
            <-> exists tx, tx ∈ txs /\ present (v_transaction_id tx) = Some k.
Proof.
  revert values. induction txs as [|tx txs IH]; intros values; simpl.
  - intros [= <-] k. split; [intros Hin; inversion Hin|].
    intros (tx & Hin & _). inversion Hin.
  - destruct (present (v_transaction_id tx)) as [tid|] eqn:Hid.
    + destruct (json_loads (v_raw tx)) as [rw|]; [|congruence].
      destruct (build_values txs) as [vs|e]; cbn [bind]; [|congruence].
      intros [= <-] k. simpl. rewrite elem_of_cons, (IH vs eq_refl k).
      split.
      * intros [->|(tx' & Hin & Hk)].
        -- exists tx. split; [apply elem_of_cons; now left|assumption].
        -- exists tx'. split; [apply elem_of_cons; now right|assumption].
      * intros (tx' & Hin & Hk).
        apply elem_of_cons in Hin as [->|Hin]; [left; congruence|eauto].
    + intros Hvs k. rewrite (IH values Hvs k). split.
      * intros (tx' & Hin & Hk). exists tx'.
        split; [apply elem_of_cons; now right|assumption].
      * intros (tx' & Hin & Hk).
        apply elem_of_cons in Hin as [->|Hin]; [congruence|eauto].
Qed.

Lemma build_values_length txs values :
  build_values txs = Ok values ->
  length values
  = length (filter (fun tx => is_Some (present (v_transaction_id tx))) txs).
Proof.
  revert values. induction txs as [|tx txs IH]; intros values; simpl.
  - now intros [= <-].
  - destruct (present (v_transaction_id tx)) as [tid|] eqn:Hid.
    + destruct (json_loads (v_raw tx)) as [rw|]; [|congruence].
      destruct (build_values txs) as [vs|e]; cbn [bind]; [|congruence].
      intros [= <-]. rewrite filter_cons_True by (rewrite Hid; eauto).
      simpl. f_equal. now apply IH.
    + intros Hvs. rewrite filter_cons_False; [now apply IH|].
      rewrite Hid. intros [? ?]. congruence.
Qed.

Lemma build_values_one tx k values :
  present (v_transaction_id tx) = Some k ->
  build_values [tx] = Ok values ->
  exists rw, json_loads (v_raw tx) = Some rw /\ values = [values_of k tx rw].
Proof.
  simpl. intros ->. destruct (json_loads (v_raw tx)) as [rw|]; [|congruence].
  cbn [bind]. intros [= <-]. eauto.
Qed.

(** *** save_transactions, taken apart *)

Lemma save_transactions_Ok now (ensure_opens write_opens : bool) txs
    (tbl tbl' : table) n :
  save_transactions now ensure_opens write_opens txs tbl = (Ok n, tbl') ->
  exists values exs,
    build_values txs = Ok values
    /\ adapt_all values = Ok exs
    /\ n = length values
    /\ tbl' = fold_left (upsert_row now) exs tbl
    /\ (txs <> [] -> ensure_opens = true /\ write_opens = true)
    /\ forall now2 (tbl2 : table),
         save_transactions now2 true true txs tbl2
         = (Ok n, fold_left (upsert_row now2) exs tbl2).
Proof.
  unfold save_transactions, ensure_table_and_indexes.
  destruct txs as [|tx txs].
  { intros [= <- <-]. exists [], []. repeat split; congruence. }
  destruct ensure_opens; cbn [get_connection]; [|congruence].
  destruct (build_values (tx :: txs)) as [values|e]; [|congruence].
  destruct write_opens; cbn [get_connection]; [|congruence].
  unfold execute_values.
  destruct (execute_pages now tbl _) as [tbl1|e] eqn:Hex; [|congruence].
  intros [= <- <-].
  destruct (execute_pages_Ok _ _ _ _ Hex) as (exs & Hall & Hfold).
  rewrite pages_concat in Hall by lia.
  exists values, exs. do 3 (split; [reflexivity || assumption|]).
  split; [|split; [auto|]].
  - rewrite Hfold in Hex. congruence.
  - intros now2 tbl2. now rewrite Hfold.
Qed.

Lemma holds_values_of ex k tx rw row :
  adapt (values_of k tx rw) = Ok ex ->
  json_loads (v_raw tx) = Some rw ->
  posted_date row = ex_posted_date ex ->
  posted_day row = ex_posted_day ex ->
  s_type row = ex_type ex ->
  s_currency_code row = ex_currency_code ex ->
  s_amount row = ex_amount ex ->
  s_marketplace_id row = ex_marketplace_id ex ->
  s_order_id row = ex_order_id ex ->
  s_reason row = ex_reason ex ->
  s_raw row = ex_raw ex ->
  holds_values row tx.
Proof.
  intros Had Hrw H1 H2 H3 H4 H5 H6 H7 H8 H9.
  apply adapt_Ok in Had
    as (_ & E1 & E2 & E3 & E4 & E5 & E6 & E7 & E8 & E9).
  simpl in *. unfold holds_values.
  rewrite H1, H2, H3, H4, H5, H6, H7, H8, H9, E1, E2, E3, E4, E6, E7, E8.
  repeat split; try assumption. eauto.
Qed.

(** The row stored for the record that is last in the batch with its
    identifier. *)
Lemma save_transactions_lookup now (ensure_opens write_opens : bool)
    l1 tx l2 k (tbl tbl' : table) n :
  save_transactions now ensure_opens write_opens (l1 ++ tx :: l2) tbl
  = (Ok n, tbl') ->
  present (v_transaction_id tx) = Some k ->
  (forall tx', tx' ∈ l2 -> present (v_transaction_id tx') <> Some k) ->
  exists row,
    tbl' !! k = Some row
    /\ holds_values row tx
    /\ updated_at row = now
    /\ created_at row
       = match tbl !! k with Some old => created_at old | None => now end.
Proof.
  intros Hsave Hk Hlast.
  destruct (save_transactions_Ok _ _ _ _ _ _ _ Hsave)
    as (values & exs & Hb & Ha & _ & -> & _).
  apply build_values_app in Hb as (v1 & v2' & Hb1 & Hb2 & ->).
  change (tx :: l2) with ([tx] ++ l2)%list in Hb2.
  apply build_values_app in Hb2 as (vt & v2 & Hbt & Hb2 & ->).
  destruct (build_values_one tx k vt Hk Hbt) as (rw & Hrw & ->).
  apply adapt_all_app in Ha as (e1 & e2' & Ha1 & Ha2 & ->).
  simpl in Ha2.
  apply adapt_all_cons_inv in Ha2 as (ex & e2 & Hex & Ha2 & ->).
  pose proof (adapt_Ok _ _ Hex) as (Hkey & _). simpl in Hkey.
  assert (ex_transaction_id ex ∉ map ex_transaction_id e2) as Hnot.
  { rewrite (adapt_all_keys _ _ Ha2), Hkey. intros Hin.
    apply (build_values_keys _ _ Hb2) in Hin as (tx' & Hin & Hk').
    now apply (Hlast tx' Hin). }
  destruct (fold_upsert_last now e1 ex e2 tbl Hnot)
    as (row & Hrow & H1 & H2 & H3 & H4 & H5 & H6 & H7 & H8 & H9 & H10 & H11).
  rewrite Hkey in Hrow, H11. exists row.
  split; [assumption|]. split; [|auto].
  eapply holds_values_of; eauto.
Qed.

Lemma save_transactions_other now (ensure_opens write_opens : bool)
    txs k (tbl tbl' : table) n :
  save_transactions now ensure_opens write_opens txs tbl = (Ok n, tbl') ->
  (forall tx, tx ∈ txs -> present (v_transaction_id tx) <> Some k) ->
  tbl' !! k = tbl !! k.
Proof.
  intros Hsave Hnone.
  destruct (save_transactions_Ok _ _ _ _ _ _ _ Hsave)
    as (values & exs & Hb & Ha & _ & -> & _).
  apply fold_upsert_other. rewrite (adapt_all_keys _ _ Ha). intros Hin.
  apply (build_values_keys _ _ Hb) in Hin as (tx & Hin & Hk).
  now apply (Hnone tx Hin).
Qed.


(** X10. When save_transactions returns, the count is the number of
    records that have an identifier (the others are skipped, not stored);
    a key that no record of the batch carries keeps its row, or stays
    absent; and under each identifier of the batch the table holds the
    values of the last record that carries it, with updated_at the time
    of this write and created_at the one the key had before, or the time
    of this write for a new key. *)
Theorem X10_batch_write (now : Z) (ensure_opens write_opens : bool)
    (txs : list ValidRow) (tbl tbl' : table) (n : nat) :
  save_transactions now ensure_opens write_opens txs tbl = (Ok n, tbl') ->
  n = length (filter (fun tx => is_Some (present (v_transaction_id tx))) txs)
  /\ (forall k,
        (forall tx, tx ∈ txs -> present (v_transaction_id tx) <> Some k) ->
        tbl' !! k = tbl !! k)
  /\ (forall l1 tx l2 k,
        txs = (l1 ++ tx :: l2)%list ->
        present (v_transaction_id tx) = Some k ->
        (forall tx', tx' ∈ l2 -> present (v_transaction_id tx') <> Some k) ->
        exists row,
          tbl' !! k = Some row
          /\ holds_values row tx
          /\ updated_at row = now
          /\ created_at row
             = match tbl !! k with
               | Some old => created_at old
               | None => now
               end).
Proof.
  intros Hsave. split; [|split].
  - destruct (save_transactions_Ok _ _ _ _ _ _ _ Hsave)
      as (values & exs & Hb & _ & -> & _).
    now apply build_values_length.
  - intros k Hnone. eapply save_transactions_other; eauto.
  - intros l1 tx l2 k -> Hk Hlast.
    eapply save_transactions_lookup; eauto.
Qed.

(** *** A key proposed twice *)

Lemma storable_build txs :
  Forall storable txs ->
  exists values exs, build_values txs = Ok values /\ adapt_all values = Ok exs.
Proof.
  induction 1 as [|tx txs Htx _ (values & exs & Hb & Ha)]; simpl.
  - exists [], []. split; reflexivity.
  - destruct (present (v_transaction_id tx)) as [tid|] eqn:Hid; [|eauto].
    apply present_Some in Hid as [Hid _].
    destruct (Htx tid Hid) as (rw & ex & -> & Hex).
    rewrite Hb. cbn [bind]. eexists. exists (ex :: exs).
    split; [reflexivity|]. simpl. rewrite Hex, Ha. reflexivity.
Qed.

(** X11. A batch of at most 1000 records in which two records carry the
    same identifier is refused as a whole: with both connections of the
    call open and every record storable on its own, save_transactions
    raises the database error and the table is left as it was. *)
Theorem X11_repeated_key_in_one_statement (now : Z)
    (l1 l2 l3 : list ValidRow) (a b : ValidRow) (k : string) (tbl : table) :
  Forall storable (l1 ++ a :: l2 ++ b :: l3) ->
  (length (l1 ++ a :: l2 ++ b :: l3) <= 1000)%nat ->
  present (v_transaction_id a) = Some k ->
  present (v_transaction_id b) = Some k ->
  save_transactions now true true (l1 ++ a :: l2 ++ b :: l3) tbl
  = (Raise DatabaseError, tbl).
Proof.
  intros Hall Hlen Ha Hb.
  destruct (storable_build _ Hall) as (values & exs & Hbuild & Hadapt).
  assert (~ NoDup (map val_transaction_id values)) as Hdup.
  { pose proof Hbuild as Hsplit.
    apply build_values_app in Hsplit as (v1 & v2' & _ & H2 & ->).
    change (a :: l2 ++ b :: l3)%list with ([a] ++ l2 ++ b :: l3)%list in H2.
    apply build_values_app in H2 as (va & v3' & Hva & H3 & ->).
    apply build_values_app in H3 as (v2 & v4' & _ & H4 & ->).
    change (b :: l3) with ([b] ++ l3)%list in H4.
    apply build_values_app in H4 as (vb & v3 & Hvb & _ & ->).
    destruct (build_values_one a k va Ha Hva) as (rwa & _ & ->).
    destruct (build_values_one b k vb Hb Hvb) as (rwb & _ & ->).
    rewrite !map_app. simpl. intros Hnd.
    apply NoDup_app in Hnd as (_ & _ & Hnd).
    apply NoDup_cons in Hnd as [Hnot _]. apply Hnot.
    apply elem_of_app. right. apply elem_of_cons. now left. }
  assert (values <> []) as Hne.
  { intros ->. apply Hdup. constructor. }
  assert (length values <= 1000)%nat as Hvlen.
  { rewrite (build_values_length _ _ Hbuild).
    etransitivity; [apply length_filter|exact Hlen]. }
  unfold save_transactions, ensure_table_and_indexes.
  destruct (l1 ++ a :: l2 ++ b :: l3)%list as [|tx txs] eqn:Htxs.
  { destruct l1; discriminate Htxs. }
  cbn [get_connection]. rewrite Hbuild.
  unfold execute_values. rewrite pages_single by assumption.
  cbn [execute_pages]. unfold execute_statement. rewrite Hadapt.
  cbn [bind].
  destruct (upsert_rows now ∅ tbl exs) as [tbl1|e] eqn:Hu; cbn [bind].
  - exfalso. apply Hdup.
    destruct (upsert_rows_Ok _ _ _ _ _ Hu) as (Hnd & _).
    now rewrite <- (adapt_all_keys _ _ Hadapt).
  - now rewrite (upsert_rows_raises _ _ _ _ _ Hu).
Qed.

(** *** Reading back *)

Lemma adapt_ids_Ok ids ids' : adapt_ids ids = Ok ids' -> ids' = ids.
Proof.
  revert ids'. induction ids as [|k ids IH]; intros ids'; simpl.
  - congruence.
  - destruct (to_text k) as [t|e] eqn:Hk; cbn [bind]; [|congruence].
    destruct (adapt_ids ids) as [ts|e]; cbn [bind]; [|congruence].
    intros [= <-]. apply to_text_Ok in Hk as ->. f_equal. now apply IH.
Qed.

Lemma adapt_ids_of ids :
  Forall (fun k => to_text k = Ok k) ids -> adapt_ids ids = Ok ids.
Proof.
  induction 1 as [|k ids Hk _ IH]; simpl; [reflexivity|].
  now rewrite Hk, IH.
Qed.

Lemma by_posted_date_transitive : Transitive by_posted_date.
Proof. intros a b c. unfold by_posted_date. lia. Qed.

Lemma by_posted_date_total : Total by_posted_date.
Proof. intros a b. unfold by_posted_date. lia. Qed.

Lemma select_by_ids_elem ids (tbl : table) kv :
  kv ∈ select_by_ids ids tbl <-> kv.1 ∈ ids /\ tbl !! kv.1 = Some kv.2.
Proof.
  unfold select_by_ids, table in *.
  rewrite merge_sort_Permutation, list_elem_of_filter, elem_of_map_to_list'.
  reflexivity.
Qed.

Lemma select_by_ids_keys ids (tbl : table) :
  NoDup (map fst (select_by_ids ids tbl)).
Proof.
  unfold select_by_ids, table in *.
  change (NoDup (fst <$> @merge_sort _ by_posted_date by_posted_date_dec
                           (filter (fun kv => kv.1 ∈ ids) (map_to_list tbl)))).
  rewrite merge_sort_Permutation.
  apply (sublist_NoDup _ (fst <$> map_to_list tbl)).
  - apply NoDup_fst_map_to_list.
  - apply fmap_sublist, sublist_filter.
Qed.

Lemma select_by_ids_sorted ids (tbl : table) :
  StronglySorted by_posted_date (select_by_ids ids tbl).
Proof.
  unfold select_by_ids.
  apply (@StronglySorted_merge_sort _ by_posted_date by_posted_date_dec
           by_posted_date_transitive by_posted_date_total).
Qed.

Lemma select_by_ids_length ids (tbl : table) :
  (length (select_by_ids ids tbl) <= size tbl)%nat.
Proof.
  unfold select_by_ids, table in *.
  rewrite merge_sort_Permutation.
  etransitivity; [apply length_filter|]. now rewrite length_map_to_list.
Qed.

Lemma get_saved_transactions_Ok (opens : bool) ids (tbl : table) saved :
  get_saved_transactions opens ids tbl = Ok saved ->
  saved = map select_columns (select_by_ids ids tbl).
Proof.
  unfold get_saved_transactions. destruct ids as [|k ids].
  - intros [= <-].
    destruct (select_by_ids [] tbl) as [|kv l] eqn:Hsel; [reflexivity|].
    assert (kv ∈ select_by_ids [] tbl) as Hin
      by (rewrite Hsel; apply elem_of_cons; now left).
    apply select_by_ids_elem in Hin as [Hin _]. inversion Hin.
  - destruct opens; cbn [get_connection bind]; [|congruence].
    destruct (adapt_ids (k :: ids)) as [ids'|e] eqn:Hids; cbn [bind];
      [|congruence].
    apply adapt_ids_Ok in Hids as ->. congruence.
Qed.

(** X12. What get_saved_transactions returns is ordered by posted date,
    holds each identifier at most once, and consists of exactly the
    stored rows whose key is among the identifiers asked for, in their
    selected columns: an identifier that is not in the table is passed
    over without an error, and there are never more rows than identifiers
    asked for or rows in the table. An empty list of identifiers gives an
    empty result without a connection, so whether or not one could be
    opened. *)
Theorem X12_read_back_by_identifiers (opens : bool) (ids : list string)
    (tbl : table) (saved : list SavedRow) :
  get_saved_transactions opens ids tbl = Ok saved ->
  StronglySorted (fun a b => r_posted_date a <= r_posted_date b) saved
  /\ NoDup (map r_transaction_id saved)
  /\ (forall s, s ∈ saved
        <-> exists row,
              r_transaction_id s ∈ ids
              /\ tbl !! r_transaction_id s = Some row
              /\ s = select_columns (r_transaction_id s, row))
  /\ (length saved <= length ids)%nat
  /\ (length saved <= size tbl)%nat
  /\ get_saved_transactions false [] tbl = Ok [].
Proof.
  intros Hget. apply get_saved_transactions_Ok in Hget as ->.
  assert (map r_transaction_id (map select_columns (select_by_ids ids tbl))
          = map fst (select_by_ids ids tbl)) as Hkeys.
  { rewrite map_map. reflexivity. }
  assert (forall s, s ∈ map select_columns (select_by_ids ids tbl)
            <-> exists row,
                  r_transaction_id s ∈ ids
                  /\ tbl !! r_transaction_id s = Some row
                  /\ s = select_columns (r_transaction_id s, row)) as Helem.
  { intros s. split.
    - intros Hin. apply list_elem_of_fmap in Hin as ([k row] & -> & Hin).
      apply select_by_ids_elem in Hin as [Hk Hrow]. simpl in *. eauto.
    - intros (row & Hk & Hrow & ->). simpl.
      apply (list_elem_of_fmap_2 select_columns _ (r_transaction_id s, row)).
      apply select_by_ids_elem. auto. }
  split.
  { apply (StronglySorted_fmap select_columns by_posted_date).
    - intros a b Hab. exact Hab.
    - apply select_by_ids_sorted. }
  split; [rewrite Hkeys; apply select_by_ids_keys|].
  split; [exact Helem|].
  split; [|split; [|reflexivity]].
  - rewrite <- (length_map r_transaction_id), Hkeys.
    apply submseteq_length, NoDup_submseteq; [apply select_by_ids_keys|].
    intros k Hk. apply list_elem_of_fmap in Hk as (kv & -> & Hin).
    now apply select_by_ids_elem in Hin as [Hin _].
  - rewrite length_map. apply select_by_ids_length.
Qed.

(** *** Writing the same batch again *)

(** X13. A batch that was written can be written again at any later
    time. When both connections of the second call open, it returns the
    same count: the table keeps the same number of rows, every row keeps
    all its columns and its created_at, and only the updated_at of the
    rows whose key is in the batch moves to the time of the second
    write. When one of the two connections does not open, the second
    call raises the database error and the table stays as the first
    write left it. *)
Theorem X13_second_write_changes_updated_at_only (t1 t2 : Z)
    (ensure1 write1 : bool) (txs : list ValidRow) (tbl tbl1 : table)
    (n : nat) :
  save_transactions t1 ensure1 write1 txs tbl = (Ok n, tbl1) ->
  (exists tbl2,
     save_transactions t2 true true txs tbl1 = (Ok n, tbl2)
     /\ size tbl2 = size tbl1
     /\ forall k row1, tbl1 !! k = Some row1 ->
          exists row2,
            tbl2 !! k = Some row2
            /\ same_but_updated_at row2 row1
            /\ ((exists tx, tx ∈ txs
                            /\ present (v_transaction_id tx) = Some k)
                -> updated_at row2 = t2)
            /\ ((forall tx, tx ∈ txs ->
                            present (v_transaction_id tx) <> Some k)
                -> row2 = row1))
  /\ (txs <> [] ->
      forall ensure2 write2 : bool,
        ensure2 && write2 = false ->
        save_transactions t2 ensure2 write2 txs tbl1
        = (Raise DatabaseError, tbl1)).
Proof.
  intros Hsave.
  destruct (save_transactions_Ok _ _ _ _ _ _ _ Hsave)
    as (values & exs & Hb & Ha & _ & -> & _ & Hagain).
  split.
  2:{ intros Hne ensure2 write2 Hclosed.
      unfold save_transactions, ensure_table_and_indexes.
      destruct txs as [|tx txs]; [congruence|].
      destruct ensure2; cbn [get_connection]; [|reflexivity].
      rewrite Hb. simpl in Hclosed. now rewrite Hclosed. }
  exists (fold_left (upsert_row t2) exs (fold_left (upsert_row t1) exs tbl)).
  split; [apply Hagain|]. split.
  { apply fold_upsert_size_present. intros k Hk.
    now apply fold_upsert_present. }
  intros k row1 Hrow1.
  destruct (decide (k ∈ map ex_transaction_id exs)) as [Hin|Hout].
  - destruct (last_occurrence_split exs k Hin)
      as (e1 & ex & e2 & -> & <- & Hlast).
    destruct (fold_upsert_last t1 e1 ex e2 tbl Hlast)
      as (r1 & Hr1 & A1 & A2 & A3 & A4 & A5 & A6 & A7 & A8 & A9 & _ & _).
    destruct (fold_upsert_last t2 e1 ex e2
                (fold_left (upsert_row t1) (e1 ++ ex :: e2) tbl) Hlast)
      as (r2 & Hr2 & B1 & B2 & B3 & B4 & B5 & B6 & B7 & B8 & B9 & B10 & B11).
    rewrite Hrow1 in Hr1, B11. injection Hr1 as <-.
    exists r2. split; [assumption|]. split.
    { unfold same_but_updated_at.
      rewrite A1, A2, A3, A4, A5, A6, A7, A8, A9,
              B1, B2, B3, B4, B5, B6, B7, B8, B9, B11.
      repeat split; reflexivity. }
    split; [auto|].
    intros Hnone. exfalso.
    rewrite (adapt_all_keys _ _ Ha) in Hin.
    apply (build_values_keys _ _ Hb) in Hin as (tx & Htx & Hk).
    now apply (Hnone tx Htx).
  - exists row1. rewrite fold_upsert_other by assumption.
    split; [assumption|]. split; [repeat split; reflexivity|].
    split; [|reflexivity].
    intros (tx & Htx & Hk). exfalso. apply Hout.
    rewrite (adapt_all_keys _ _ Ha).
    apply (build_values_keys _ _ Hb). eauto.
Qed.

End WithColumns.

(** *** From the validator to the table and back *)

Section WithLibraries.
Context `{PgLib} `{DateLib}.

Lemma valid_rows_have_ids now rows st :
  validate_loop now init 1 rows = Ok st ->
  forall v, v ∈ valid_rows st ->
    exists tid, present (v_transaction_id v) = Some tid.
Proof.
  intros Hloop v Hv.
  destruct (inv_valid_first _ _ (validate_loop_inv now rows st Hloop) v Hv)
    as (j & rj & tid & t & Hj & [(rj' & Hj' & Hid) _] & ->).
  assert (rj' = rj) as -> by congruence.
  exists tid. exact Hid.
Qed.

Lemma build_values_ids (txs : list ValidRow) values :
  (forall v, v ∈ txs -> exists tid, present (v_transaction_id v) = Some tid) ->
  build_values txs = Ok values ->
  map Some (map val_transaction_id values) = map v_transaction_id txs.
Proof.
  revert values. induction txs as [|tx txs IH]; intros values Hall; simpl.
  - now intros [= <-].
  - destruct (Hall tx) as [tid Hid]; [apply elem_of_cons; now left|].
    rewrite Hid.
    destruct (json_loads (v_raw tx)) as [rw|]; [|congruence].
    destruct (build_values txs) as [vs|e]; cbn [bind]; [|congruence].
    intros [= <-]. simpl. apply present_Some in Hid as [-> _].
    f_equal. apply IH; [|reflexivity].
    intros v Hv. apply Hall. apply elem_of_cons. now right.
Qed.

Lemma NoDup_map_Some {A} (l : list A) : NoDup (map Some l) -> NoDup l.
Proof. apply (NoDup_fmap_1 Some). Qed.

(** What the two facts about the validator's output give the store. *)
Lemma distinct_ids_are_stored t (valid : list ValidRow) (tbl : table) :
  (forall v, v ∈ valid ->
             exists tid, present (v_transaction_id v) = Some tid) ->
  NoDup (map v_transaction_id valid) ->
  Forall storable valid ->
  exists tbl',
    save_transactions t true true valid tbl = (Ok (length valid), tbl')
    /\ forall v, v ∈ valid ->
         exists tid row,
           v_transaction_id v = Some tid
           /\ tbl' !! tid = Some row
           /\ holds_values row v
           /\ updated_at row = t.
Proof.
  intros Hids Hnd Hst.
  destruct (storable_build _ Hst) as (values & exs & Hb & Ha).
  pose proof (build_values_ids valid values Hids Hb) as Hkeys.
  assert (length values = length valid) as Hlen.
  { apply (f_equal (@length _)) in Hkeys. now rewrite !length_map in Hkeys. }
  assert (NoDup (map ex_transaction_id exs)) as Hnd'.
  { rewrite (adapt_all_keys _ _ Ha). apply NoDup_map_Some.
    now rewrite Hkeys. }
  assert (save_transactions t true true valid tbl
          = (Ok (length valid), fold_left (upsert_row t) exs tbl)) as Hsave.
  { unfold save_transactions, ensure_table_and_indexes.
    destruct valid as [|v valid].
    - simpl in Hb. injection Hb as <-. simpl in Ha. injection Ha as <-.
      reflexivity.
    - cbn [get_connection]. rewrite Hb. unfold execute_values.
      rewrite (execute_pages_NoDup t _ exs tbl); [now rewrite Hlen| |exact Hnd'].
      rewrite pages_concat by lia. exact Ha. }
  eexists. split; [exact Hsave|].
  intros v Hv. destruct (Hids v Hv) as [tid Hid].
  apply list_elem_of_split in Hv as (l1 & l2 & ->).
  destruct (save_transactions_lookup t _ _ l1 v l2 tid tbl _ _ Hsave Hid)
    as (row & Hrow & Hvals & Hup & _).
  { intros tx' Hin' Hk'.
    rewrite map_app in Hnd. apply NoDup_app in Hnd as (_ & _ & Hnd).
    simpl in Hnd. apply NoDup_cons in Hnd as [Hnot _]. apply Hnot.
    apply present_Some in Hid as [-> _].
    apply present_Some in Hk' as [<- _].
    now apply (list_elem_of_fmap_2 v_transaction_id). }
  exists tid, row. apply present_Some in Hid as [Hid _]. auto.
Qed.

(** X14. The rows that the validator returns as valid can always be
    written as one batch: with both connections of the call open and
    each row storable on its own, save_transactions returns the number
    of valid rows
    (none is skipped, and the statement is never refused for a repeated
    key), and afterwards the table holds, under the identifier of each
    valid row, the values of that row. *)
Theorem X14_valid_rows_are_stored (now t : Z) (rows : list Row)
    (valid : list ValidRow) (errs : list error) (warns : list warning)
    (tbl : table) :
  validate_transactions now rows = Ok (valid, errs, warns) ->
  Forall storable valid ->
  exists tbl',
    save_transactions t true true valid tbl = (Ok (length valid), tbl')
    /\ forall v, v ∈ valid ->
         exists tid row,
           v_transaction_id v = Some tid
           /\ tbl' !! tid = Some row
           /\ holds_values row v
           /\ updated_at row = t.
Proof.
  unfold validate_transactions.
  destruct (validate_loop now init 1 rows) as [st|e] eqn:Hloop; simpl;
    [|congruence].
  intros [= <- <- <-]. apply distinct_ids_are_stored.
  - now apply (valid_rows_have_ids now rows).
  - apply (inv_valid_nodup _ _ (validate_loop_inv now rows st Hloop)).
Qed.

Lemma adapt_all_ids values exs :
  adapt_all values = Ok exs ->
  Forall (fun k => to_text k = Ok k) (map val_transaction_id values).
Proof.
  revert exs. induction values as [|v values IH]; intros exs; simpl.
  - constructor.
  - destruct (adapt v) as [ex|e] eqn:Hv; cbn [bind]; [|congruence].
    destruct (adapt_all values) as [exs'|e]; cbn [bind]; [|congruence].
    intros _. constructor; [|now apply (IH exs')].
    unfold adapt in Hv.
    destruct (to_text (val_transaction_id v)) as [k|e] eqn:Hk;
      cbn [bind] in Hv; [|congruence].
    now rewrite (to_text_Ok _ _ Hk) in *.
Qed.

(** X15. The check that main makes after a write: for the valid rows of
    the validator, once save_transactions has returned, reading back the
    identifiers of those rows on a connection that opens returns exactly
    one row per valid row (as many rows as the count that was returned),
    ordered by posted date, and each valid row is found there with its
    identifier, type, currency code, posted date and day, order and
    reason, and its amount in the column's representation. The read
    makes its own connection: when that one does not open and there is
    an identifier to look up, the read raises the database error,
    whatever the write did. *)
Theorem X15_write_then_read_back (now t : Z) (ensure_opens write_opens : bool)
    (rows : list Row) (valid : list ValidRow) (errs : list error)
    (warns : list warning) (tbl tbl' : table) (n : nat)
    (ids : list string) :
  validate_transactions now rows = Ok (valid, errs, warns) ->
  save_transactions t ensure_opens write_opens valid tbl = (Ok n, tbl') ->
  map Some ids = map v_transaction_id valid ->
  (exists saved,
     get_saved_transactions true ids tbl' = Ok saved
     /\ n = length valid
     /\ length saved = length valid
     /\ StronglySorted (fun a b => r_posted_date a <= r_posted_date b) saved
     /\ forall v, v ∈ valid ->
          exists s,
            s ∈ saved
            /\ Some (r_transaction_id s) = v_transaction_id v
            /\ r_type s = v_type v
            /\ r_currency_code s = v_currency_code v
            /\ r_posted_date s = v_posted_date v
            /\ r_posted_day s = v_posted_day v
            /\ r_order_id s = v_order_id v
            /\ r_reason s = v_reason v
            /\ opt_result to_numeric (v_amount v) = Ok (r_amount s))
  /\ (valid <> [] ->
      get_saved_transactions false ids tbl' = Raise DatabaseError).
Proof.
  unfold validate_transactions.
  destruct (validate_loop now init 1 rows) as [st|e] eqn:Hloop; simpl;
    [|congruence].
  intros [= <- <- <-] Hsave Hids.
  pose proof (valid_rows_have_ids now rows st Hloop) as Hhave.
  pose proof (inv_valid_nodup _ _ (validate_loop_inv now rows st Hloop))
    as Hnd.
  destruct (save_transactions_Ok _ _ _ _ _ _ _ Hsave)
    as (values & exs & Hb & Ha & Hn & Htbl & _ & _).
  pose proof (build_values_ids _ values Hhave Hb) as Hkeys.
  split.
  2:{ intros Hne. unfold get_saved_transactions.
      destruct ids as [|k ids]; [|reflexivity].
      destruct (valid_rows st); [congruence|discriminate Hids]. }
  assert (map val_transaction_id values = ids) as Hvids.
  { rewrite <- Hids in Hkeys.
    revert Hkeys. generalize (map val_transaction_id values).
    clear. induction ids as [|k ids IH]; intros [|k' l]; simpl;
      try congruence.
    intros [= -> Hrest]. f_equal. now apply IH. }
  assert (get_saved_transactions true ids tbl'
          = Ok (map select_columns (select_by_ids ids tbl'))) as Hget.
  { unfold get_saved_transactions. destruct ids as [|k ids]; [|].
    - destruct (select_by_ids [] tbl') as [|kv l] eqn:Hsel; [reflexivity|].
      assert (kv ∈ select_by_ids [] tbl') as Hin
        by (rewrite Hsel; apply elem_of_cons; now left).
      apply select_by_ids_elem in Hin as [Hin _]. inversion Hin.
    - cbn [get_connection bind]. rewrite adapt_ids_of; [reflexivity|].
      rewrite <- Hvids. eapply adapt_all_ids; eauto. }
  assert (forall v, v ∈ valid_rows st ->
            exists tid row,
              v_transaction_id v = Some tid /\ tid ∈ ids
              /\ tbl' !! tid = Some row /\ holds_values row v) as Hstored.
  { intros v Hv. destruct (Hhave v Hv) as [tid Hid].
    pose proof Hv as Hsplit.
    apply list_elem_of_split in Hsplit as (l1 & l2 & Heq).
    rewrite Heq in Hsave, Hnd.
    destruct (save_transactions_lookup t _ _ l1 v l2 tid tbl _ _ Hsave Hid)
      as (row & Hrow & Hvals & _).
    { intros tx' Hin' Hk'.
      rewrite map_app in Hnd. apply NoDup_app in Hnd as (_ & _ & Hnd).
      simpl in Hnd. apply NoDup_cons in Hnd as [Hnot _]. apply Hnot.
      apply present_Some in Hid as [-> _].
      apply present_Some in Hk' as [<- _].
      now apply (list_elem_of_fmap_2 v_transaction_id). }
    apply present_Some in Hid as [Hid _].
    exists tid, row. split; [assumption|]. split; [|auto].
    assert (Some tid ∈ map Some ids) as Hin.
    { rewrite Hids, <- Hid. now apply (list_elem_of_fmap_2 v_transaction_id). }
    apply list_elem_of_fmap in Hin as (k & [= ->] & Hin). exact Hin. }
  exists (map select_columns (select_by_ids ids tbl')).
  split; [exact Hget|].
  split.
  { rewrite Hn. apply (f_equal (@length _)) in Hkeys.
    now rewrite !length_map in Hkeys. }
  split.
  { rewrite length_map.
    rewrite <- (length_map v_transaction_id (valid_rows st)), <- Hids,
            length_map, <- (length_map fst).
    apply Permutation_length, NoDup_Permutation.
    - apply select_by_ids_keys.
    - apply NoDup_map_Some. rewrite Hids. exact Hnd.
    - intros k. split.
      + intros Hk. apply list_elem_of_fmap in Hk as (kv & -> & Hin).
        now apply select_by_ids_elem in Hin as [Hin _].
      + intros Hk.
        assert (Some k ∈ map v_transaction_id (valid_rows st)) as Hv.
        { rewrite <- Hids. now apply (list_elem_of_fmap_2 Some). }
        apply list_elem_of_fmap in Hv as (v & Hvk & Hv).
        destruct (Hstored v Hv) as (tid & row & Hid & _ & Hrow & _).
        assert (tid = k) as -> by congruence.
        apply (list_elem_of_fmap_2 fst _ (k, row)).
        apply select_by_ids_elem. auto. }
  split.
  { apply (StronglySorted_fmap select_columns by_posted_date).
    - intros a b Hab. exact Hab.
    - apply select_by_ids_sorted. }
  intros v Hv.
  destruct (Hstored v Hv) as (tid & row & Hid & Hin & Hrow & Hvals).
  exists (select_columns (tid, row)). split.
  { apply (list_elem_of_fmap_2 select_columns _ (tid, row)).
    apply select_by_ids_elem. auto. }
  destruct Hvals as (V1 & V2 & V3 & V4 & V5 & _ & V7 & V8 & _).
  simpl. rewrite Hid. auto 10.
Qed.

End WithLibraries.
End DatabaseExtras.

(** ** The store at concrete batches *)

Module DatabaseExtrasExamples.
Import Validator Database DatabaseFacts Queries DatabaseExtras Sample Cases.

Lemma sample_rows_storable (tx : ValidRow) rw :
  json_loads (v_raw tx) = Some rw ->
  (forall tid, v_transaction_id tx = Some tid ->
               exists ex, adapt (values_of tid tx rw) = Ok ex) ->
  storable tx.
Proof. intros Hrw Had tid Hid. destruct (Had tid Hid) as [ex Hex]. eauto. Qed.

(** Three records, one of them without identifier, into an empty table:
    two rows are written, "tx-2" at the time of the write, and no other
    key appears. *)
Lemma X10_batch_write_witness :
  exists (tbl' : table) row,
    save_transactions 1000 true true mixed_writes ∅ = (Ok 2%nat, tbl')
    /\ tbl' !! "tx-2" = Some row
    /\ holds_values row other_write
    /\ updated_at row = 1000
    /\ created_at row = 1000
    /\ tbl' !! "tx-3" = None.
Proof.
  pose (tbl' := snd (save_transactions 1000 true true mixed_writes ∅)).
  assert (save_transactions 1000 true true mixed_writes ∅
          = (Ok 2%nat, tbl'))
    as Hsave by (vm_compute; reflexivity).
  destruct (X10_batch_write 1000 true true mixed_writes ∅ tbl' 2 Hsave)
    as (_ & Hother & Hlast).
  destruct (Hlast [first_write; no_id_write] other_write [] "tx-2"
              eq_refl eq_refl) as (row & Hrow & Hvals & Hup & Hcr).
  { intros tx' Hin. inversion Hin. }
  exists tbl', row. do 4 (split; [assumption|]).
  split; [exact Hcr|].
  rewrite (Hother "tx-3"); [reflexivity|].
  intros tx Hin.
  repeat (apply elem_of_cons in Hin as [->|Hin]); try discriminate.
  inversion Hin.
Defined.

(** Two versions of "tx-1" in one batch: refused, nothing is written. *)
Lemma X11_repeated_key_in_one_statement_witness :
  save_transactions 1000 true true [first_write; second_write] (∅ : table)
  = (Raise DatabaseError, ∅).
Proof.
  apply (X11_repeated_key_in_one_statement 1000 [] [] [] first_write
           second_write "tx-1" ∅);
    [ | simpl; lia | reflexivity | reflexivity].
  repeat constructor; apply (sample_rows_storable _ tt); try reflexivity;
    intros tid [= <-]; eexists; reflexivity.
Defined.

(** Asking for "tx-2", "tx-1" and an identifier that was never stored. *)
Lemma X12_read_back_by_identifiers_witness :
  exists saved,
    get_saved_transactions true ["tx-2"; "tx-1"; "tx-9"]
      (snd (save_transactions 1000 true true mixed_writes ∅)) = Ok saved
    /\ StronglySorted (fun a b => r_posted_date a <= r_posted_date b) saved
    /\ NoDup (map r_transaction_id saved)
    /\ (length saved <= 3)%nat.
Proof.
  destruct (get_saved_transactions true ["tx-2"; "tx-1"; "tx-9"]
              (snd (save_transactions 1000 true true mixed_writes ∅)))
    as [saved|e] eqn:Hget; [|vm_compute in Hget; discriminate Hget].
  destruct (X12_read_back_by_identifiers _ _ _ saved Hget)
    as (Hsorted & Hnd & _ & Hlen & _).
  exists saved. auto.
Defined.

(** The same batch written at 1000 and again at 2000; and the second
    write when the connection of the INSERT does not open. *)
Lemma X13_second_write_changes_updated_at_only_witness :
  (exists tbl2 : table,
     save_transactions 2000 true true mixed_writes
       (snd (save_transactions 1000 true true mixed_writes ∅))
     = (Ok 2%nat, tbl2)
     /\ size tbl2
        = size (snd (save_transactions 1000 true true mixed_writes ∅)))
  /\ save_transactions 2000 true false mixed_writes
       (snd (save_transactions 1000 true true mixed_writes ∅))
     = (Raise DatabaseError,
        snd (save_transactions 1000 true true mixed_writes ∅)).
Proof.
  pose (tbl1 := snd (save_transactions 1000 true true mixed_writes ∅)).
  assert (save_transactions 1000 true true mixed_writes ∅
          = (Ok 2%nat, tbl1))
    as Hsave by (vm_compute; reflexivity).
  destruct (X13_second_write_changes_updated_at_only 1000 2000 true true
              mixed_writes ∅ tbl1 2 Hsave)
    as ((tbl2 & Hsave2 & Hsize & _) & Hclosed).
  split; [exists tbl2; auto|].
  apply Hclosed; [discriminate|reflexivity].
Defined.

Lemma duplicate_batch_valid_storable : Forall storable duplicate_batch_valid.
Proof.
  repeat constructor; apply (sample_rows_storable _ tt); try reflexivity;
    intros tid [= <-]; eexists; reflexivity.
Qed.

(** The valid rows of the batch with a repeated identifier are written
    as two rows. *)
Lemma X14_valid_rows_are_stored_witness :
  exists tbl' : table,
    save_transactions 1000 true true duplicate_batch_valid ∅
    = (Ok 2%nat, tbl')
    /\ exists row, tbl' !! "tx-2" = Some row /\ updated_at row = 1000.
Proof.
  assert (validate_transactions sample_now duplicate_batch
          = Ok (duplicate_batch_valid, duplicate_batch_errors, []))
    as Hvalid by reflexivity.
  destruct (@X14_valid_rows_are_stored opaque_json plain_columns utc_seconds
              sample_now 1000 duplicate_batch
              duplicate_batch_valid duplicate_batch_errors [] ∅
              Hvalid duplicate_batch_valid_storable)
    as (tbl' & Hsave & Hrows).
  exists tbl'. split; [exact Hsave|].
  destruct (Hrows other_write) as (tid & row & Hid & Hrow & _ & Hup).
  { apply elem_of_cons. right. apply elem_of_cons. now left. }
  injection Hid as <-. eauto.
Defined.

(** ... and both are read back when the connection of the read opens;
    when it does not, the read raises although the write went
    through. *)
Lemma X15_write_then_read_back_witness :
  (exists saved,
     get_saved_transactions true ["tx-1"; "tx-2"]
       (snd (save_transactions 1000 true true duplicate_batch_valid ∅))
     = Ok saved
     /\ length saved = 2%nat)
  /\ get_saved_transactions false ["tx-1"; "tx-2"]
       (snd (save_transactions 1000 true true duplicate_batch_valid ∅))
     = Raise DatabaseError.
Proof.
  pose (tbl' := snd (save_transactions 1000 true true
                       duplicate_batch_valid ∅)).
  assert (save_transactions 1000 true true duplicate_batch_valid ∅
          = (Ok 2%nat, tbl'))
    as Hsave by (vm_compute; reflexivity).
  assert (validate_transactions sample_now duplicate_batch
          = Ok (duplicate_batch_valid, duplicate_batch_errors, []))
    as Hvalid by reflexivity.
  destruct (@X15_write_then_read_back opaque_json plain_columns utc_seconds
              sample_now 1000 true true duplicate_batch
              duplicate_batch_valid duplicate_batch_errors [] ∅ tbl' 2
              ["tx-1"; "tx-2"] Hvalid Hsave eq_refl)
    as ((saved & Hget & _ & Hlen & _) & Hclosed).
  split; [exists saved; auto|].
  apply Hclosed. discriminate.
Defined.

End DatabaseExtrasExamples.

(** ** The fetch client: outcomes, requests and waits *)

Module ClientExtras.
Import Validator ValidatorFacts Client ClientFacts Waits.
Local Open Scope client_scope.

(** *** One attempt, case by case *)

(** The result and the trace of one attempt, by the response it gets. *)
Lemma attempt_once_eq E url posted_after mkt timeout max_retries st a tr :
  attempt_once E url posted_after mkt timeout max_retries st a tr =
  match http_get E (count is_http_get tr) with
  | Raise e =>
      (Raise e,
       (tr ++ [LogApiRequest url posted_after mkt;
               HttpGet url (token st) posted_after mkt timeout])%list)
  | Ok r =>
      let ex := request_events url posted_after mkt timeout (token st) r in
      if (status_code r =? 401) && negb (token_refreshed st) then
        let log := LogRetryAttempt a max_retries TokenExpired None in
        if negb (requests_available E)
        then (Raise ImportError, (tr ++ ex ++ [log])%list)
        else if negb (lwa_credentials E)
        then (Raise EnvironmentError, (tr ++ ex ++ [log])%list)
        else
          (match lwa_post E (count is_token_exchange tr) with
           | Ok token' =>
               Ok (Continue {| token := token'; backoff := backoff st;
                               token_refreshed := true |})
           | Raise e => Raise e
           end,
           (tr ++ ex ++ [log; TokenExchange])%list)
      else if status_code r =? 429 then
        match match present (retry_after r) with
              | Some s => py_float E s
              | None => Ok (as_float (backoff st))
              end with
        | Raise e => (Raise e, (tr ++ ex)%list)
        | Ok w =>
            let log := LogRetryAttempt a max_retries Throttling (Some w) in
            match time_sleep E w with
            | Ok _ =>
                (Ok (Continue {| token := token st;
                                 backoff := Z.min (backoff st * 2) 60;
                                 token_refreshed := token_refreshed st |}),
                 (tr ++ ex ++ [log; Sleep w])%list)
            | Raise e => (Raise e, (tr ++ ex ++ [log])%list)
            end
        end
      else if (500 <=? status_code r) && (status_code r <? 600) then
        let w := as_float (backoff st) in
        let log := LogRetryAttempt a max_retries
                     (ServerError (status_code r)) (Some w) in
        match time_sleep E w with
        | Ok _ =>
            (Ok (Continue {| token := token st;
                             backoff := Z.min (backoff st * 2) 60;
                             token_refreshed := token_refreshed st |}),
             (tr ++ ex ++ [log; Sleep w])%list)
        | Raise e => (Raise e, (tr ++ ex ++ [log])%list)
        end
      else if (400 <=? status_code r) && (status_code r <? 600) then
        (Raise (HTTPError (status_code r)), (tr ++ ex)%list)
      else
        match json r with
        | Ok data => (Ok (Return (success_result data)), (tr ++ ex)%list)
        | Raise e => (Raise e, (tr ++ ex)%list)
        end
  end.
Proof.
  unfold attempt_once, mbind, emit, requests_get, request_events.
  rewrite !count_snoc. cbn [is_http_get]. rewrite Nat.add_0_r.
  destruct (http_get E _) as [r|e]; [|now rewrite <- !app_assoc].
  cbn zeta.
  destruct ((status_code r =? 401) && negb (token_refreshed st)).
  { unfold _get_lwa_token, raise, ret.
    destruct (requests_available E); cbn [negb];
      [|now rewrite <- !app_assoc].
    destruct (lwa_credentials E); cbn [negb];
      [|now rewrite <- !app_assoc].
    rewrite !count_snoc. cbn [is_token_exchange]. rewrite !Nat.add_0_r.
    destruct (lwa_post E _); now rewrite <- !app_assoc. }
  destruct (status_code r =? 429).
  { unfold lift, ret, sleep.
    destruct (present (retry_after r)) as [s|].
    - destruct (py_float E s) as [w|e]; [|now rewrite <- !app_assoc].
      destruct (time_sleep E w) as [[]|e]; now rewrite <- !app_assoc.
    - destruct (time_sleep E _) as [[]|e]; now rewrite <- !app_assoc. }
  destruct ((500 <=? status_code r) && (status_code r <? 600)).
  { unfold ret, sleep.
    destruct (time_sleep E _) as [[]|e]; now rewrite <- !app_assoc. }
  unfold raise_for_status, raise, ret, lift, success_result.
  destruct ((400 <=? status_code r) && (status_code r <? 600));
    [now rewrite <- !app_assoc|].
  destruct (json r) as [data|e]; [|now rewrite <- !app_assoc].
  destruct (is_empty _); now rewrite <- !app_assoc.
Qed.

(** *** A rule for the loop *)

Lemma request_loop_rule E url posted_after mkt timeout max_retries
    (Inv : nat -> loop_state -> list event -> Prop)
    (Post : result ApiPayload -> list event -> Prop) :
  (forall n st a tr r tr',
     Inv (S n) st tr ->
     attempt_once E url posted_after mkt timeout max_retries st a tr
     = (r, tr') ->
     match r with
     | Ok (Continue st') => Inv n st' tr'
     | Ok (Return p) => Post (Ok p) tr'
     | Raise e => Post (Raise e) tr'
     end) ->
  (forall st tr, Inv 0%nat st tr -> Post (Raise RuntimeError) tr) ->
  forall n st a tr r tr',
    Inv n st tr ->
    request_loop E url posted_after mkt timeout max_retries st a n tr
    = (r, tr') ->
    Post r tr'.
Proof.
  intros Hstep Hout. induction n as [|n IH]; intros st a tr r tr' Hinv; simpl.
  - unfold raise. intros [= <- <-]. now apply (Hout st).
  - unfold mbind.
    destruct (attempt_once E url posted_after mkt timeout max_retries st a tr)
      as [r1 tr1] eqn:Hatt.
    pose proof (Hstep n st a tr r1 tr1 Hinv Hatt) as Hnext.
    destruct r1 as [[st'|p]|e].
    + intros Hloop. exact (IH _ _ _ _ _ Hnext Hloop).
    + unfold ret. now intros [= <- <-].
    + now intros [= <- <-].
Qed.

(** Every attempt only adds to the trace. *)
Lemma attempt_once_extends E url posted_after mkt timeout max_retries st a tr
    r tr' :
  attempt_once E url posted_after mkt timeout max_retries st a tr = (r, tr') ->
  exists evs, tr' = (tr ++ evs)%list.
Proof.
  rewrite attempt_once_eq.
  destruct (http_get E _) as [resp|e]; [|intros [= <- <-]; eauto].
  cbn zeta.
  destruct ((status_code resp =? 401) && negb (token_refreshed st)).
  { destruct (negb (requests_available E)); [intros [= <- <-]; eauto|].
    destruct (negb (lwa_credentials E)); intros [= <- <-]; eauto. }
  destruct (status_code resp =? 429).
  { destruct (match present (retry_after resp) with
              | Some s => py_float E s
              | None => Ok (as_float (backoff st))
              end) as [w|e]; [|intros [= <- <-]; eauto].
    destruct (time_sleep E w); intros [= <- <-]; eauto. }
  destruct ((500 <=? status_code resp) && (status_code resp <? 600)).
  { destruct (time_sleep E _); intros [= <- <-]; eauto. }
  destruct ((400 <=? status_code resp) && (status_code resp <? 600));
    [intros [= <- <-]; eauto|].
  destruct (json resp); intros [= <- <-]; eauto.
Qed.

Lemma request_loop_extends E url posted_after mkt timeout max_retries :
  forall n st a tr r tr',
    request_loop E url posted_after mkt timeout max_retries st a n tr
    = (r, tr') ->
    exists evs, tr' = (tr ++ evs)%list.
Proof.
  intros n st a tr r tr' Hloop.
  apply (request_loop_rule E url posted_after mkt timeout max_retries
           (fun _ _ tr1 => exists evs, tr1 = (tr ++ evs)%list)
           (fun _ tr1 => exists evs, tr1 = (tr ++ evs)%list))
    with (n := n) (st := st) (a := a) (tr := tr) (r := r);
    [| | |exact Hloop].
  - intros n0 st0 a0 tr0 r0 tr1 [evs ->] Hatt.
    apply attempt_once_extends in Hatt as [evs' ->].
    rewrite <- app_assoc. destruct r0 as [[|]|]; eauto.
  - auto.
  - exists []. now rewrite app_nil_r.
Qed.

(** *** A run of retries *)

(** After [k] attempts that all end in a retry, the loop is where it
    would be had it started [k] attempts later. *)
Lemma request_loop_retries E url posted_after mkt timeout max_retries :
  requests_available E = true ->
  lwa_credentials E = true ->
  (forall b, 1 <= b <= 60 -> time_sleep E (as_float b) = Ok tt) ->
  forall k n st a tr,
    count is_token_exchange tr = (if token_refreshed st then 2 else 1)%nat ->
    (token_refreshed st = true <->
     exists j, (j < count is_http_get tr)%nat /\ status_at E j = Some 401) ->
    1 <= backoff st <= 60 ->
    (forall j, (count is_http_get tr <= j < count is_http_get tr + k)%nat ->
               retryable E j) ->
    exists st' tr',
      request_loop E url posted_after mkt timeout max_retries st a (k + n) tr
      = request_loop E url posted_after mkt timeout max_retries st'
          (a + k) n tr'
      /\ count is_http_get tr' = (count is_http_get tr + k)%nat
      /\ count is_token_exchange tr'
         = (if token_refreshed st' then 2 else 1)%nat
      /\ (token_refreshed st' = true <->
          exists j, (j < count is_http_get tr')%nat
                    /\ status_at E j = Some 401)
      /\ 1 <= backoff st' <= 60.
Proof.
  intros Hreq Hcred Hsleep.
  induction k as [|k IH]; intros n st a tr Htok Href Hback Hretry.
  - exists st, tr. rewrite !Nat.add_0_r. auto.
  - cbn [Nat.add request_loop].
    destruct (Hretry (count is_http_get tr)) as (r & Hget & Hcase); [lia|].
    assert (status_at E (count is_http_get tr) = Some (status_code r))
      as Hstatus by (unfold status_at; now rewrite Hget).
    unfold mbind.
    assert (forall st1 tr1,
              count is_http_get tr1 = S (count is_http_get tr) ->
              count is_token_exchange tr1
              = (if token_refreshed st1 then 2 else 1)%nat ->
              (token_refreshed st1 = true <->
               exists j, (j < count is_http_get tr1)%nat
                         /\ status_at E j = Some 401) ->
              1 <= backoff st1 <= 60 ->
              exists st' tr',
                request_loop E url posted_after mkt timeout max_retries st1
                  (S a) (k + n) tr1
                = request_loop E url posted_after mkt timeout max_retries st'
                    (a + S k) n tr'
                /\ count is_http_get tr'
                   = (count is_http_get tr + S k)%nat
                /\ count is_token_exchange tr'
                   = (if token_refreshed st' then 2 else 1)%nat
                /\ (token_refreshed st' = true <->
                    exists j, (j < count is_http_get tr')%nat
                              /\ status_at E j = Some 401)
                /\ 1 <= backoff st' <= 60) as Hnext.
    { intros st1 tr1 Hg1 Ht1 Hr1 Hb1.
      destruct (IH n st1 (S a) tr1 Ht1 Hr1 Hb1) as (st' & tr' & Heq & Hn & Hrest).
      - intros j Hj. apply Hretry. lia.
      - exists st', tr'. rewrite Heq.
        replace (S a + k)%nat with (a + S k)%nat by lia.
        split; [reflexivity|]. split; [lia|exact Hrest]. }
    destruct Hcase as [(Hs & Hfirst & token' & Hpost)
                      |[(Hs & Hwait)|Hs]].
    + (* the first 401 *)
      assert (token_refreshed st = false) as Hnot.
      { destruct (token_refreshed st); [|reflexivity].
        destruct (proj1 Href eq_refl) as (j & Hj & H401).
        now destruct (Hfirst j Hj). }
      rewrite Hnot in Htok.
      rewrite (attempt_once_first_401 E url posted_after mkt timeout
                 max_retries st a tr r Hget token') by congruence.
      apply Hnext.
      * count_events. lia.
      * count_events. rewrite Htok. reflexivity.
      * simpl. split; [|reflexivity]. intros _.
        exists (count is_http_get tr). count_events.
        split; [lia|congruence].
      * assumption.
    + (* throttled *)
      assert (exists w,
                 match present (retry_after r) with
                 | Some s => py_float E s = Ok w
                 | None => w = as_float (backoff st)
                 end /\ time_sleep E w = Ok tt) as (w & Hw & Hsl).
      { destruct (present (retry_after r)) as [s|].
        - destruct (Hwait s eq_refl) as (w & ? & ?). eauto.
        - eauto. }
      rewrite (attempt_once_429 E url posted_after mkt timeout max_retries
                 st a tr r Hget w Hs Hw Hsl).
      apply Hnext.
      * count_events. lia.
      * count_events. rewrite Htok. simpl. lia.
      * simpl. rewrite Href. count_events.
        split; intros (j & Hj & H401); exists j; split; try assumption;
          [lia|].
        destruct (decide (j = count is_http_get tr)) as [->|]; [|lia].
        rewrite Hstatus, Hs in H401. discriminate.
      * simpl. lia.
    + (* server error *)
      rewrite (attempt_once_5xx E url posted_after mkt timeout max_retries
                 st a tr r Hget Hs (Hsleep _ Hback)).
      apply Hnext.
      * count_events. lia.
      * count_events. rewrite Htok. simpl. lia.
      * simpl. rewrite Href. count_events.
        split; intros (j & Hj & H401); exists j; split; try assumption;
          [lia|].
        destruct (decide (j = count is_http_get tr)) as [->|]; [|lia].
        rewrite Hstatus in H401. injection H401 as H401. lia.
      * simpl. lia.
Qed.

Section WithDates.
Context `{DateLib}.

(** How a call starts. *)
Lemma list_transactions_real_cases E base_url posted_after mkt timeout
    max_retries r tr :
  run (list_transactions_real E base_url posted_after mkt timeout max_retries)
  = (r, tr) ->
  (tr = []
   /\ ((requests_available E = false /\ r = Raise ImportError)
       \/ (requests_available E = true
           /\ fromisoformat (replace_Z posted_after) = None
           /\ r = Raise ValueError)
       \/ (requests_available E = true
           /\ fromisoformat (replace_Z posted_after) <> None
           /\ lwa_credentials E = false
           /\ r = Raise EnvironmentError)))
  \/ (requests_available E = true
      /\ fromisoformat (replace_Z posted_after) <> None
      /\ lwa_credentials E = true
      /\ ((exists e, lwa_post E 0 = Raise e /\ r = Raise e
                     /\ tr = [TokenExchange])
          \/ exists token0,
               lwa_post E 0 = Ok token0
               /\ request_loop E
                    (base_url +:+ "/finances/2024-06-19/transactions")
                    posted_after (present mkt) timeout max_retries
                    {| token := token0; backoff := 1;
                       token_refreshed := false |}
                    1 (Z.to_nat max_retries) [TokenExchange]
                  = (r, tr))).
Proof.
  unfold run, list_transactions_real, mbind, _validate_iso8601_utc,
    _get_lwa_token, raise, ret.
  destruct (requests_available E); cbn [negb];
    [|intros [= <- <-]; left; auto].
  destruct (fromisoformat (replace_Z posted_after)) as [d|];
    [|intros [= <- <-]; left; split; [reflexivity|]; right; left; auto].
  destruct (lwa_credentials E); cbn [negb].
  2:{ intros [= <- <-]. left. split; [reflexivity|]. right; right.
      repeat split; congruence. }
  rewrite count_nil.
  destruct (lwa_post E 0) as [token0|e].
  - intros Hloop. right. repeat split; try congruence. right. eauto.
  - intros [= <- <-]. right. repeat split; try congruence. left. eauto.
Qed.

(** X16. A call whose prerequisites are not met does nothing: the trace
    is empty exactly when the requests module is missing, the timestamp
    is refused or the credentials are not set, and then the call raises
    ImportError, ValueError or EnvironmentError in that order of
    precedence. In every other call the first action is the token
    exchange: no request is sent before a token was asked for. *)
Theorem X16_nothing_sent_without_prerequisites (E : Env)
    (base_url posted_after : string) (mkt : option string)
    (timeout max_retries : Z) (r : result ApiPayload) (tr : list event) :
  run (list_transactions_real E base_url posted_after mkt timeout max_retries)
  = (r, tr) ->
  (tr = [] <-> requests_available E = false
               \/ fromisoformat (replace_Z posted_after) = None
               \/ lwa_credentials E = false)
  /\ (requests_available E = false -> r = Raise ImportError)
  /\ (requests_available E = true ->
      fromisoformat (replace_Z posted_after) = None -> r = Raise ValueError)
  /\ (requests_available E = true ->
      fromisoformat (replace_Z posted_after) <> None ->
      lwa_credentials E = false -> r = Raise EnvironmentError)
  /\ (tr <> [] -> exists tr', tr = TokenExchange :: tr').
Proof.
  intros Hrun. apply list_transactions_real_cases in Hrun
    as [(-> & [(Hreq & ->)|[(Hreq & Hts & ->)|(Hreq & Hts & Hcred & ->)]])
       |(Hreq & Hts & Hcred & Hloop)].
  - split; [tauto|]. repeat split; congruence.
  - split; [tauto|]. repeat split; congruence.
  - split; [tauto|]. repeat split; congruence.
  - assert (exists tr', tr = TokenExchange :: tr') as [tr' ->].
    { destruct Hloop as [(e & _ & _ & ->)|(token0 & _ & Hloop)]; [eauto|].
      apply request_loop_extends in Hloop as [evs ->]. simpl. eauto. }
    split.
    { split; [discriminate|]. intros [?|[?|?]]; congruence. }
    repeat split; try congruence. eauto.
Qed.

(** The call, once its first [k] attempts have all ended in a retry. *)
Lemma run_after_retries E base_url posted_after mkt timeout max_retries k :
  requests_available E = true ->
  lwa_credentials E = true ->
  (exists d, fromisoformat (replace_Z posted_after) = Some d) ->
  (exists token0, lwa_post E 0 = Ok token0) ->
  (forall b, 1 <= b <= 60 -> time_sleep E (as_float b) = Ok tt) ->
  (k < Z.to_nat max_retries)%nat ->
  (forall j, (j < k)%nat -> retryable E j) ->
  exists st' tr' m,
    run (list_transactions_real E base_url posted_after mkt timeout
           max_retries)
    = request_loop E (base_url +:+ "/finances/2024-06-19/transactions")
        posted_after (present mkt) timeout max_retries st' (1 + k) (S m) tr'
    /\ count is_http_get tr' = k
    /\ (token_refreshed st' = true <->
        exists j, (j < k)%nat /\ status_at E j = Some 401).
Proof.
  intros Hreq Hcred [d Hts] [token0 Hpost] Hsleep Hk Hretry.
  rewrite (list_transactions_real_started E base_url posted_after mkt
             timeout max_retries d token0) by assumption.
  replace (Z.to_nat max_retries)
    with (k + S (Z.to_nat max_retries - k - 1))%nat by lia.
  destruct (request_loop_retries E
              (base_url +:+ "/finances/2024-06-19/transactions")
              posted_after (present mkt) timeout max_retries
              Hreq Hcred Hsleep k (S (Z.to_nat max_retries - k - 1))
              {| token := token0; backoff := 1; token_refreshed := false |}
              1%nat [TokenExchange])
    as (st' & tr' & Heq & Hn & _ & Href & _).
  - reflexivity.
  - cbn [token_refreshed]. split; [discriminate|].
    intros (j & Hj & _). count_events_in Hj. lia.
  - cbn [backoff]. lia.
  - intros j Hj. apply Hretry. count_events_in Hj. lia.
  - count_events_in Hn. simpl in Hn. rewrite Hn in Href.
    exists st', tr', (Z.to_nat max_retries - k - 1)%nat. auto.
Qed.

(** X17. Only a 429, a 5xx and the first 401 are retried. After any
    number of retries, an attempt whose GET raises, or is answered by
    another 4xx status (a 401 after the refresh included), or by a body
    that cannot be decoded, ends the call at once with that exception:
    no further request is sent, whatever attempts remain. *)
Theorem X17_fatal_response_is_not_retried (E : Env)
    (base_url posted_after : string) (mkt : option string)
    (timeout max_retries : Z) (k : nat) :
  requests_available E = true ->
  lwa_credentials E = true ->
  (exists d, fromisoformat (replace_Z posted_after) = Some d) ->
  (exists token0, lwa_post E 0 = Ok token0) ->
  (forall b, 1 <= b <= 60 -> time_sleep E (as_float b) = Ok tt) ->
  (k < Z.to_nat max_retries)%nat ->
  (forall j, (j < k)%nat -> retryable E j) ->
  (forall e, http_get E k = Raise e ->
     exists tr,
       run (list_transactions_real E base_url posted_after mkt timeout
              max_retries) = (Raise e, tr)
       /\ count is_http_get tr = S k)
  /\ (forall r, http_get E k = Ok r ->
        400 <= status_code r < 500 ->
        status_code r <> 429 ->
        (status_code r = 401 ->
         exists j, (j < k)%nat /\ status_at E j = Some 401) ->
        exists tr,
          run (list_transactions_real E base_url posted_after mkt timeout
                 max_retries) = (Raise (HTTPError (status_code r)), tr)
          /\ count is_http_get tr = S k)
  /\ (forall r e, http_get E k = Ok r ->
        status_code r < 400 \/ 600 <= status_code r ->
        json r = Raise e ->
        exists tr,
          run (list_transactions_real E base_url posted_after mkt timeout
                 max_retries) = (Raise e, tr)
          /\ count is_http_get tr = S k).
Proof.
  intros Hreq Hcred Hts Hpost Hsleep Hk Hretry.
  destruct (run_after_retries E base_url posted_after mkt timeout
              max_retries k Hreq Hcred Hts Hpost Hsleep Hk Hretry)
    as (st' & tr' & m & -> & Hn & Href).
  cbn [request_loop]. unfold mbind. rewrite attempt_once_eq, Hn.
  split; [|split].
  - intros e ->. eexists. split; [reflexivity|]. count_events. lia.
  - intros r -> Hs H429 H401. cbn zeta.
    assert (((status_code r =? 401) && negb (token_refreshed st')) = false)
      as ->.
    { destruct (Z.eqb_spec (status_code r) 401) as [Heq|]; [|reflexivity].
      now rewrite (proj2 Href (H401 Heq)). }
    assert ((status_code r =? 429) = false) as -> by lia.
    assert (((500 <=? status_code r) && (status_code r <? 600)) = false)
      as -> by lia.
    assert (((400 <=? status_code r) && (status_code r <? 600)) = true)
      as -> by lia.
    eexists. split; [reflexivity|]. count_events. lia.
  - intros r e -> Hs Hjson. cbn zeta.
    assert ((status_code r =? 401) = false) as -> by lia.
    assert ((status_code r =? 429) = false) as -> by lia.
    assert (((500 <=? status_code r) && (status_code r <? 600)) = false)
      as -> by lia.
    assert (((400 <=? status_code r) && (status_code r <? 600)) = false)
      as -> by lia.
    cbn [andb]. rewrite Hjson.
    eexists. split; [reflexivity|]. count_events. lia.
Qed.

(** X18. After any number of retries, an attempt that is answered with a
    status below 400 (or above 599) and a decodable body ends the call
    with that body, replaced by the fixed "no data" result when it has no
    transactions; the call has then sent one request more than it had
    retries. Nothing but the status is looked at: a 204 or a 302 counts
    as success like a 200. *)
Theorem X18_success_after_retries (E : Env)
    (base_url posted_after : string) (mkt : option string)
    (timeout max_retries : Z) (k : nat) (r : Response) (data : ApiPayload) :
  requests_available E = true ->
  lwa_credentials E = true ->
  (exists d, fromisoformat (replace_Z posted_after) = Some d) ->
  (exists token0, lwa_post E 0 = Ok token0) ->
  (forall b, 1 <= b <= 60 -> time_sleep E (as_float b) = Ok tt) ->
  (k < Z.to_nat max_retries)%nat ->
  (forall j, (j < k)%nat -> retryable E j) ->
  http_get E k = Ok r ->
  status_code r < 400 \/ 600 <= status_code r ->
  json r = Ok data ->
  exists tr,
    run (list_transactions_real E base_url posted_after mkt timeout
           max_retries) = (Ok (success_result data), tr)
    /\ count is_http_get tr = S k.
Proof.
  intros Hreq Hcred Hts Hpost Hsleep Hk Hretry Hget Hs Hjson.
  destruct (run_after_retries E base_url posted_after mkt timeout
              max_retries k Hreq Hcred Hts Hpost Hsleep Hk Hretry)
    as (st' & tr' & m & -> & Hn & Href).
  cbn [request_loop]. unfold mbind. rewrite attempt_once_eq, Hn, Hget.
  cbn zeta.
  assert ((status_code r =? 401) = false) as -> by lia.
  assert ((status_code r =? 429) = false) as -> by lia.
  assert (((500 <=? status_code r) && (status_code r <? 600)) = false)
    as -> by lia.
  assert (((400 <=? status_code r) && (status_code r <? 600)) = false)
    as -> by lia.
  cbn [andb]. rewrite Hjson. unfold ret.
  eexists. split; [reflexivity|]. count_events. lia.
Qed.

(** *** What every call keeps to *)

Lemma success_result_shape data :
  success_result data = no_data
  \/ exists txs,
       transactions (success_result data) = Listed txs /\ txs <> [].
Proof.
  unfold success_result, get_transactions.
  destruct (transactions data) as [| |[|tx txs]] eqn:Htx; simpl; auto.
  right. exists (tx :: txs). split; [assumption|discriminate].
Qed.

(** X19. A payload is returned only from a decoded response: when a call
    returns, the last request it sent was answered with a status outside
    400..599 and a body that decodes to the payload (or to a body
    without transactions, for the fixed "no data" result). What is
    returned is either that fixed result or a payload with at least one
    transaction. *)
Theorem X19_returned_payload_comes_from_a_response (E : Env)
    (base_url posted_after : string) (mkt : option string)
    (timeout max_retries : Z) (p : ApiPayload) (tr : list event) :
  run (list_transactions_real E base_url posted_after mkt timeout max_retries)
  = (Ok p, tr) ->
  (exists r data,
      (1 <= count is_http_get tr)%nat
      /\ http_get E (count is_http_get tr - 1) = Ok r
      /\ (status_code r < 400 \/ 600 <= status_code r)
      /\ json r = Ok data
      /\ p = success_result data)
  /\ (p = no_data
      \/ exists txs, transactions p = Listed txs /\ txs <> []).
Proof.
  intros Hrun.
  assert (exists r data,
             (1 <= count is_http_get tr)%nat
             /\ http_get E (count is_http_get tr - 1) = Ok r
             /\ (status_code r < 400 \/ 600 <= status_code r)
             /\ json r = Ok data
             /\ p = success_result data) as Hfrom.
  { apply list_transactions_real_cases in Hrun
      as [(_ & [(_ & ?)|[(_ & _ & ?)|(_ & _ & _ & ?)]])
         |(_ & _ & _ & [(e & _ & ? & _)|(token0 & _ & Hloop)])];
      try discriminate.
    refine (request_loop_rule E _ posted_after (present mkt) timeout
              max_retries
              (fun _ _ _ => True)
              (fun r1 tr1 =>
                 forall p1, r1 = Ok p1 ->
                   exists r data,
                     (1 <= count is_http_get tr1)%nat
                     /\ http_get E (count is_http_get tr1 - 1) = Ok r
                     /\ (status_code r < 400 \/ 600 <= status_code r)
                     /\ json r = Ok data
                     /\ p1 = success_result data)
              _ _ _ _ _ _ _ _ I Hloop p eq_refl).
    - intros n st a tr0 r0 tr1 _. rewrite attempt_once_eq.
      destruct (http_get E _) as [resp|e] eqn:Hget;
        [|intros [= <- <-]; discriminate].
      cbn zeta.
      destruct ((status_code resp =? 401) && negb (token_refreshed st))
        eqn:H401.
      { destruct (negb (requests_available E));
          [intros [= <- <-]; discriminate|].
        destruct (negb (lwa_credentials E));
          [intros [= <- <-]; discriminate|].
        destruct (lwa_post E _); intros [= <- <-]; [exact I|discriminate]. }
      destruct (status_code resp =? 429) eqn:H429.
      { destruct (match present (retry_after resp) with
                  | Some s => py_float E s
                  | None => Ok (as_float (backoff st))
                  end) as [w|e]; [|intros [= <- <-]; discriminate].
        destruct (time_sleep E w); intros [= <- <-];
          [exact I|discriminate]. }
      destruct ((500 <=? status_code resp) && (status_code resp <? 600))
        eqn:H5.
      { destruct (time_sleep E _); intros [= <- <-];
          [exact I|discriminate]. }
      destruct ((400 <=? status_code resp) && (status_code resp <? 600))
        eqn:H4; [intros [= <- <-]; discriminate|].
      destruct (json resp) as [data|e] eqn:Hjson;
        [|intros [= <- <-]; discriminate].
      intros [= <- <-] p1 [= <-].
      exists resp, data. count_events.
      replace (count is_http_get tr0 + 1 - 1)%nat
        with (count is_http_get tr0) by lia.
      split; [lia|]. split; [assumption|]. split; [lia|]. auto.
    - intros st tr0 _ p1. discriminate. }
  split; [exact Hfrom|].
  destruct Hfrom as (r & data & _ & _ & _ & _ & ->).
  apply success_result_shape.
Qed.

(** The events of one attempt pass a check that the ones before them
    passed. *)
Ltac check_events good Htoken :=
  rewrite ?Forall_app; unfold request_events;
  repeat match goal with
         | |- _ /\ _ => split
         | |- Forall _ [] => constructor
         | |- Forall _ (_ :: _) => constructor
         | |- True => exact I
         | |- _ = _ => reflexivity
         | |- exists _, _ => exact Htoken
         | |- Forall _ _ => assumption
         | |- good _ => unfold good
         end.

(** X20. Every request of a call is the same request: each GET goes to
    the transactions path under the base URL, with the posted-after
    value that was given, the marketplace when one was given (an empty
    one is left out), and the given timeout; and the token it carries
    was returned by the first or by the second token exchange of the
    call. *)
Theorem X20_requests_are_identical (E : Env)
    (base_url posted_after : string) (mkt : option string)
    (timeout max_retries : Z) (r : result ApiPayload) (tr : list event)
    (url' token' posted_after' : string) (mkt' : option string)
    (timeout' : Z) :
  run (list_transactions_real E base_url posted_after mkt timeout max_retries)
  = (r, tr) ->
  HttpGet url' token' posted_after' mkt' timeout' ∈ tr ->
  url' = base_url +:+ "/finances/2024-06-19/transactions"
  /\ posted_after' = posted_after
  /\ mkt' = present mkt
  /\ timeout' = timeout
  /\ exists j, (j < 2)%nat /\ lwa_post E j = Ok token'.
Proof.
  intros Hrun.
  set (good := fun ev =>
         match ev with
         | HttpGet u t pa m to =>
             u = base_url +:+ "/finances/2024-06-19/transactions"
             /\ pa = posted_after /\ m = present mkt /\ to = timeout
             /\ exists j, (j < 2)%nat /\ lwa_post E j = Ok t
         | _ => True
         end).
  assert (Forall good tr) as Hall.
  { apply list_transactions_real_cases in Hrun
      as [(-> & _)
         |(_ & _ & _ & [(e & _ & _ & ->)|(token0 & Hpost & Hloop)])].
    - constructor.
    - repeat constructor.
    - refine (request_loop_rule E _ posted_after (present mkt) timeout
                max_retries
                (fun _ st tr1 =>
                   Forall good tr1
                   /\ (exists j, (j < 2)%nat /\ lwa_post E j = Ok (token st))
                   /\ (token_refreshed st = false ->
                       count is_token_exchange tr1 = 1%nat))
                (fun _ tr1 => Forall good tr1)
                _ _ _ _ _ _ _ _ _ Hloop).
      + intros n st a tr0 r0 tr1 (Hgood & Htoken & Hcount).
        rewrite attempt_once_eq.
        destruct (http_get E _) as [resp|e];
          [|intros [= <- <-]; check_events good Htoken].
        cbn zeta.
        destruct ((status_code resp =? 401) && negb (token_refreshed st))
          eqn:H401.
        { apply andb_prop in H401 as [_ Href].
          apply negb_true_iff in Href.
          destruct (negb (requests_available E));
            [intros [= <- <-]; check_events good Htoken|].
          destruct (negb (lwa_credentials E));
            [intros [= <- <-]; check_events good Htoken|].
          rewrite (Hcount Href).
          destruct (lwa_post E 1) as [t1|e] eqn:Hpost1; intros [= <- <-].
          - split; [check_events good Htoken|]. split; [|discriminate].
            exists 1%nat. auto.
          - check_events good Htoken. }
        destruct (status_code resp =? 429).
        { destruct (match present (retry_after resp) with
                    | Some s => py_float E s
                    | None => Ok (as_float (backoff st))
                    end) as [w|e];
            [|intros [= <- <-]; check_events good Htoken].
          destruct (time_sleep E w); intros [= <- <-].
          - split; [check_events good Htoken|]. split; [assumption|].
            cbn [token_refreshed]. intros Href.
            count_events. rewrite (Hcount Href). reflexivity.
          - check_events good Htoken. }
        destruct ((500 <=? status_code resp) && (status_code resp <? 600)).
        { destruct (time_sleep E _); intros [= <- <-].
          - split; [check_events good Htoken|]. split; [assumption|].
            cbn [token_refreshed]. intros Href.
            count_events. rewrite (Hcount Href). reflexivity.
          - check_events good Htoken. }
        destruct ((400 <=? status_code resp) && (status_code resp <? 600));
          [intros [= <- <-]; check_events good Htoken|].
        destruct (json resp); intros [= <- <-]; check_events good Htoken.
      + intros st tr0 (Hgood & _). exact Hgood.
      + split; [repeat constructor|]. split; [exists 0%nat; auto|].
        reflexivity. }
  intros Hin. rewrite Forall_forall in Hall. exact (Hall _ Hin).
Qed.

(** *** The waits *)

Lemma backoff_after_closed n : backoff_after n = Z.min (2 ^ Z.of_nat n) 60.
Proof.
  induction n as [|n IH]; [reflexivity|].
  cbn [backoff_after]. rewrite IH, Nat2Z.inj_succ, Z.pow_succ_r by lia.
  lia.
Qed.

Lemma count_sleep_app (l1 l2 : list event) :
  count is_sleep (l1 ++ l2) = (count is_sleep l1 + count is_sleep l2)%nat.
Proof. apply count_app. Qed.

Lemma waits_app E (tr evs : list event) :
  (forall i w, tr !! i = Some (Sleep w) -> wait_from E (take i tr) w) ->
  (forall i w, evs !! i = Some (Sleep w) ->
               wait_from E (tr ++ take i evs) w) ->
  forall i w, (tr ++ evs)%list !! i = Some (Sleep w) ->
              wait_from E (take i (tr ++ evs)) w.
Proof.
  intros Htr Hevs i w Hi.
  apply lookup_app_Some in Hi as [Hi|[Hge Hi]].
  - rewrite take_app_le by (apply lookup_lt_Some in Hi; lia). auto.
  - rewrite take_app_ge by assumption. auto.
Qed.

(** No wait among the events at hand. *)
Ltac no_waits_at Hi i :=
  first [ discriminate Hi
        | destruct i as [|i]; [discriminate Hi | simpl in Hi; no_waits_at Hi i] ].

Ltac no_waits :=
  let i := fresh "i" in
  let w := fresh "w" in
  let Hi := fresh "Hi" in
  intros i w Hi; simpl in Hi; no_waits_at Hi i.

(** Counting the waits among the explicit events appended to a trace. *)
Ltac count_sleeps :=
  rewrite ?count_app, ?count_cons, ?count_nil;
  cbn [is_sleep Nat.add].

(** The one wait of a retry, after the four events that precede it. *)
Lemma wait_of_retry E (tr : list event) e1 e2 e3 e4 w0 :
  is_sleep e1 = false -> is_sleep e2 = false -> is_sleep e3 = false ->
  is_sleep e4 = false ->
  wait_from E (tr ++ [e1; e2; e3; e4]) w0 ->
  forall i w, [e1; e2; e3; e4; Sleep w0] !! i = Some (Sleep w) ->
              wait_from E (tr ++ take i [e1; e2; e3; e4; Sleep w0]) w.
Proof.
  intros H1 H2 H3 H4 Hw i w Hi.
  destruct i as [|[|[|[|[|i]]]]]; simpl in Hi.
  - injection Hi as ->. discriminate H1.
  - injection Hi as ->. discriminate H2.
  - injection Hi as ->. discriminate H3.
  - injection Hi as ->. discriminate H4.
  - injection Hi as <-. exact Hw.
  - discriminate Hi.
Qed.

(** X21. Every wait of a call follows the request it answers: the
    response to the last request sent before the wait is a 429 or a 5xx;
    the wait is the Retry-After value of a 429 that carries one, as
    [float] reads it, and otherwise the current backoff, which is 1
    second doubled once per earlier wait of the call and capped at 60:
    min(2^n, 60) after n waits. *)
Theorem X21_waits_follow_the_backoff (E : Env)
    (base_url posted_after : string) (mkt : option string)
    (timeout max_retries : Z) (r : result ApiPayload) (tr : list event)
    (i : nat) (w : pyfloat) :
  run (list_transactions_real E base_url posted_after mkt timeout max_retries)
  = (r, tr) ->
  tr !! i = Some (Sleep w) ->
  wait_from E (take i tr) w
  /\ backoff_after (count is_sleep (take i tr))
     = Z.min (2 ^ Z.of_nat (count is_sleep (take i tr))) 60.
Proof.
  intros Hrun Hi. split; [|apply backoff_after_closed].
  revert i w Hi.
  apply list_transactions_real_cases in Hrun
    as [(-> & _)
       |(_ & _ & _ & [(e & _ & _ & ->)|(token0 & Hpost & Hloop)])].
  - intros i w Hi. now rewrite lookup_nil in Hi.
  - no_waits.
  - refine (request_loop_rule E _ posted_after (present mkt) timeout
              max_retries
              (fun _ st tr1 =>
                 (forall i w, tr1 !! i = Some (Sleep w) ->
                              wait_from E (take i tr1) w)
                 /\ backoff st = backoff_after (count is_sleep tr1))
              (fun _ tr1 =>
                 forall i w, tr1 !! i = Some (Sleep w) ->
                             wait_from E (take i tr1) w)
              _ _ _ _ _ _ _ _ _ Hloop).
    + intros n st a tr0 r0 tr1 (Hwaits & Hback).
      rewrite attempt_once_eq.
      destruct (http_get E _) as [resp|e] eqn:Hget.
      2:{ intros [= <- <-]. apply waits_app; [assumption|no_waits]. }
      cbn zeta. unfold request_events.
      destruct ((status_code resp =? 401) && negb (token_refreshed st)).
      { destruct (negb (requests_available E)).
        { intros [= <- <-]. apply waits_app; [assumption|no_waits]. }
        destruct (negb (lwa_credentials E)).
        { intros [= <- <-]. apply waits_app; [assumption|no_waits]. }
        destruct (lwa_post E (count is_token_exchange tr0));
          intros [= <- <-].
        - split; [apply waits_app; [assumption|no_waits]|].
          cbn [backoff]. rewrite Hback. count_sleeps.
          now rewrite Nat.add_0_r.
        - apply waits_app; [assumption|no_waits]. }
      destruct (status_code resp =? 429) eqn:H429.
      { apply Z.eqb_eq in H429.
        destruct (match present (retry_after resp) with
                  | Some s => py_float E s
                  | None => Ok (as_float (backoff st))
                  end) as [w0|e] eqn:Hw0.
        2:{ intros [= <- <-]. apply waits_app; [assumption|no_waits]. }
        destruct (time_sleep E w0); intros [= <- <-].
        - split.
          + apply waits_app; [assumption|]. cbn [app].
            apply wait_of_retry; try reflexivity.
            exists resp. split.
            * rewrite <- Hget. f_equal. count_events. lia.
            * left. split; [assumption|].
              count_sleeps. rewrite Nat.add_0_r, <- Hback.
              destruct (present (retry_after resp)); congruence.
          + cbn [backoff]. rewrite Hback. count_sleeps.
            now rewrite Nat.add_1_r.
        - apply waits_app; [assumption|no_waits]. }
      destruct ((500 <=? status_code resp) && (status_code resp <? 600))
        eqn:H5.
      { destruct (time_sleep E _); intros [= <- <-].
        - split.
          + apply waits_app; [assumption|]. cbn [app].
            apply wait_of_retry; try reflexivity.
            exists resp. split.
            * rewrite <- Hget. f_equal. count_events. lia.
            * right. split; [lia|].
              count_sleeps. now rewrite Nat.add_0_r, <- Hback.
          + cbn [backoff]. rewrite Hback. count_sleeps.
            now rewrite Nat.add_1_r.
        - apply waits_app; [assumption|no_waits]. }
      destruct ((400 <=? status_code resp) && (status_code resp <? 600)).
      { intros [= <- <-]. apply waits_app; [assumption|no_waits]. }
      destruct (json resp); intros [= <- <-];
        (apply waits_app; [assumption|no_waits]).
    + intros st tr0 (Hwaits & _). exact Hwaits.
    + split; [no_waits|reflexivity].
Qed.

End WithDates.
End ClientExtras.

(** ** The fetch client in simulated worlds *)

Module ClientExtrasExamples.
Import Validator Client ClientFacts Waits ClientExtras Sample Cases.

(** Without credentials nothing is sent. *)
Lemma X16_nothing_sent_without_prerequisites_witness :
  run (list_transactions_real no_credentials sample_base_url
         "2025-08-23T00:00:00Z" None DEFAULT_TIMEOUT DEFAULT_MAX_RETRIES)
  = (Raise EnvironmentError, []).
Proof.
  destruct (run (list_transactions_real no_credentials sample_base_url
                   "2025-08-23T00:00:00Z" None DEFAULT_TIMEOUT
                   DEFAULT_MAX_RETRIES)) as [r tr] eqn:Hrun.
  destruct (@X16_nothing_sent_without_prerequisites utc_seconds
              no_credentials sample_base_url "2025-08-23T00:00:00Z" None
              DEFAULT_TIMEOUT DEFAULT_MAX_RETRIES r tr Hrun)
    as (Hempty & _ & _ & Hcred & _).
  rewrite Hcred; [|reflexivity|vm_compute; discriminate|reflexivity].
  rewrite (proj2 Hempty); [reflexivity|].
  right; right. reflexivity.
Defined.

(** A 429 and then a 403: HTTPError 403 after two requests, with four
    attempts left. *)
Lemma X17_fatal_response_is_not_retried_witness :
  exists tr,
    run (list_transactions_real throttled_then_forbidden sample_base_url
           "2025-08-23T00:00:00Z" None DEFAULT_TIMEOUT DEFAULT_MAX_RETRIES)
    = (Raise (HTTPError 403), tr)
    /\ count is_http_get tr = 2%nat.
Proof.
  destruct (@X17_fatal_response_is_not_retried utc_seconds
              throttled_then_forbidden sample_base_url
              "2025-08-23T00:00:00Z" None DEFAULT_TIMEOUT
              DEFAULT_MAX_RETRIES 1) as (_ & Hfatal & _).
  - reflexivity.
  - reflexivity.
  - eexists. reflexivity.
  - eexists. reflexivity.
  - intros b _. reflexivity.
  - change (Z.to_nat DEFAULT_MAX_RETRIES) with 6%nat. lia.
  - intros j Hj. exists (response_with 429 empty_payload). split.
    + destruct j as [|j]; [reflexivity|lia].
    + right; left. split; [reflexivity|]. intros s Hs. discriminate Hs.
  - apply (Hfatal (response_with 403 empty_payload) eq_refl).
    + simpl. lia.
    + discriminate.
    + discriminate.
Defined.

(** A 500 and then the mock batch: the batch, after two requests. *)
Lemma X18_success_after_retries_witness :
  exists tr,
    run (list_transactions_real server_error_then_ok sample_base_url
           "2025-08-23T00:00:00Z" None DEFAULT_TIMEOUT DEFAULT_MAX_RETRIES)
    = (Ok (success_result mock_ok), tr)
    /\ count is_http_get tr = 2%nat.
Proof.
  apply (@X18_success_after_retries utc_seconds server_error_then_ok
           sample_base_url "2025-08-23T00:00:00Z" None DEFAULT_TIMEOUT
           DEFAULT_MAX_RETRIES 1 (response_with 200 mock_ok) mock_ok).
  - reflexivity.
  - reflexivity.
  - eexists. reflexivity.
  - eexists. reflexivity.
  - intros b _. reflexivity.
  - change (Z.to_nat DEFAULT_MAX_RETRIES) with 6%nat. lia.
  - intros j Hj. exists (response_with 500 empty_payload). split.
    + destruct j as [|j]; [reflexivity|lia].
    + right; right. simpl. lia.
  - reflexivity.
  - left. simpl. lia.
  - reflexivity.
Defined.

(** What the responses 401 then 200 return is the body of the 200. *)
Lemma X19_returned_payload_comes_from_a_response_witness :
  exists r data,
    http_get unauthorized_then_ok 1 = Ok r
    /\ (status_code r < 400 \/ 600 <= status_code r)
    /\ json r = Ok data
    /\ mock_ok = success_result data.
Proof.
  pose (tr := snd (run (list_transactions_real unauthorized_then_ok
                          sample_base_url "2025-08-23T00:00:00Z" None
                          DEFAULT_TIMEOUT DEFAULT_MAX_RETRIES))).
  assert (run (list_transactions_real unauthorized_then_ok sample_base_url
                 "2025-08-23T00:00:00Z" None DEFAULT_TIMEOUT
                 DEFAULT_MAX_RETRIES) = (Ok mock_ok, tr)) as Hrun
    by (vm_compute; reflexivity).
  destruct (@X19_returned_payload_comes_from_a_response utc_seconds
              unauthorized_then_ok sample_base_url "2025-08-23T00:00:00Z"
              None DEFAULT_TIMEOUT DEFAULT_MAX_RETRIES mock_ok tr Hrun)
    as ((r & data & _ & Hget & Hs & Hjson & Hp) & _).
  exists r, data. auto.
Defined.

(** The second request of that call carries the refreshed token. *)
Lemma X20_requests_are_identical_witness :
  sample_base_url +:+ "/finances/2024-06-19/transactions"
  = sample_base_url +:+ "/finances/2024-06-19/transactions"
  /\ "2025-08-23T00:00:00Z" = "2025-08-23T00:00:00Z"
  /\ None = present None
  /\ DEFAULT_TIMEOUT = DEFAULT_TIMEOUT
  /\ exists j, (j < 2)%nat /\ lwa_post unauthorized_then_ok j = Ok "token-1".
Proof.
  pose (tr := snd (run (list_transactions_real unauthorized_then_ok
                          sample_base_url "2025-08-23T00:00:00Z" None
                          DEFAULT_TIMEOUT DEFAULT_MAX_RETRIES))).
  assert (run (list_transactions_real unauthorized_then_ok sample_base_url
                 "2025-08-23T00:00:00Z" None DEFAULT_TIMEOUT
                 DEFAULT_MAX_RETRIES) = (Ok mock_ok, tr)) as Hrun
    by (vm_compute; reflexivity).
  apply (@X20_requests_are_identical utc_seconds unauthorized_then_ok
           sample_base_url "2025-08-23T00:00:00Z" None DEFAULT_TIMEOUT
           DEFAULT_MAX_RETRIES (Ok mock_ok) tr
           (sample_base_url +:+ "/finances/2024-06-19/transactions")
           "token-1" "2025-08-23T00:00:00Z" None DEFAULT_TIMEOUT Hrun).
  apply (list_elem_of_lookup_2 _ 7%nat). reflexivity.
Defined.

(** A 429 that asks for 7 seconds, then a 500: the second wait is the
    backoff after one wait, 2 seconds. *)
Lemma X21_waits_follow_the_backoff_witness :
  wait_from throttled_for_7_seconds
    (take 10
       (snd (run (list_transactions_real throttled_for_7_seconds
                    sample_base_url "2025-08-23T00:00:00Z" None
                    DEFAULT_TIMEOUT DEFAULT_MAX_RETRIES))))
    (as_float 2)
  /\ backoff_after 1 = Z.min (2 ^ Z.of_nat 1) 60.
Proof.
  pose (tr := snd (run (list_transactions_real throttled_for_7_seconds
                          sample_base_url "2025-08-23T00:00:00Z" None
                          DEFAULT_TIMEOUT DEFAULT_MAX_RETRIES))).
  assert (run (list_transactions_real throttled_for_7_seconds
                 sample_base_url "2025-08-23T00:00:00Z" None DEFAULT_TIMEOUT
                 DEFAULT_MAX_RETRIES) = (Ok mock_ok, tr)) as Hrun
    by (vm_compute; reflexivity).
  apply (@X21_waits_follow_the_backoff utc_seconds throttled_for_7_seconds
           sample_base_url "2025-08-23T00:00:00Z" None DEFAULT_TIMEOUT
           DEFAULT_MAX_RETRIES (Ok mock_ok) tr 10 (as_float 2) Hrun).
  reflexivity.
Defined.

End ClientExtrasExamples.

(** ** The base URL and the mock client *)

Module MockFacts.
Import Validator Client Sample Mock.

Lemma getitem_regions region suffix :
  getitem SPAPI_REGIONS region = Ok suffix ->
  region = "na" \/ region = "eu" \/ region = "fe".
Proof.
  unfold SPAPI_REGIONS. cbn [getitem].
  destruct (String.eqb_spec "na" region) as [<-|_]; [auto|].
  destruct (String.eqb_spec "eu" region) as [<-|_]; [auto|].
  destruct (String.eqb_spec "fe" region) as [<-|_]; [auto|].
  discriminate.
Qed.

Lemma getitem_unknown_region region :
  region <> "na" -> region <> "eu" -> region <> "fe" ->
  getitem SPAPI_REGIONS region = Raise KeyError.
Proof.
  intros H1 H2 H3. unfold SPAPI_REGIONS. cbn [getitem].
  destruct (String.eqb_spec "na" region) as [<-|_]; [congruence|].
  destruct (String.eqb_spec "eu" region) as [<-|_]; [congruence|].
  destruct (String.eqb_spec "fe" region) as [<-|_]; [congruence|].
  reflexivity.
Qed.

(** X22. The base URL of a client is
    https://[sandbox.]sellingpartnerapi-REGION.amazon.com for the regions
    "na", "eu" and "fe", written in lower case; any other region makes
    the constructor raise KeyError; and two clients have the same base
    URL only when they have the same region and the same sandbox flag. *)
Theorem X22_base_url (region : string) (sandbox : bool) :
  (region = "na" \/ region = "eu" \/ region = "fe" ->
   _build_base_url region sandbox
   = Ok ("https://" +:+ (if sandbox then "sandbox." else "")
         +:+ "sellingpartnerapi-" +:+ region +:+ ".amazon.com"))
  /\ (region <> "na" -> region <> "eu" -> region <> "fe" ->
      _build_base_url region sandbox = Raise KeyError)
  /\ (forall region' sandbox' url,
        _build_base_url region sandbox = Ok url ->
        _build_base_url region' sandbox' = Ok url ->
        region' = region /\ sandbox' = sandbox).
Proof.
  split; [|split].
  - intros [->|[->| ->]]; destruct sandbox; reflexivity.
  - intros H1 H2 H3. unfold _build_base_url.
    rewrite getitem_unknown_region by assumption.
    destruct sandbox; reflexivity.
  - assert (forall r s u, _build_base_url r s = Ok u ->
              r = "na" \/ r = "eu" \/ r = "fe") as Hregion.
    { intros r s u. unfold _build_base_url.
      destruct (getitem SPAPI_ENDPOINTS _); cbn [bind]; [|discriminate].
      destruct (getitem SPAPI_REGIONS r) as [suffix|] eqn:Hr; cbn [bind];
        [|discriminate].
      intros _. eapply getitem_regions; eauto. }
    intros region' sandbox' url H1 H2.
    pose proof (Hregion _ _ _ H1) as [->|[->| ->]];
      pose proof (Hregion _ _ _ H2) as [->|[->| ->]];
      destruct sandbox, sandbox'; vm_compute in H1, H2;
      injection H1 as <-; first [discriminate H2|split; reflexivity].
Qed.

Section WithDates.
Context `{DateLib}.

(** X23. What the mock client does, for every scenario and every number
    of attempts allowed. A refused timestamp raises ValueError before
    anything else. Otherwise: without a single attempt it raises
    RuntimeError; "ok" and "empty" answer at the first attempt with
    their fixed payload; an unknown scenario raises ValueError at the
    first attempt; "401" needs two attempts and waits 0.1 seconds
    between them; "429" needs three attempts and waits 1 and then 2
    seconds; with fewer attempts these two scenarios end in
    RuntimeError after their waits. "401" and "429" return the same
    payload as "ok". *)
Theorem X23_mock_scenarios (posted_after scenario : string)
    (max_retries : Z) :
  (fromisoformat (replace_Z posted_after) = None ->
   list_transactions_mock posted_after scenario max_retries
   = (Raise ValueError, []))
  /\ (fromisoformat (replace_Z posted_after) <> None ->
      (max_retries <= 0 ->
       list_transactions_mock posted_after scenario max_retries
       = (Raise RuntimeError, []))
      /\ (1 <= max_retries ->
          (scenario = "ok" ->
           list_transactions_mock posted_after scenario max_retries
           = (Ok mock_ok, [PrintOk 1 2]))
          /\ (scenario = "empty" ->
              list_transactions_mock posted_after scenario max_retries
              = (Ok empty_payload, [PrintEmpty 1]))
          /\ (scenario <> "ok" -> scenario <> "empty" ->
              scenario <> "401" -> scenario <> "429" ->
              list_transactions_mock posted_after scenario max_retries
              = (Raise ValueError, [])))
      /\ (scenario = "401" ->
          (max_retries = 1 ->
           list_transactions_mock posted_after scenario max_retries
           = (Raise RuntimeError, [Print401 1; MockSleep tenth]))
          /\ (2 <= max_retries ->
              list_transactions_mock posted_after scenario max_retries
              = (Ok mock_ok, [Print401 1; MockSleep tenth; PrintOk 2 2])))
      /\ (scenario = "429" ->
          (max_retries = 1 ->
           list_transactions_mock posted_after scenario max_retries
           = (Raise RuntimeError,
              [Print429 1 1; MockSleep (as_float 1)]))
          /\ (max_retries = 2 ->
              list_transactions_mock posted_after scenario max_retries
              = (Raise RuntimeError,
                 [Print429 1 1; MockSleep (as_float 1);
                  Print429 2 2; MockSleep (as_float 2)]))
          /\ (3 <= max_retries ->
              list_transactions_mock posted_after scenario max_retries
              = (Ok mock_ok,
                 [Print429 1 1; MockSleep (as_float 1);
                  Print429 2 2; MockSleep (as_float 2);
                  PrintOk 3 2])))).
Proof.
  unfold list_transactions_mock.
  destruct (fromisoformat (replace_Z posted_after)) as [d|];
    [|split; [reflexivity|congruence]].
  split; [discriminate|]. intros _.
  split; [|split; [|split]].
  - intros Hmax. replace (Z.to_nat max_retries) with 0%nat by lia.
    reflexivity.
  - intros Hmax.
    destruct (Z.to_nat max_retries) as [|n] eqn:Hn; [lia|].
    split; [|split].
    + intros ->. reflexivity.
    + intros ->. reflexivity.
    + intros H1 H2 H3 H4.
      rewrite (proj2 (String.eqb_neq scenario "401")) by assumption.
      rewrite (proj2 (String.eqb_neq scenario "429")) by assumption.
      cbn [mock_loop remaining_401 remaining_429 Nat.ltb Nat.leb].
      rewrite (proj2 (String.eqb_neq scenario "ok")) by assumption.
      rewrite (proj2 (String.eqb_neq scenario "401")) by assumption.
      rewrite (proj2 (String.eqb_neq scenario "429")) by assumption.
      rewrite (proj2 (String.eqb_neq scenario "empty")) by assumption.
      reflexivity.
  - intros ->. split.
    + intros ->. reflexivity.
    + intros Hmax.
      destruct (Z.to_nat max_retries) as [|[|n]] eqn:Hn; try lia.
      reflexivity.
  - intros ->. split; [|split].
    + intros ->. reflexivity.
    + intros ->. reflexivity.
    + intros Hmax.
      destruct (Z.to_nat max_retries) as [|[|[|n]]] eqn:Hn; try lia.
      reflexivity.
Qed.

End WithDates.
End MockFacts.

Module MockExamples.
Import Validator Client Sample Mock MockFacts.

(** The sandbox client of the European region. *)
Lemma X22_base_url_witness :
  _build_base_url "eu" true
  = Ok "https://sandbox.sellingpartnerapi-eu.amazon.com".
Proof.
  destruct (X22_base_url "eu" true) as (Hurl & _).
  apply Hurl. right; left. reflexivity.
Defined.

(** The "429" scenario with the default six attempts. *)
Lemma X23_mock_scenarios_witness :
  list_transactions_mock "2025-08-23T00:00:00Z" "429" DEFAULT_MAX_RETRIES
  = (Ok mock_ok,
     [Print429 1 1; MockSleep (as_float 1);
      Print429 2 2; MockSleep (as_float 2); PrintOk 3 2]).
Proof.
  destruct (@X23_mock_scenarios utc_seconds "2025-08-23T00:00:00Z" "429"
              DEFAULT_MAX_RETRIES) as (_ & Hvalid).
  destruct Hvalid as (_ & _ & _ & Hthrottled); [vm_compute; discriminate|].
  destruct (Hthrottled eq_refl) as (_ & _ & Hthree).
  apply Hthree. unfold DEFAULT_MAX_RETRIES. lia.
Defined.

End MockExamples.
